(** * fetscraper: a shallow embedding of the scraping and download pipeline

    The development follows the Python sources module by module:
    [Py] holds the fragments of the Python runtime the program relies on
    (string predicates, [int], [str], slicing), [Utils] is [src/utils.py],
    [Search] is [src/search.py], [Profile] is [src/profile.py], [Auth] is
    [src/auth.py] and [Downloader] is [src/downloader.py].

    Conventions.
    - A Python [str] is a [string]; a character is read as the Unicode code
      point of the same number (U+0000 .. U+00FF), and the character classes
      below are the ones CPython uses on that range.
    - A Python [int] is a [Z]; conversions are unbounded (no digit limit).
    - A call that may raise returns a [result]; the exception classes are the
      ones the program raises or catches. *)

From Stdlib Require Import ZArith List Ascii String Lia Bool DecimalString DecimalPos.
From stdpp Require Import gmap strings.

Local Open Scope string_scope.
Local Open Scope Z_scope.

(** ** Exceptions *)

Inductive pyexc : Type :=
| ValueError
| RequestException
| OtherException
| SearchError
| ProfileError
| AuthenticationError.

Inductive result (A : Type) : Type :=
| Ok (a : A)
| Raise (e : pyexc).

Arguments Ok {A} a.
Arguments Raise {A} e.

Definition bind {A B : Type} (r : result A) (k : A -> result B) : result B :=
  match r with
  | Ok a => k a
  | Raise e => Raise e
  end.

(** ** The Python runtime, as far as the program uses it *)

Module Py.

Definition ord (c : ascii) : N := N_of_ascii c.

Definition in_range (lo hi : N) (c : ascii) : bool :=
  ((lo <=? ord c) && (ord c <=? hi))%N.

(** [\d] in a [str] pattern, and the digits [int] accepts. *)
Definition isdecimal (c : ascii) : bool := in_range 48 57 c.

(** One character of [str.isdigit]: the decimal digits and the
    superscripts U+00B2, U+00B3, U+00B9. *)
Definition isdigit_char (c : ascii) : bool :=
  isdecimal c || (ord c =? 178)%N || (ord c =? 179)%N || (ord c =? 185)%N.

(** [str.isspace] on one character, also [\s] in a [str] pattern and the
    default character set of [str.strip]. *)
Definition isspace (c : ascii) : bool :=
  in_range 9 13 c || in_range 28 32 c || (ord c =? 133)%N || (ord c =? 160)%N.

(** The blanks [int] skips around a literal: the C-locale blanks, and the
    non-ASCII Unicode blanks, which it first rewrites to a space. *)
Definition isspace_int (c : ascii) : bool :=
  in_range 9 13 c || (ord c =? 32)%N || (ord c =? 133)%N || (ord c =? 160)%N.

Fixpoint all_chars (p : ascii -> bool) (s : string) : bool :=
  match s with
  | EmptyString => true
  | String c r => p c && all_chars p r
  end.

Fixpoint any_char (p : ascii -> bool) (s : string) : bool :=
  match s with
  | EmptyString => false
  | String c r => p c || any_char p r
  end.

Definition is_empty (s : string) : bool :=
  match s with
  | EmptyString => true
  | String _ _ => false
  end.

(** Truth value of a [str]. *)
Definition truthy (s : string) : bool := negb (is_empty s).

(** [s.isdigit()] *)
Definition isdigit (s : string) : bool :=
  truthy s && all_chars isdigit_char s.

Fixpoint lstrip_by (p : ascii -> bool) (s : string) : string :=
  match s with
  | EmptyString => EmptyString
  | String c r => if p c then lstrip_by p r else s
  end.

Fixpoint rstrip_by (p : ascii -> bool) (s : string) : string :=
  match s with
  | EmptyString => EmptyString
  | String c r =>
      match rstrip_by p r with
      | EmptyString => if p c then EmptyString else String c EmptyString
      | String d t => String c (String d t)
      end
  end.

Definition strip_by (p : ascii -> bool) (s : string) : string :=
  rstrip_by p (lstrip_by p s).

(** [s.strip()] *)
Definition strip (s : string) : string := strip_by isspace s.

(** [s.split(sep)] for a one-character separator. *)
Fixpoint split (sep : ascii) (s : string) : list string :=
  match s with
  | EmptyString => [EmptyString]
  | String c r =>
      if Ascii.eqb c sep then EmptyString :: split sep r
      else match split sep r with
           | [] => [String c EmptyString]
           | w :: ws => String c w :: ws
           end
  end.

(** The longest prefix of characters in [p], and what follows it. *)
Fixpoint span (p : ascii -> bool) (s : string) : string * string :=
  match s with
  | EmptyString => (EmptyString, EmptyString)
  | String c r =>
      if p c then let '(a, b) := span p r in (String c a, b)
      else (EmptyString, s)
  end.

Fixpoint starts_with (pre s : string) : bool :=
  match pre, s with
  | EmptyString, _ => true
  | String a p, String b r => Ascii.eqb a b && starts_with p r
  | String _ _, EmptyString => false
  end.

(** [sub in s] *)
Fixpoint contains (sub s : string) : bool :=
  starts_with sub s ||
  match s with
  | EmptyString => false
  | String _ r => contains sub r
  end.

Fixpoint drop (n : nat) (s : string) : string :=
  match n, s with
  | O, _ => s
  | S _, EmptyString => EmptyString
  | S k, String _ r => drop k r
  end.

Fixpoint take (n : nat) (s : string) : string :=
  match n, s with
  | O, _ => EmptyString
  | S _, EmptyString => EmptyString
  | S k, String c r => String c (take k r)
  end.

Definition len (s : string) : Z := Z.of_nat (String.length s).

Definition first_char (s : string) : option ascii :=
  match s with
  | EmptyString => None
  | String c _ => Some c
  end.

Fixpoint last_char (s : string) : option ascii :=
  match s with
  | EmptyString => None
  | String c EmptyString => Some c
  | String _ r => last_char r
  end.

(** [s[:k]] for any integer [k]: a negative bound counts from the end. *)
Definition slice_to (s : string) (k : Z) : string :=
  if k <? 0 then take (Z.to_nat (len s + k)) s
  else take (Z.to_nat k) s.

(** [l[:k]] on a list. *)
Definition list_slice_to {A : Type} (l : list A) (k : Z) : list A :=
  if k <? 0 then firstn (Z.to_nat (Z.of_nat (List.length l) + k)) l
  else firstn (Z.to_nat k) l.

Definition digit_value (c : ascii) : Z := Z.of_N (ord c) - 48.

(** The body of an integer literal: decimal digits, with single
    underscores allowed between two digits. *)
Inductive lit_state : Type := AtStart | AfterDigit | AfterUnderscore.

Fixpoint int_body (st : lit_state) (acc : Z) (s : string) : option Z :=
  match s with
  | EmptyString =>
      match st with
      | AfterDigit => Some acc
      | _ => None
      end
  | String c r =>
      if isdecimal c then int_body AfterDigit (10 * acc + digit_value c) r
      else if Ascii.eqb c "_" then
        match st with
        | AfterDigit => int_body AfterUnderscore acc r
        | _ => None
        end
      else None
  end.

(** [int(s)]: blanks around, an optional sign, then the body. *)
Definition split_sign (t : string) : bool * string :=
  match t with
  | String c r =>
      if Ascii.eqb c "-" then (true, r)
      else if Ascii.eqb c "+" then (false, r)
      else (false, t)
  | EmptyString => (false, t)
  end.

Definition int (s : string) : result Z :=
  let t := strip_by isspace_int s in
  let '(neg, body) := split_sign t in
  match int_body AtStart 0 body with
  | Some n => Ok (if neg then - n else n)
  | None => Raise ValueError
  end.

(** [str(n)] for an [int]. *)
Definition str_of_int (n : Z) : string :=
  NilZero.string_of_int (Z.to_int n).

Fixpoint zeros (n : nat) : string :=
  match n with
  | O => EmptyString
  | S k => String "0" (zeros k)
  end.

(** [format(n, "02d")]: the sign first, then zeros up to width two. *)
Definition format_02d (n : Z) : string :=
  let sign := if n <? 0 then "-" else EmptyString in
  let digits := str_of_int (Z.abs n) in
  let width := (String.length sign + String.length digits)%nat in
  sign ++ zeros (2 - width) ++ digits.

End Py.

(** ** src/utils.py *)

Module Utils.

(** One optional unit of the shorthand pattern, [(?:(\d+)u)?], tried at the
    head of [s]: the captured digits (if the unit is there) and the rest. *)
Definition take_unit (u : ascii) (s : string) : option string * string :=
  let '(ds, rest) := Py.span Py.isdecimal s in
  match ds, rest with
  | String _ _, String c rest' =>
      if Ascii.eqb c u then (Some ds, rest') else (None, s)
  | _, _ => (None, s)
  end.

(** [re.fullmatch(r"(?:(\d+)h)?(?:(\d+)m)?(?:(\d+)s)?", s)]: the three
    groups when the whole string matches. *)
Definition shorthand_fullmatch (s : string)
  : option (option string * option string * option string) :=
  let '(h, s1) := take_unit "h" s in
  let '(m, s2) := take_unit "m" s1 in
  let '(sec, s3) := take_unit "s" s2 in
  if Py.is_empty s3 then Some (h, m, sec) else None.

(** [any(match.groups())] *)
Definition any_group (g : option string * option string * option string) : bool :=
  let '(h, m, sec) := g in
  let t := fun o : option string =>
             match o with Some d => Py.truthy d | None => false end in
  t h || t m || t sec.

(** [int(match.group(i) or 0)] *)
Definition int_or_0 (g : option string) : result Z :=
  match g with
  | Some d => if Py.truthy d then Py.int d else Ok 0
  | None => Ok 0
  end.

Definition colon_fields (parts : list string) : result Z :=
  match parts with
  | [a; b] =>
      match Py.int a, Py.int b with
      | Ok minutes, Ok seconds => Ok (minutes * 60 + seconds)
      | _, _ => Raise ValueError
      end
  | [a; b; c] =>
      match Py.int a, Py.int b, Py.int c with
      | Ok hours, Ok minutes, Ok seconds =>
          Ok (hours * 3600 + minutes * 60 + seconds)
      | _, _, _ => Raise ValueError
      end
  | _ => Raise ValueError
  end.

Definition parse_duration (duration_str : string) : result Z :=
  if Py.is_empty duration_str then Ok 0
  else
    let duration_str := Py.strip duration_str in
    if Py.isdigit duration_str then Py.int duration_str
    else
      match shorthand_fullmatch duration_str with
      | Some (h, m, sec) =>
          if any_group (h, m, sec) then
            bind (int_or_0 h) (fun hours =>
            bind (int_or_0 m) (fun minutes =>
            bind (int_or_0 sec) (fun seconds =>
            Ok (hours * 3600 + minutes * 60 + seconds))))
          else colon_fields (Py.split ":" duration_str)
      | None => colon_fields (Py.split ":" duration_str)
      end.

Definition format_duration (seconds : Z) : string :=
  if seconds <? 60 then Py.str_of_int seconds ++ "s"
  else
    let minutes := seconds / 60 in
    let secs := seconds mod 60 in
    if minutes <? 60 then Py.str_of_int minutes ++ ":" ++ Py.format_02d secs
    else
      let hours := minutes / 60 in
      let mins := minutes mod 60 in
      Py.str_of_int hours ++ ":" ++ Py.format_02d mins ++ ":" ++ Py.format_02d secs.

(** The nine characters of the class [invalid_chars]: less-than,
    greater-than, colon, double quote, slash, backslash, bar, question
    mark and star. *)
Definition double_quote : ascii := ascii_of_N 34.

Definition invalid_char (c : ascii) : bool :=
  Py.contains (String c EmptyString) ("<>:" ++ String double_quote "/\|?*").

Fixpoint map_chars (f : ascii -> ascii) (s : string) : string :=
  match s with
  | EmptyString => EmptyString
  | String c r => String (f c) (map_chars f r)
  end.

Fixpoint filter_chars (p : ascii -> bool) (s : string) : string :=
  match s with
  | EmptyString => EmptyString
  | String c r => if p c then String c (filter_chars p r) else filter_chars p r
  end.

(** The class [[\s_]]. *)
Definition space_or_underscore (c : ascii) : bool :=
  Py.isspace c || Ascii.eqb c "_".

(** [re.sub] of the pattern [[\s_]+] by one underscore: every maximal run
    becomes one underscore;
    [in_run] tells that the previous character was part of a run. *)
Fixpoint collapse_runs (in_run : bool) (s : string) : string :=
  match s with
  | EmptyString => EmptyString
  | String c r =>
      if space_or_underscore c then
        if in_run then collapse_runs true r
        else String "_" (collapse_runs true r)
      else String c (collapse_runs false r)
  end.

(** The character set of the two strip calls: dot and space. *)
Definition dot_or_space (c : ascii) : bool :=
  Ascii.eqb c "." || Ascii.eqb c " ".

Definition replace_invalid (c : ascii) : ascii :=
  if invalid_char c then "_"%char else c.

Definition sanitize_filename (filename : string) (max_length : Z) : string :=
  let sanitized := map_chars replace_invalid filename in
  let sanitized := filter_chars (fun c => (32 <=? Py.ord c)%N) sanitized in
  let sanitized := collapse_runs false sanitized in
  let sanitized := Py.strip_by dot_or_space sanitized in
  let sanitized :=
    if Py.len sanitized >? max_length then
      let name_part := Py.slice_to sanitized max_length in
      Py.rstrip_by dot_or_space name_part
    else sanitized in
  if Py.truthy sanitized then sanitized else "unnamed".

(** The default of the [max_length] parameter. *)
Definition default_max_length : Z := 200.

End Utils.

(** ** src/config.py *)

Module Config.

Definition base_url : string := "https://fetlife.com".
Definition login_url : string := base_url ++ "/login".
Definition search_url : string := base_url ++ "/search".

End Config.

(** ** Pages, as the program reads them

    The program never looks at a response body directly: it hands it to
    BeautifulSoup and to the JSON decoder and asks a fixed set of questions.
    A [Page] records the answers to those questions, next to the raw text
    that the regular expressions scan. *)

(** The scalar JSON values an [id] field can hold. *)
Inductive JsonScalar : Type :=
| JNull
| JBool (b : bool)
| JInt (n : Z)
| JStr (s : string).

(** One entry of a [sources] list. *)
Record Source : Type := {
  src : option string
}.

(** One entry of a [videos] list: the fields the program reads, each absent
    ([None]) or present with the type the program expects there. (A payload
    with a field of another shape makes the loop raise; the search then ends
    with a SearchError and returns no record.) *)
Record VideoData : Type := {
  vd_id : option JsonScalar;
  vd_path : option string;
  vd_formattedTitle : option string;
  vd_durationString : option string;
  vd_sources : list Source;
  vd_screencapSrc : option string;
  vd_createdAt : option string
}.

(** One story (or gallery entry): [attributes.videos], empty when absent. *)
Record Story : Type := {
  story_videos : list VideoData
}.

(** What becomes of the [data-props] of a Vue component. *)
Inductive Component : Type :=
| NoComponent                       (* no element carries the marker *)
| NoProps                           (* the element has no data-props *)
| BadJson                           (* the JSON decoder raises *)
| Props (entries : list Story).     (* the decoded list the program walks *)

(** An anchor, by its [href] and its stripped text. *)
Record Anchor : Type := {
  href : string;
  anchor_text : string
}.

Record Img : Type := {
  img_src : option string;
  img_data_src : option string
}.

Record DateElem : Type := {
  datetime : option string;
  date_text : string
}.

(** A candidate video card, by the answers to the queries of
    [parse_video_element]:
    - [video_link]: the first anchor whose href has a video path;
    - [h3_text], [h2_text]: the stripped text of the first h3 and h2;
    - [uploader_link]: the first anchor whose href has a user path;
    - [duration_by_class]: the stripped text of the first element with a
      duration class;
    - [duration_by_string]: the first text node holding digits, a colon
      and digits;
    - [img]: the first image; [time_elem], [date_by_class]: the first time
      element and the first element with a date class. *)
Record Element : Type := {
  video_link : option Anchor;
  h3_text : option string;
  h2_text : option string;
  uploader_link : option Anchor;
  duration_by_class : option string;
  duration_by_string : option string;
  img : option Img;
  time_elem : option DateElem;
  date_by_class : option DateElem
}.

Record Page : Type := {
  status_code : Z;
  final_url : string;                       (* response.url *)
  text : string;                            (* response.text *)
  video_search_stories : Component;         (* VideoSearchStories: stories *)
  video_stories_gallery : Component;        (* VideoStoriesGallery: preload.entries *)
  video_cards : list Element;               (* find_all by the video card class *)
  articles : list Element;                  (* find_all("article") *)
  media : list Element;                     (* find_all(class_="media") *)
  next_link : bool;                         (* an anchor with rel=next *)
  meta_csrf_content : option string;        (* content of the csrf-token meta tag *)
  input_csrf_value : option string;         (* value of the authenticity_token input *)
  user_link_href : string -> option string; (* href of the user link named so *)
  error_text : option string                (* stripped text of the first error or alert element *)
}.

(** ** src/client.py *)

Module Client.

Inductive Request : Type :=
| GET (url : string)
| POST (url : string) (data : list (string * string)).

(** The site: what the [n]-th request of the session is answered with;
    [None] stands for a connection failure or a status that
    [raise_for_status] refuses. *)
Definition Site : Type := nat -> Request -> option Page.

(** The fields of [FetLifeClient] next to the session, whose requests are
    logged in order. *)
Record t : Type := {
  sent : list Request;
  csrf_token : option string;
  authenticated : bool
}.

Definition new : t :=
  {| sent := []; csrf_token := None; authenticated := false |}.

(** The client once [r] has left. *)
Definition after (r : Request) (c : t) : t :=
  {| sent := sent c ++ [r];
     csrf_token := csrf_token c;
     authenticated := authenticated c |}.

Definition send (site : Site) (r : Request) (c : t) : result Page * t :=
  let c' := after r c in
  match site (List.length (sent c)) r with
  | Some page => (Ok page, c')
  | None => (Raise RequestException, c')
  end.

Definition get (site : Site) (url : string) (c : t) : result Page * t :=
  send site (GET url) c.

Definition post (site : Site) (url : string) (data : list (string * string)) (c : t)
  : result Page * t :=
  send site (POST url data) c.

End Client.

(** ** src/search.py *)

Module Search.

Record VideoInfo : Type := {
  video_id : string;
  title : string;
  url : string;
  uploader : string;
  uploader_id : string;
  duration : Z;
  thumbnail_url : option string;
  upload_date : option string;
  download_url : option string
}.

(** [re.search] of a literal path followed by [(\d+)]: the group of the
    leftmost match. *)
Fixpoint search_path_id (path s : string) : option string :=
  let here :=
    if Py.starts_with path s then
      let ds := fst (Py.span Py.isdecimal (Py.drop (String.length path) s)) in
      if Py.truthy ds then Some ds else None
    else None in
  match here with
  | Some ds => Some ds
  | None =>
      match s with
      | EmptyString => None
      | String _ r => search_path_id path r
      end
  end.

(** [a or b] on two optional strings. *)
Definition or_else (a b : option string) : option string :=
  match a with
  | Some x => if Py.truthy x then a else b
  | None => b
  end.

(** The [try] around [parse_duration]: a ValueError leaves the duration at
    0, anything else escapes. *)
Definition duration_or_0 (duration_str : string) : result Z :=
  match Utils.parse_duration duration_str with
  | Ok d => Ok d
  | Raise ValueError => Ok 0
  | Raise e => Raise e
  end.

Definition parse_video_element (element : Element) (base_url : string)
  : option VideoInfo :=
  match video_link element with
  | None => None
  | Some link =>
      let video_url := href link in
      let video_url :=
        if Py.starts_with "http" video_url then video_url
        else base_url ++ video_url in
      match search_path_id "/videos/" video_url with
      | None => None
      | Some video_id =>
          let title :=
            match h3_text element, h2_text element with
            | Some t, _ => t
            | None, Some t => t
            | None, None => anchor_text link
            end in
          let '(uploader, uploader_id) :=
            match uploader_link element with
            | Some ul =>
                (anchor_text ul,
                 match search_path_id "/users/" (href ul) with
                 | Some uid => uid
                 | None => "0"
                 end)
            | None => ("Unknown", "0")
            end in
          let duration_elem :=
            match duration_by_class element with
            | Some t => Some t
            | None =>
                match duration_by_string element with
                | Some t => if Py.truthy t then Some (Py.strip t) else None
                | None => None
                end
            end in
          let duration :=
            match duration_elem with
            | Some duration_str => duration_or_0 duration_str
            | None => Ok 0
            end in
          let thumbnail_url :=
            match img element with
            | Some i => or_else (img_src i) (img_data_src i)
            | None => None
            end in
          let date_elem :=
            match time_elem element with
            | Some d => Some d
            | None => date_by_class element
            end in
          let upload_date :=
            match date_elem with
            | Some d => or_else (datetime d) (Some (date_text d))
            | None => None
            end in
          match duration with
          | Raise _ => None
          | Ok duration =>
              Some {| video_id := video_id;
                      title := title;
                      url := video_url;
                      uploader := uploader;
                      uploader_id := uploader_id;
                      duration := duration;
                      thumbnail_url := thumbnail_url;
                      upload_date := upload_date;
                      download_url := None |}
          end
      end
  end.

(** [str(x)] on a scalar. *)
Definition str_of_scalar (x : JsonScalar) : string :=
  match x with
  | JNull => "None"
  | JBool true => "True"
  | JBool false => "False"
  | JInt n => Py.str_of_int n
  | JStr s => s
  end.

Definition get_or (default : string) (field : option string) : string :=
  match field with
  | Some x => x
  | None => default
  end.

(** The body of the loop over [story_videos], up to the duration filter. *)
Definition video_info_of_data (video_data : VideoData) : result VideoInfo :=
  let video_id :=
    match vd_id video_data with
    | Some x => str_of_scalar x
    | None => EmptyString
    end in
  let video_path := get_or EmptyString (vd_path video_data) in
  let title := get_or ("Video " ++ video_id) (vd_formattedTitle video_data) in
  let video_url :=
    if Py.truthy video_path then Config.base_url ++ video_path else EmptyString in
  let uploader :=
    if Py.truthy video_path then
      match Py.split "/" video_path with
      | _ :: second :: _ => second
      | _ => "Unknown"
      end
    else "Unknown" in
  let duration_str := get_or EmptyString (vd_durationString video_data) in
  let duration :=
    if Py.truthy duration_str then duration_or_0 duration_str else Ok 0 in
  let download_url :=
    match vd_sources video_data with
    | first :: _ => src first
    | [] => None
    end in
  bind duration (fun duration =>
  Ok {| video_id := video_id;
        title := title;
        url := video_url;
        uploader := uploader;
        uploader_id := "0";
        duration := duration;
        thumbnail_url := vd_screencapSrc video_data;
        upload_date := vd_createdAt video_data;
        download_url := download_url |}).

(** [min_duration > 0 and video_info.duration < min_duration] *)
Definition filtered_out (min_duration : Z) (video_info : VideoInfo) : bool :=
  (min_duration >? 0) && (duration video_info <? min_duration).

(** [limit and len(videos) + len(page_videos) >= limit]: the bound, when the
    test holds. *)
Definition limit_reached (limit : option Z) (videos page_videos : list VideoInfo)
  : option Z :=
  match limit with
  | Some l =>
      if negb (l =? 0)
         && (Z.of_nat (List.length videos) + Z.of_nat (List.length page_videos) >=? l)
      then Some l else None
  | None => None
  end.

(** How the walk over one page ends: by the [return] under the limit test,
    by running out of items, or by an exception. *)
Inductive Scan : Type :=
| Reached (videos : list VideoInfo)
| Scanned (page_videos : list VideoInfo)
| Failed (e : pyexc).

(** What both listings do with a record that was just built. *)
Definition keep (min_duration : Z) (limit : option Z)
    (videos page_videos : list VideoInfo) (video_info : VideoInfo) : Scan :=
  if filtered_out min_duration video_info then Scanned page_videos
  else
    let page_videos := (page_videos ++ [video_info])%list in
    match limit_reached limit videos page_videos with
    | Some l =>
        Reached (videos ++ Py.list_slice_to page_videos (l - Z.of_nat (List.length videos)))%list
    | None => Scanned page_videos
    end.

Fixpoint scan_videos (min_duration : Z) (limit : option Z)
    (videos page_videos : list VideoInfo) (story_videos : list VideoData) : Scan :=
  match story_videos with
  | [] => Scanned page_videos
  | video_data :: rest =>
      match video_info_of_data video_data with
      | Raise e => Failed e
      | Ok video_info =>
          match keep min_duration limit videos page_videos video_info with
          | Scanned page_videos => scan_videos min_duration limit videos page_videos rest
          | stop => stop
          end
      end
  end.

Fixpoint scan_stories (min_duration : Z) (limit : option Z)
    (videos page_videos : list VideoInfo) (stories : list Story) : Scan :=
  match stories with
  | [] => Scanned page_videos
  | story :: rest =>
      match scan_videos min_duration limit videos page_videos (story_videos story) with
      | Scanned page_videos => scan_stories min_duration limit videos page_videos rest
      | stop => stop
      end
  end.

Definition search_url (query : string) (current_page : Z) : string :=
  let search_url := Config.base_url ++ "/search/videos?q=" ++ query in
  if current_page >? 1 then search_url ++ "&page=" ++ Py.str_of_int current_page
  else search_url.

(** The [while True] loop; [None] when [fuel] pages were fetched and the
    loop has not ended. Whatever is raised inside becomes a SearchError. *)
Fixpoint search_pages (fuel : nat) (site : Client.Site) (query : string)
    (min_duration : Z) (limit : option Z) (current_page : Z)
    (videos : list VideoInfo) (client : Client.t)
  : option (result (list VideoInfo) * Client.t) :=
  match fuel with
  | O => None
  | S fuel =>
      match Client.get site (search_url query current_page) client with
      | (Raise _, client) => Some (Raise SearchError, client)
      | (Ok page, client) =>
          match video_search_stories page with
          | NoComponent | NoProps | BadJson => Some (Ok videos, client)
          | Props [] => Some (Ok videos, client)
          | Props stories =>
              match scan_stories min_duration limit videos [] stories with
              | Reached videos => Some (Ok videos, client)
              | Failed _ => Some (Raise SearchError, client)
              | Scanned page_videos =>
                  search_pages fuel site query min_duration limit
                    (current_page + 1) (videos ++ page_videos)%list client
              end
          end
      end
  end.

Definition search_videos (fuel : nat) (site : Client.Site) (client : Client.t)
    (query : string) (min_duration : Z) (limit : option Z) (page : Z)
  : option (result (list VideoInfo) * Client.t) :=
  if negb (Client.authenticated client) then Some (Raise SearchError, client)
  else search_pages fuel site query min_duration limit page [] client.

End Search.

(** ** src/profile.py *)

Module Profile.

Import Search.

Definition extract_user_id (profile_identifier : string) : option string :=
  if Py.isdigit profile_identifier then Some profile_identifier
  else search_path_id "/users/" profile_identifier.

(** Every failure inside is answered with [None]. *)
Definition get_user_id_from_nickname (site : Client.Site) (client : Client.t)
    (nickname : string) : option string * Client.t :=
  let search_url := Config.search_url ++ "?q=" ++ nickname ++ "&type=users" in
  match Client.get site search_url client with
  | (Raise _, client) => (None, client)
  | (Ok page, client) =>
      match user_link_href page nickname with
      | Some h => (search_path_id "/users/" h, client)
      | None => (None, client)
      end
  end.

Definition videos_url (user_id : string) (page : Z) : string :=
  Config.base_url ++ "/users/" ++ user_id ++ "/videos?page=" ++ Py.str_of_int page.

(** The selectors, in the order they are tried. *)
Definition video_elements (page : Page) : list Element :=
  match video_cards page with
  | [] =>
      match articles page with
      | [] => media page
      | found => found
      end
  | found => found
  end.

Fixpoint scan_elements (min_duration : Z) (limit : option Z)
    (videos page_videos : list VideoInfo) (elements : list Element) : Scan :=
  match elements with
  | [] => Scanned page_videos
  | element :: rest =>
      match parse_video_element element Config.base_url with
      | None => scan_elements min_duration limit videos page_videos rest
      | Some video_info =>
          match keep min_duration limit videos page_videos video_info with
          | Scanned page_videos => scan_elements min_duration limit videos page_videos rest
          | stop => stop
          end
      end
  end.

(** The [while True] loop; [None] when [fuel] pages were fetched and the
    loop has not ended. *)
Fixpoint profile_pages (fuel : nat) (site : Client.Site) (user_id : string)
    (min_duration : Z) (limit : option Z) (page : Z)
    (videos : list VideoInfo) (client : Client.t)
  : option (result (list VideoInfo) * Client.t) :=
  match fuel with
  | O => None
  | S fuel =>
      match Client.get site (videos_url user_id page) client with
      | (Raise _, client) => Some (Raise ProfileError, client)
      | (Ok response, client) =>
          match video_elements response with
          | [] => Some (Ok videos, client)
          | elements =>
              match scan_elements min_duration limit videos [] elements with
              | Reached videos => Some (Ok videos, client)
              | Failed _ => Some (Raise ProfileError, client)
              | Scanned [] => Some (Ok videos, client)
              | Scanned page_videos =>
                  let videos := (videos ++ page_videos)%list in
                  if next_link response then
                    profile_pages fuel site user_id min_duration limit
                      (page + 1) videos client
                  else Some (Ok videos, client)
              end
          end
      end
  end.

Definition get_profile_videos (fuel : nat) (site : Client.Site) (client : Client.t)
    (profile_identifier : string) (min_duration : Z) (limit : option Z)
  : option (result (list VideoInfo) * Client.t) :=
  if negb (Client.authenticated client) then Some (Raise ProfileError, client)
  else
    let '(user_id, client) :=
      match extract_user_id profile_identifier with
      | Some uid =>
          if Py.truthy uid then (Some uid, client)
          else get_user_id_from_nickname site client profile_identifier
      | None => get_user_id_from_nickname site client profile_identifier
      end in
    match user_id with
    | None => Some (Raise ProfileError, client)
    | Some uid =>
        if Py.truthy uid then
          profile_pages fuel site uid min_duration limit 1 [] client
        else Some (Raise ProfileError, client)
    end.

End Profile.

(** ** src/auth.py *)

Module Auth.

(** The class [\w] on the first 256 code points, and the hyphen. *)
Definition word_or_hyphen (c : ascii) : bool :=
  Py.in_range 48 57 c || Py.in_range 65 90 c || Py.in_range 97 122 c
  || Ascii.eqb c "_" || Ascii.eqb c "-"
  || (Py.ord c =? 170)%N || (Py.ord c =? 178)%N || (Py.ord c =? 179)%N
  || (Py.ord c =? 181)%N || (Py.ord c =? 185)%N || (Py.ord c =? 186)%N
  || Py.in_range 188 190 c || Py.in_range 192 214 c
  || Py.in_range 216 246 c || Py.in_range 248 255 c.

Definition is_quote (c : ascii) : bool :=
  Ascii.eqb c Utils.double_quote || Ascii.eqb c "'".

(** The class of the separator run: double quote, blank or colon. *)
Definition separator (c : ascii) : bool :=
  Ascii.eqb c Utils.double_quote || Py.isspace c || Ascii.eqb c ":".

Definition lower (c : ascii) : ascii :=
  if Py.in_range 65 90 c then ascii_of_N (Py.ord c + 32) else c.

(** A literal, matched without regard to case, and what follows it. *)
Fixpoint skip_nocase (lit s : string) : option string :=
  match lit, s with
  | EmptyString, _ => Some s
  | String a l, String b r =>
      if Ascii.eqb a (lower b) then skip_nocase l r else None
  | String _ _, EmptyString => None
  end.

(** The quoted token at the head of [s]: an opening quote, one or more word
    characters or hyphens, a closing quote. *)
Definition quoted_word (s : string) : option string :=
  match s with
  | String q r =>
      if is_quote q then
        let '(w, after) := Py.span word_or_hyphen r in
        match w, after with
        | String _ _, String q' _ => if is_quote q' then Some w else None
        | _, _ => None
        end
      else None
  | EmptyString => None
  end.

(** The separator run and the quoted token. The run is greedy; when the
    token does not follow it, the only shorter run that can still be
    followed by a quote gives back a final double quote. *)
Definition after_name (s : string) : option string :=
  let '(run, rest) := Py.span separator s in
  match run with
  | EmptyString => None
  | String _ _ =>
      match quoted_word rest with
      | Some w => Some w
      | None =>
          match Py.last_char run, run with
          | Some q, String _ (String _ _) =>
              if Ascii.eqb q Utils.double_quote
              then quoted_word (String q rest) else None
          | _, _ => None
          end
      end
  end.

(** The pattern at the head of [s]: csrf, an optional underscore or hyphen,
    token, then [after_name]. *)
Definition csrf_match_here (s : string) : option string :=
  match skip_nocase "csrf" s with
  | None => None
  | Some s1 =>
      let s2 :=
        match s1 with
        | String c r => if Ascii.eqb c "_" || Ascii.eqb c "-" then r else s1
        | EmptyString => s1
        end in
      match skip_nocase "token" s2 with
      | None => None
      | Some s3 => after_name s3
      end
  end.

(** [re.search] of the pattern in the page text: group 1 of the leftmost
    match. *)
Fixpoint csrf_search (html : string) : option string :=
  match csrf_match_here html with
  | Some w => Some w
  | None =>
      match html with
      | EmptyString => None
      | String _ r => csrf_search r
      end
  end.

(** A value that is present and true. *)
Definition present (v : option string) : option string :=
  match v with
  | Some x => if Py.truthy x then Some x else None
  | None => None
  end.

Definition extract_csrf_token (page : Page) : option string :=
  match present (meta_csrf_content page) with
  | Some token => Some token
  | None =>
      match present (input_csrf_value page) with
      | Some token => Some token
      | None => csrf_search (text page)
      end
  end.

Definition login_data (csrf_token username password : string)
  : list (string * string) :=
  [("authenticity_token", csrf_token);
   ("user[otp_attempt]", "step_1");
   ("user[locale]", "en");
   ("user[login]", username);
   ("user[password]", password);
   ("user[remember_me]", "1")].

Definition set_csrf_token (token : string) (c : Client.t) : Client.t :=
  {| Client.sent := Client.sent c;
     Client.csrf_token := Some token;
     Client.authenticated := Client.authenticated c |}.

Definition set_authenticated (c : Client.t) : Client.t :=
  {| Client.sent := Client.sent c;
     Client.csrf_token := Client.csrf_token c;
     Client.authenticated := true |}.

(** [username] and [password] are the arguments after the fall back to the
    configuration. Every exception leaves as an AuthenticationError. *)
Definition authenticate (site : Client.Site) (client : Client.t)
    (username password : option string) : result bool * Client.t :=
  match present username, present password with
  | Some username, Some password =>
      match Client.get site Config.login_url client with
      | (Raise _, client) => (Raise AuthenticationError, client)
      | (Ok response, client) =>
          match present (extract_csrf_token response) with
          | None => (Raise AuthenticationError, client)
          | Some csrf_token =>
              let client := set_csrf_token csrf_token client in
              match Client.post site Config.login_url
                      (login_data csrf_token username password) client with
              | (Raise _, client) => (Raise AuthenticationError, client)
              | (Ok response, client) =>
                  if (status_code response =? 200)
                     && Py.contains "/home" (final_url response)
                  then (Ok true, set_authenticated client)
                  else (Raise AuthenticationError, client)
              end
          end
      end
  | _, _ => (Raise AuthenticationError, client)
  end.

End Auth.

(** ** src/downloader.py *)

Module Downloader.

Import Search.

(** The two ways a stream is fetched from the network. *)
Inductive Fetch : Type :=
| HttpStream (url : string)    (* session.get(url, stream=True) *)
| Remux (url : string).        (* the ffmpeg subprocess on a manifest *)

(** How an ffmpeg run ends. A run that fails or times out may leave an
    output file behind; [file_after] tells whether the target exists then. *)
Inductive FfmpegResult : Type :=
| ExitZero
| ExitNonZero (file_after : bool)
| TimeoutExpired (file_after : bool)
| CannotRun.

(** The network as the downloader meets it: the site behind the client, and
    what the [n]-th stream fetch yields. [http_stream] answers [true] when
    the body was written to the end, [false] when an exception interrupted
    the request or the writing. *)
Record Net : Type := {
  site : Client.Site;
  http_stream : nat -> string -> bool;
  ffmpeg : nat -> string -> FfmpegResult
}.

(** A [VideoDownloader], with the part of the file system it touches:
    [history_file] is the content of the ledger file (when it was written),
    [files] the media files that exist, [fetched] the stream fetches made so
    far. Creating directories and writing the ledger file are taken to
    succeed. *)
Record t : Type := {
  client : Client.t;
  output_dir : string;
  downloaded_ids : gset string;
  history_file : option (gset string);
  files : gset string;
  fetched : list Fetch
}.

Definition with_client (c : Client.t) (d : t) : t :=
  {| client := c; output_dir := output_dir d;
     downloaded_ids := downloaded_ids d; history_file := history_file d;
     files := files d; fetched := fetched d |}.

Definition with_files (f : gset string) (d : t) : t :=
  {| client := client d; output_dir := output_dir d;
     downloaded_ids := downloaded_ids d; history_file := history_file d;
     files := f; fetched := fetched d |}.

Definition record_fetch (f : Fetch) (d : t) : t :=
  {| client := client d; output_dir := output_dir d;
     downloaded_ids := downloaded_ids d; history_file := history_file d;
     files := files d; fetched := fetched d ++ [f] |}.

(** [self.downloaded_ids.add(id)] followed by [self._save_download_history()]. *)
Definition mark_downloaded (id : string) (d : t) : t :=
  let ids := {[ id ]} ∪ downloaded_ids d in
  {| client := client d; output_dir := output_dir d;
     downloaded_ids := ids; history_file := Some ids;
     files := files d; fetched := fetched d |}.

(** [a / b] on paths, for a relative [b]. *)
Definition path_join (a b : string) : string := a ++ "/" ++ b.

Definition target_path (d : t) (video_info : VideoInfo) : string :=
  let user_dir :=
    path_join (output_dir d)
      (Utils.sanitize_filename (uploader video_info) Utils.default_max_length) in
  let safe_title :=
    Utils.sanitize_filename (title video_info) Utils.default_max_length in
  path_join user_dir (safe_title ++ "_" ++ video_id video_info ++ ".mp4").

(** The first source of the first video of the first gallery entry; every
    failure is answered with [None]. *)
Definition get_video_download_url (net : Net) (d : t) (video_url : string)
  : option string * t :=
  match Client.get (site net) video_url (client d) with
  | (Raise _, c) => (None, with_client c d)
  | (Ok page, c) =>
      (match video_stories_gallery page with
       | Props (entry :: _) =>
           match story_videos entry with
           | video :: _ =>
               match vd_sources video with
               | source :: _ => src source
               | [] => None
               end
           | [] => None
           end
       | _ => None
       end, with_client c d)
  end.

(** The [except] branch: the partial file is removed. *)
Definition clean_up (filepath : string) (d : t) : t :=
  with_files (files d ∖ {[ filepath ]}) d.

Definition set_file (filepath : string) (exists_after : bool) (d : t) : t :=
  if exists_after then with_files ({[ filepath ]} ∪ files d) d
  else with_files (files d ∖ {[ filepath ]}) d.

(** The end of the [try] block, once a stream URL is known: the URL is made
    absolute, then remuxed (a manifest) or streamed to the target. *)
Definition fetch_to_file (net : Net) (d : t) (video_info : VideoInfo)
    (filepath download_url : string) : bool * t :=
  let download_url :=
    if Py.starts_with "http" download_url then download_url
    else Config.base_url ++ download_url in
  let n := List.length (fetched d) in
  if Py.contains ".m3u8" download_url then
    let d := record_fetch (Remux download_url) d in
    match ffmpeg net n download_url with
    | ExitZero =>
        (true, mark_downloaded (video_id video_info) (set_file filepath true d))
    | ExitNonZero file_after => (false, set_file filepath file_after d)
    | TimeoutExpired file_after => (false, set_file filepath file_after d)
    | CannotRun => (false, clean_up filepath d)
    end
  else
    let d := record_fetch (HttpStream download_url) d in
    if http_stream net n download_url then
      (true, mark_downloaded (video_id video_info) (set_file filepath true d))
    else (false, clean_up filepath d).

(** The URL of the record when it has one, the one of its page otherwise. *)
Definition resolve_download_url (net : Net) (d : t) (video_info : VideoInfo)
  : option string * t :=
  match Auth.present (download_url video_info) with
  | Some u => (Some u, d)
  | None => get_video_download_url net d (url video_info)
  end.

Definition download_video (net : Net) (d : t) (video_info : VideoInfo)
    (skip_existing : bool) : bool * t :=
  if skip_existing && bool_decide (video_id video_info ∈ downloaded_ids d)
  then (true, d)
  else
    let filepath := target_path d video_info in
    if bool_decide (filepath ∈ files d) && skip_existing
    then (true, mark_downloaded (video_id video_info) d)
    else
      let '(download_url, d) := resolve_download_url net d video_info in
      match Auth.present download_url with
      | None => (false, d)
      | Some download_url => fetch_to_file net d video_info filepath download_url
      end.

Record Stats : Type := {
  total : Z;
  success : Z;
  failed : Z;
  skipped : Z
}.

Definition count_skipped (s : Stats) : Stats :=
  {| total := total s; success := success s; failed := failed s;
     skipped := skipped s + 1 |}.

Definition count_success (s : Stats) : Stats :=
  {| total := total s; success := success s + 1; failed := failed s;
     skipped := skipped s |}.

Definition count_failed (s : Stats) : Stats :=
  {| total := total s; success := success s; failed := failed s + 1;
     skipped := skipped s |}.

(** The [for] loop of [download_videos]. *)
Fixpoint download_each (net : Net) (d : t) (videos : list VideoInfo)
    (skip_existing : bool) (stats : Stats) : Stats * t :=
  match videos with
  | [] => (stats, d)
  | video :: rest =>
      if skip_existing && bool_decide (video_id video ∈ downloaded_ids d)
      then download_each net d rest skip_existing (count_skipped stats)
      else
        let '(ok, d) := download_video net d video skip_existing in
        download_each net d rest skip_existing
          (if ok then count_success stats else count_failed stats)
  end.

Definition download_videos (net : Net) (d : t) (videos : list VideoInfo)
    (skip_existing : bool) : Stats * t :=
  let stats := {| total := Z.of_nat (List.length videos);
                  success := 0; failed := 0; skipped := 0 |} in
  download_each net d videos skip_existing stats.

End Downloader.

(** ** src/downloader.py: a new [VideoDownloader] *)

Module History.

(** [_load_download_history]: the ids in the ledger file, or the empty set
    when there is no file (or none that can be read). *)
Definition load_download_history (history_file : option (gset string)) : gset string :=
  match history_file with
  | Some ids => ids
  | None => ∅
  end.

(** [VideoDownloader(client, output_dir)] on a directory with the given
    ledger file and media files. *)
Definition new (client : Client.t) (output_dir : string)
    (history_file : option (gset string)) (files : gset string) : Downloader.t :=
  {| Downloader.client := client;
     Downloader.output_dir := output_dir;
     Downloader.downloaded_ids := load_download_history history_file;
     Downloader.history_file := history_file;
     Downloader.files := files;
     Downloader.fetched := [] |}.

End History.

(** ** src/cli.py *)

Module Cli.

Import Search.

(** How a command ends: [sys.exit(1)] after an exception, a return before
    the download (nothing found, or list-only mode), or the return after
    [download_videos]. *)
Inductive Outcome : Type :=
| Failed (client : Client.t)
| Listed (client : Client.t) (videos : list VideoInfo)
| Downloaded (videos : list VideoInfo) (stats : Downloader.Stats) (d : Downloader.t).

(** The end of both commands, once the list is there. [history_file] and
    [files] are what the output directory holds when the downloader is
    made. *)
Definition list_and_download (net : Downloader.Net) (client : Client.t)
    (videos : list VideoInfo) (no_download force : bool) (output_dir : string)
    (history_file : option (gset string)) (files : gset string) : Outcome :=
  match videos with
  | [] => Listed client []
  | _ =>
      if no_download then Listed client videos
      else
        let downloader := History.new client output_dir history_file files in
        let '(stats, downloader) :=
          Downloader.download_videos net downloader videos (negb force) in
        Downloaded videos stats downloader
  end.

(** The [search] command. [username] and [password] are the credentials as
    [authenticate] resolves them; [None] when [fuel] pages were fetched and
    the listing has not ended. *)
Definition search (fuel : nat) (net : Downloader.Net) (query : string)
    (min_duration : Z) (limit : option Z) (output_dir : string)
    (username password : option string) (no_download force : bool)
    (history_file : option (gset string)) (files : gset string) : option Outcome :=
  match Auth.authenticate (Downloader.site net) Client.new username password with
  | (Raise _, client) => Some (Failed client)
  | (Ok _, client) =>
      match search_videos fuel (Downloader.site net) client query min_duration limit 1 with
      | None => None
      | Some (Raise _, client) => Some (Failed client)
      | Some (Ok videos, client) =>
          Some (list_and_download net client videos no_download force output_dir
                  history_file files)
      end
  end.

(** The [profile] command. *)
Definition profile (fuel : nat) (net : Downloader.Net) (profile_identifier : string)
    (min_duration : Z) (limit : option Z) (output_dir : string)
    (username password : option string) (no_download force : bool)
    (history_file : option (gset string)) (files : gset string) : option Outcome :=
  match Auth.authenticate (Downloader.site net) Client.new username password with
  | (Raise _, client) => Some (Failed client)
  | (Ok _, client) =>
      match Profile.get_profile_videos fuel (Downloader.site net) client
              profile_identifier min_duration limit with
      | None => None
      | Some (Raise _, client) => Some (Failed client)
      | Some (Ok videos, client) =>
          Some (list_and_download net client videos no_download force output_dir
                  history_file files)
      end
  end.

End Cli.

(** * Vocabulary of the properties *)

(** What is asked of a file name, for a length bound [m]: none of the nine
    forbidden characters, no dot or space at either end, at most [m]
    characters, not empty. *)
Definition safe_name (m : Z) (r : string) : Prop :=
  Py.any_char Utils.invalid_char r = false /\
  (forall c, Py.first_char r = Some c -> Utils.dot_or_space c = false) /\
  (forall c, Py.last_char r = Some c -> Utils.dot_or_space c = false) /\
  Py.len r <= m /\
  r <> EmptyString.

(** [sep.join(parts)] for a one-character separator. *)
Fixpoint join_with (sep : ascii) (parts : list string) : string :=
  match parts with
  | [] => EmptyString
  | [a] => a
  | a :: rest => a ++ String sep (join_with sep rest)
  end.

(** The duration formats as the specification words them. *)
Module DurationGrammar.

(** A field: one or more decimal digits. *)
Definition digits (d : string) : bool :=
  Py.truthy d && Py.all_chars Py.isdecimal d.

Fixpoint value_from (acc : Z) (d : string) : Z :=
  match d with
  | EmptyString => acc
  | String c r => value_from (10 * acc + Py.digit_value c) r
  end.

Definition value (d : string) : Z := value_from 0 d.

(** An optional shorthand unit: digits followed by the unit letter. *)
Definition unit_text (o : option string) (u : ascii) : string :=
  match o with
  | Some d => d ++ String u EmptyString
  | None => EmptyString
  end.

Definition unit_ok (o : option string) : bool :=
  match o with
  | Some d => digits d
  | None => true
  end.

Definition unit_value (o : option string) : Z :=
  match o with
  | Some d => value d
  | None => 0
  end.

Definition some_unit (h m s : option string) : bool :=
  match h, m, s with
  | None, None, None => false
  | _, _, _ => true
  end.

Inductive accepts : string -> Z -> Prop :=
| plain_seconds (d : string) :
    digits d = true -> accepts d (value d)
| minutes_seconds (m s : string) :
    digits m = true -> digits s = true ->
    accepts (m ++ ":" ++ s) (value m * 60 + value s)
| hours_minutes_seconds (h m s : string) :
    digits h = true -> digits m = true -> digits s = true ->
    accepts (h ++ ":" ++ m ++ ":" ++ s) (value h * 3600 + value m * 60 + value s)
| shorthand (h m s : option string) :
    unit_ok h = true -> unit_ok m = true -> unit_ok s = true ->
    some_unit h m s = true ->
    accepts (unit_text h "h" ++ unit_text m "m" ++ unit_text s "s")
            (unit_value h * 3600 + unit_value m * 60 + unit_value s).

(** Characters an integer literal may carry besides its digits: blanks,
    signs and the digit-group underscore. *)
Definition literal_extra (c : ascii) : bool :=
  Py.isspace c || Ascii.eqb c "+" || Ascii.eqb c "-" || Ascii.eqb c "_".

(** A text without any of them. *)
Definition plain (t : string) : bool := negb (Py.any_char literal_extra t).

End DurationGrammar.

(** A text that holds a minus sign. *)
Definition has_minus (s : string) : bool :=
  Py.any_char (fun c => Ascii.eqb c "-") s.

(** The text of an optional field, empty when it is absent. *)
Definition text_of (field : option string) : string :=
  match field with
  | Some t => t
  | None => EmptyString
  end.

(** The listings, seen from outside. *)
Module Listing.

Import Search.

(** The record an entry of the payload gives, if any. *)
Definition of_data (video_data : VideoData) : list VideoInfo :=
  match video_info_of_data video_data with
  | Ok v => [v]
  | Raise _ => []
  end.

(** The record a card gives, if any. *)
Definition of_element (element : Element) : list VideoInfo :=
  match Search.parse_video_element element Config.base_url with
  | Some v => [v]
  | None => []
  end.

(** The records behind a page of each listing, before the filter. *)
Definition of_stories (stories : list Story) : list VideoInfo :=
  flat_map (fun story => flat_map of_data (story_videos story)) stories.

Definition of_elements (elements : list Element) : list VideoInfo :=
  flat_map of_element elements.

(** The records that pass the minimum-duration filter. *)
Definition passing (min_duration : Z) (records : list VideoInfo) : list VideoInfo :=
  List.filter (fun v => negb (filtered_out min_duration v)) records.

(** The walk over the records of a page, whichever listing they are from. *)
Fixpoint scan_records (min_duration : Z) (limit : option Z)
    (videos page_videos records : list VideoInfo) : Scan :=
  match records with
  | [] => Scanned page_videos
  | video_info :: rest =>
      match keep min_duration limit videos page_videos video_info with
      | Scanned page_videos => scan_records min_duration limit videos page_videos rest
      | stop => stop
      end
  end.

(** How many pages are fetched under a limit [N]: [count] records are
    held already, the pages ahead add [sizes] records each, and the page
    after them ends the listing. Reading stops at the page where the count
    reaches [N]. *)
Fixpoint pages_read (N count : Z) (sizes : list Z) : nat :=
  match sizes with
  | [] => 1
  | size :: rest =>
      if count + size >=? N then 1%nat
      else S (pages_read N (count + size) rest)
  end.

Definition size_of (records : list VideoInfo) : Z := Z.of_nat (List.length records).

(** A search page without stories. *)
Definition no_stories (page : Page) : Prop :=
  match video_search_stories page with
  | Props (_ :: _) => False
  | _ => True
  end.

(** The site answers the requests for the result pages [current_page],
    [current_page + 1], ... of a query, sent as requests number [n],
    [n + 1], ..., with pages holding the given stories, and then with
    [last]. *)
Fixpoint serves_search (site : Client.Site) (query : string) (n : nat)
    (current_page : Z) (pages : list (list Story)) (last : Page) : Prop :=
  match pages with
  | [] => site n (Client.GET (search_url query current_page)) = Some last
  | stories :: rest =>
      (exists page,
          site n (Client.GET (search_url query current_page)) = Some page /\
          video_search_stories page = Props stories) /\
      stories <> [] /\
      serves_search site query (S n) (current_page + 1) rest last
  end.

(** The records of a profile page that pass the filter. *)
Definition page_passing (min_duration : Z) (page : Page) : list VideoInfo :=
  passing min_duration (of_elements (Profile.video_elements page)).

(** A profile page after which the listing goes on: it shows a record that
    passes the filter, and a link to the next page. *)
Definition goes_on (min_duration : Z) (page : Page) : Prop :=
  page_passing min_duration page <> [] /\ next_link page = true.

(** A profile page at which the listing ends: no card, no record that
    passes the filter, or no link to a next page. *)
Definition ends (min_duration : Z) (page : Page) : Prop :=
  page_passing min_duration page = [] \/ next_link page = false.

Fixpoint serves_profile (site : Client.Site) (user_id : string) (n : nat)
    (page_number : Z) (min_duration : Z) (pages : list Page) (last : Page) : Prop :=
  match pages with
  | [] => site n (Client.GET (Profile.videos_url user_id page_number)) = Some last
  | page :: rest =>
      site n (Client.GET (Profile.videos_url user_id page_number)) = Some page /\
      goes_on min_duration page /\
      serves_profile site user_id (S n) (page_number + 1) min_duration rest last
  end.

End Listing.

(** Concrete pages, sites and records, used to run the program. *)
Module Sample.

Import Search.

(** A page on which every query of the program comes back empty. *)
Definition blank_page : Page :=
  {| status_code := 200;
     final_url := "https://fetlife.com/login";
     text := "<html><body>Down for maintenance</body></html>";
     video_search_stories := NoComponent;
     video_stories_gallery := NoComponent;
     video_cards := [];
     articles := [];
     media := [];
     next_link := false;
     meta_csrf_content := None;
     input_csrf_value := None;
     user_link_href := fun _ => None;
     error_text := None |}.

Definition blank_site : Client.Site := fun _ _ => Some blank_page.

Definition logged_in : Client.t :=
  {| Client.sent := []; Client.csrf_token := Some "tok"; Client.authenticated := true |}.

Definition video (id : string) (direct : option string) : VideoInfo :=
  {| video_id := id;
     title := "Clip " ++ id;
     url := "https://fetlife.com/bob/videos/" ++ id;
     uploader := "bob";
     uploader_id := "0";
     duration := 95;
     thumbnail_url := None;
     upload_date := None;
     download_url := direct |}.

(** A network on which every stream fetch fails, and one on which every
    stream fetch succeeds; the site has blank pages only. *)
Definition failing_net : Downloader.Net :=
  {| Downloader.site := blank_site;
     Downloader.http_stream := fun _ _ => false;
     Downloader.ffmpeg := fun _ _ => Downloader.CannotRun |}.

Definition working_net : Downloader.Net :=
  {| Downloader.site := blank_site;
     Downloader.http_stream := fun _ _ => true;
     Downloader.ffmpeg := fun _ _ => Downloader.ExitZero |}.

(** An entry of the embedded payload that carries no id. *)
Definition entry_without_id : VideoData :=
  {| vd_id := None;
     vd_path := Some "/bob/videos/41";
     vd_formattedTitle := Some "Clip";
     vd_durationString := Some "1:05";
     vd_sources := [];
     vd_screencapSrc := None;
     vd_createdAt := None |}.

Definition entry (id : Z) (duration_string : string) : VideoData :=
  {| vd_id := Some (JInt id);
     vd_path := Some ("/bob/videos/" ++ Py.str_of_int id);
     vd_formattedTitle := None;
     vd_durationString := Some duration_string;
     vd_sources := [{| src := Some ("/media/" ++ Py.str_of_int id ++ ".m3u8") |}];
     vd_screencapSrc := None;
     vd_createdAt := None |}.

Definition search_page (stories : list Story) : Page :=
  {| status_code := 200;
     final_url := "https://fetlife.com/search/videos";
     text := EmptyString;
     video_search_stories := Props stories;
     video_stories_gallery := NoComponent;
     video_cards := [];
     articles := [];
     media := [];
     next_link := false;
     meta_csrf_content := None;
     input_csrf_value := None;
     user_link_href := fun _ => None;
     error_text := None |}.

(** A video card with the given id and duration label. *)
Definition card (id duration_label : string) : Element :=
  {| video_link := Some {| href := "/videos/" ++ id; anchor_text := "Clip " ++ id |};
     h3_text := None;
     h2_text := None;
     uploader_link := Some {| href := "/users/9"; anchor_text := "bob" |};
     duration_by_class := Some duration_label;
     duration_by_string := None;
     img := None;
     time_elem := None;
     date_by_class := None |}.

Definition profile_page (cards : list Element) (next : bool) : Page :=
  {| status_code := 200;
     final_url := "https://fetlife.com/users/9/videos";
     text := EmptyString;
     video_search_stories := NoComponent;
     video_stories_gallery := NoComponent;
     video_cards := cards;
     articles := [];
     media := [];
     next_link := next;
     meta_csrf_content := None;
     input_csrf_value := None;
     user_link_href := fun _ => None;
     error_text := None |}.

(** A site that answers the first requests with the given pages, in order,
    and every later one with a blank page. *)
Definition site_of (pages : list Page) : Client.Site :=
  fun n _ => Some (nth n pages blank_page).

(** A profile of two pages: the only card of the first page lasts 30
    seconds, the only card of the second lasts five minutes. *)
Definition short_then_long : list Page :=
  [profile_page [card "1" "0:30"] true; profile_page [card "2" "5:00"] false].

(** Search results on two pages of two entries each. *)
Definition two_by_two : list (list Story) :=
  [[{| story_videos := [entry 11 "2:00"; entry 12 "3:00"] |}];
   [{| story_videos := [entry 13 "4:00"] |}; {| story_videos := [entry 14 "5:00"] |}]].

Definition fresh_downloader : Downloader.t :=
  {| Downloader.client := logged_in;
     Downloader.output_dir := "./downloads";
     Downloader.downloaded_ids := ∅;
     Downloader.history_file := None;
     Downloader.files := ∅;
     Downloader.fetched := [] |}.

End Sample.

(** ** Names as the substitutions of [sanitize_filename] leave them *)

(** The test of the character filter, [ord(char) >= 32]. *)
Definition printable (c : ascii) : bool := (32 <=? Py.ord c)%N.

(** No character below U+0020, no blank, and no underscore right after an
    underscore; [after_underscore] tells that the character before [s] was
    an underscore. *)
Fixpoint collapsed (after_underscore : bool) (s : string) : bool :=
  match s with
  | EmptyString => true
  | String c r =>
      printable c && negb (Py.isspace c) &&
      (if Ascii.eqb c "_" then negb after_underscore && collapsed true r
       else collapsed false r)
  end.

(** ** A token in the text of a page *)

(** The token stands in [s] between two quote characters. *)
Definition quoted (w : string) (s : string) : Prop :=
  exists q q', Auth.is_quote q = true /\ Auth.is_quote q' = true /\
    Py.contains (String q (w ++ String q' EmptyString)) s = true.

(** A non-empty run of word characters and hyphens. *)
Definition token_shape (w : string) : Prop :=
  w <> EmptyString /\ Py.all_chars Auth.word_or_hyphen w = true.

(** ** Further sample data *)

Module Scenario.

(** A login page whose token is in a script only: there is no meta tag and
    the hidden input has an empty value. *)
Definition script_login_page : Page :=
  {| status_code := 200;
     final_url := Config.login_url;
     text := "<script>window.csrf_token: 'abc-123';</script>";
     video_search_stories := NoComponent;
     video_stories_gallery := NoComponent;
     video_cards := [];
     articles := [];
     media := [];
     next_link := false;
     meta_csrf_content := None;
     input_csrf_value := Some EmptyString;
     user_link_href := fun _ => None;
     error_text := None |}.

(** The page a successful login is redirected to. *)
Definition home_page : Page :=
  {| status_code := 200;
     final_url := "https://fetlife.com/home";
     text := EmptyString;
     video_search_stories := NoComponent;
     video_stories_gallery := NoComponent;
     video_cards := [];
     articles := [];
     media := [];
     next_link := false;
     meta_csrf_content := None;
     input_csrf_value := None;
     user_link_href := fun _ => None;
     error_text := None |}.

(** A site that serves the login page to a GET and the home page to a
    POST. *)
Definition login_site : Client.Site :=
  fun _ r =>
    match r with
    | Client.GET _ => Some script_login_page
    | Client.POST _ _ => Some home_page
    end.

(** A network on which ffmpeg exits with an error and leaves its output
    file behind. *)
Definition leaky_net : Downloader.Net :=
  {| Downloader.site := Sample.blank_site;
     Downloader.http_stream := fun _ _ => false;
     Downloader.ffmpeg := fun _ _ => Downloader.ExitNonZero true |}.

(** A session: the login page, the home page after the form, one page of
    search results, then blank pages; every stream fetch succeeds. *)
Definition session_net : Downloader.Net :=
  {| Downloader.site :=
       fun n _ =>
         Some (nth n [script_login_page; home_page;
                      Sample.search_page
                        [{| story_videos := [Sample.entry 11 "2:00";
                                             Sample.entry 12 "0:30";
                                             Sample.entry 13 "4:00"] |}]]
                 Sample.blank_page);
     Downloader.http_stream := fun _ _ => true;
     Downloader.ffmpeg := fun _ _ => Downloader.ExitZero |}.

End Scenario.

(** ** What a listing may return *)

(** The record passes the minimum-duration filter. *)
Definition passes (min_duration : Z) (v : Search.VideoInfo) : Prop :=
  Search.filtered_out min_duration v = false.

(** The list respects the limit, when there is a positive one. *)
Definition within (limit : option Z) (videos : list Search.VideoInfo) : Prop :=
  forall N, limit = Some N -> 0 < N -> Z.of_nat (List.length videos) <= N.

(** The list has not reached the limit yet. *)
Definition room (limit : option Z) (videos : list Search.VideoInfo) : Prop :=
  forall N, limit = Some N -> 0 < N -> Z.of_nat (List.length videos) < N.

(** No limit: [None], or the 0 that the test [if limit and ...] reads as
    false. *)
Definition unlimited (limit : option Z) : Prop := limit = None \/ limit = Some 0.

(** ** Paths *)

(** The path separator. *)
Definition is_slash (c : ascii) : bool := Ascii.eqb c "/".

(** ** Requests *)

(** The address a request goes to. *)
Definition request_url (r : Client.Request) : string :=
  match r with
  | Client.GET url => url
  | Client.POST url _ => url
  end.

(** The requests for [k] pages in a row, from page [first] on. *)
Fixpoint page_requests (url_of : Z -> string) (first : Z) (k : nat)
  : list Client.Request :=
  match k with
  | O => []
  | S k => Client.GET (url_of first) :: page_requests url_of (first + 1) k
  end.

(** * Properties *)

(** ** Strings *)

Lemma append_cons (x : ascii) (a b : string) : String x a ++ b = String x (a ++ b).
Proof. reflexivity. Qed.

Lemma append_nil_l (a : string) : EmptyString ++ a = a.
Proof. reflexivity. Qed.

Lemma append_assoc (a b c : string) : (a ++ b) ++ c = a ++ (b ++ c).
Proof.
  induction a as [|x a IH]; [reflexivity|].
  rewrite !append_cons, IH. reflexivity.
Qed.

Lemma append_nil_r (a : string) : a ++ EmptyString = a.
Proof.
  induction a as [|x a IH]; [reflexivity|].
  rewrite append_cons, IH. reflexivity.
Qed.

Section StringFacts.

Variable p : ascii -> bool.

Lemma any_char_app (a b : string) :
  Py.any_char p (a ++ b) = Py.any_char p a || Py.any_char p b.
Proof.
  induction a as [|c a IH]; simpl; [reflexivity|].
  rewrite IH. apply orb_assoc.
Qed.

Lemma any_char_lstrip (q : ascii -> bool) (s : string) :
  Py.any_char p s = false -> Py.any_char p (Py.lstrip_by q s) = false.
Proof.
  induction s as [|c s IH]; simpl; intros H; [reflexivity|].
  apply orb_false_iff in H as [Hc Hs].
  destruct (q c); [auto|]. simpl. rewrite Hc, Hs. reflexivity.
Qed.

Lemma any_char_rstrip (q : ascii -> bool) (s : string) :
  Py.any_char p s = false -> Py.any_char p (Py.rstrip_by q s) = false.
Proof.
  induction s as [|c s IH]; simpl; intros H; [reflexivity|].
  apply orb_false_iff in H as [Hc Hs]. specialize (IH Hs).
  destruct (Py.rstrip_by q s) as [|d t].
  - destruct (q c); simpl; [reflexivity|]. rewrite Hc. reflexivity.
  - change (Py.any_char p (String c (String d t))) with
      (p c || Py.any_char p (String d t)).
    rewrite Hc, IH. reflexivity.
Qed.

Lemma any_char_take (n : nat) (s : string) :
  Py.any_char p s = false -> Py.any_char p (Py.take n s) = false.
Proof.
  revert s. induction n as [|n IH]; intros [|c s]; simpl; auto.
  intros H. apply orb_false_iff in H as [Hc Hs].
  rewrite Hc, (IH s Hs). reflexivity.
Qed.

Lemma any_char_filter (q : ascii -> bool) (s : string) :
  Py.any_char p s = false -> Py.any_char p (Utils.filter_chars q s) = false.
Proof.
  induction s as [|c s IH]; simpl; intros H; [reflexivity|].
  apply orb_false_iff in H as [Hc Hs].
  destruct (q c); simpl; [rewrite Hc|]; auto.
Qed.

Lemma first_char_lstrip (s : string) (c : ascii) :
  Py.first_char (Py.lstrip_by p s) = Some c -> p c = false.
Proof.
  induction s as [|d s IH]; simpl; [discriminate|].
  destruct (p d) eqn:E; [exact IH|].
  simpl. intros [= <-]. exact E.
Qed.

Lemma first_char_rstrip (s : string) (c : ascii) :
  Py.first_char (Py.rstrip_by p s) = Some c -> Py.first_char s = Some c.
Proof.
  destruct s as [|d s]; simpl; [discriminate|].
  destruct (Py.rstrip_by p s); [destruct (p d)|]; simpl; congruence.
Qed.

Lemma last_char_rstrip (s : string) (c : ascii) :
  Py.last_char (Py.rstrip_by p s) = Some c -> p c = false.
Proof.
  induction s as [|d s IH]; simpl; [discriminate|].
  destruct (Py.rstrip_by p s) as [|e t].
  - destruct (p d) eqn:E; simpl; [discriminate|]. intros [= <-]. exact E.
  - intros H. apply IH. exact H.
Qed.

Lemma length_rstrip (s : string) :
  (String.length (Py.rstrip_by p s) <= String.length s)%nat.
Proof.
  induction s as [|d s IH]; simpl; [lia|].
  destruct (Py.rstrip_by p s) as [|e t].
  - destruct (p d); simpl; lia.
  - simpl in *. lia.
Qed.

Lemma length_take (n : nat) (s : string) :
  (String.length (Py.take n s) <= n)%nat.
Proof.
  revert s. induction n as [|n IH]; intros [|c s]; simpl; try lia.
  specialize (IH s). lia.
Qed.

Lemma first_char_take (n : nat) (s : string) (c : ascii) :
  Py.first_char (Py.take n s) = Some c -> Py.first_char s = Some c.
Proof. destruct n, s; simpl; congruence. Qed.

End StringFacts.

(** ** Integer literals *)

Section IntLiterals.

Import DurationGrammar.

Lemma isdecimal_not_extra (c : ascii) :
  Py.isdecimal c = true -> literal_extra c = false.
Proof. destruct c as [[] [] [] [] [] [] [] []]; vm_compute; congruence. Qed.

Lemma isdecimal_isdigit_char (c : ascii) :
  Py.isdecimal c = true -> Py.isdigit_char c = true.
Proof. unfold Py.isdigit_char. intros ->. reflexivity. Qed.

Lemma isspace_int_extra (c : ascii) :
  literal_extra c = false -> Py.isspace_int c = false.
Proof. destruct c as [[] [] [] [] [] [] [] []]; vm_compute; congruence. Qed.

Lemma isspace_extra (c : ascii) :
  literal_extra c = false -> Py.isspace c = false.
Proof.
  unfold literal_extra. intros H.
  do 3 (apply orb_false_iff in H as [H _]). exact H.
Qed.

Lemma extra_not_underscore (c : ascii) :
  literal_extra c = false -> Ascii.eqb c "_" = false.
Proof. unfold literal_extra. intros H. apply orb_false_iff in H as [_ H]. exact H. Qed.

Lemma extra_not_sign (c : ascii) :
  literal_extra c = false -> Ascii.eqb c "-" = false /\ Ascii.eqb c "+" = false.
Proof.
  unfold literal_extra. intros H.
  apply orb_false_iff in H as [H _]. apply orb_false_iff in H as [H Hm].
  apply orb_false_iff in H as [_ Hp]. split; assumption.
Qed.

Lemma rstrip_by_id (q : ascii -> bool) (s : string) :
  Py.any_char q s = false -> Py.rstrip_by q s = s.
Proof.
  induction s as [|c s IH]; simpl; intros H; [reflexivity|].
  apply orb_false_iff in H as [Hc Hs]. rewrite (IH Hs).
  destruct s; [rewrite Hc|]; reflexivity.
Qed.

Lemma lstrip_by_id (q : ascii -> bool) (s : string) :
  Py.any_char q s = false -> Py.lstrip_by q s = s.
Proof.
  destruct s as [|c s]; simpl; intros H; [reflexivity|].
  apply orb_false_iff in H as [-> _]. reflexivity.
Qed.

Lemma strip_by_id (q : ascii -> bool) (s : string) :
  Py.any_char q s = false -> Py.strip_by q s = s.
Proof.
  intros H. unfold Py.strip_by. rewrite (lstrip_by_id q s H). apply rstrip_by_id, H.
Qed.

Lemma any_char_weaken (q q' : ascii -> bool) (s : string) :
  (forall c, q c = false -> q' c = false) ->
  Py.any_char q s = false -> Py.any_char q' s = false.
Proof.
  intros Hq. induction s as [|c s IH]; simpl; intros H; [reflexivity|].
  apply orb_false_iff in H as [Hc Hs]. rewrite (Hq c Hc), (IH Hs). reflexivity.
Qed.

Lemma digits_plain (d : string) :
  Py.all_chars Py.isdecimal d = true -> Py.any_char literal_extra d = false.
Proof.
  induction d as [|c d IH]; simpl; intros H; [reflexivity|].
  apply andb_true_iff in H as [Hc Hd].
  rewrite (isdecimal_not_extra c Hc), (IH Hd). reflexivity.
Qed.

Lemma int_body_digits (st : Py.lit_state) (acc : Z) (d : string) :
  Py.all_chars Py.isdecimal d = true ->
  d <> EmptyString \/ st = Py.AfterDigit ->
  Py.int_body st acc d = Some (value_from acc d).
Proof.
  revert st acc. induction d as [|c d IH]; simpl; intros st acc H Hne.
  - destruct Hne as [Hne | ->]; [congruence | reflexivity].
  - apply andb_true_iff in H as [Hc Hd]. rewrite Hc.
    apply IH; [exact Hd | right; reflexivity].
Qed.

Lemma int_body_plain (st : Py.lit_state) (acc : Z) (t : string) (n : Z) :
  Py.int_body st acc t = Some n ->
  Py.any_char literal_extra t = false ->
  Py.all_chars Py.isdecimal t = true /\ n = value_from acc t /\
  (t <> EmptyString \/ st = Py.AfterDigit).
Proof.
  revert st acc. induction t as [|c t IH]; simpl; intros st acc H Hp.
  - destruct st; try discriminate. injection H as <-. auto.
  - apply orb_false_iff in Hp as [Hc Ht].
    destruct (Py.isdecimal c) eqn:E.
    + destruct (IH _ _ H Ht) as (A & B & _).
      split; [exact A|]. split; [exact B | left; discriminate].
    + rewrite (extra_not_underscore c Hc) in H. discriminate.
Qed.

Lemma split_sign_plain (t : string) :
  Py.any_char literal_extra t = false -> Py.split_sign t = (false, t).
Proof.
  destruct t as [|c t]; simpl; intros H; [reflexivity|].
  apply orb_false_iff in H as [Hc _].
  destruct (extra_not_sign c Hc) as [-> ->]. reflexivity.
Qed.

Lemma int_of_plain (t : string) :
  Py.any_char literal_extra t = false ->
  Py.int t = match Py.int_body Py.AtStart 0 t with
             | Some n => Ok n
             | None => Raise ValueError
             end.
Proof.
  intros H. unfold Py.int.
  rewrite (strip_by_id Py.isspace_int t
             (any_char_weaken _ _ t isspace_int_extra H)).
  rewrite (split_sign_plain t H). reflexivity.
Qed.

Lemma digits_inv (d : string) :
  digits d = true -> d <> EmptyString /\ Py.all_chars Py.isdecimal d = true.
Proof.
  unfold digits. intros H. apply andb_true_iff in H as [Ht Ha].
  split; [destruct d; [discriminate | congruence] | exact Ha].
Qed.

Lemma int_digits (d : string) : digits d = true -> Py.int d = Ok (value d).
Proof.
  intros H. destruct (digits_inv d H) as [Hne Ha].
  rewrite (int_of_plain d (digits_plain d Ha)).
  rewrite (int_body_digits Py.AtStart 0 d Ha (or_introl Hne)). reflexivity.
Qed.

Lemma int_plain_inv (t : string) (n : Z) :
  Py.int t = Ok n -> Py.any_char literal_extra t = false ->
  digits t = true /\ n = value t.
Proof.
  intros H Hp. rewrite (int_of_plain t Hp) in H.
  destruct (Py.int_body Py.AtStart 0 t) as [k|] eqn:E; [|discriminate].
  injection H as <-.
  destruct (int_body_plain _ _ _ _ E Hp) as (A & B & [C | C]); [|discriminate].
  split; [|exact B]. unfold digits. rewrite A.
  destruct t; [congruence | reflexivity].
Qed.

Lemma int_raises_only_value_error (t : string) (e : pyexc) :
  Py.int t = Raise e -> e = ValueError.
Proof.
  unfold Py.int. destruct (Py.split_sign _) as [neg body].
  destruct (Py.int_body _ _ _); congruence.
Qed.

End IntLiterals.

(** ** Splitting and spans *)

Section SplitAndSpan.

Lemma split_nonempty (sep : ascii) (s : string) : Py.split sep s <> [].
Proof.
  destruct s as [|c s]; simpl; [discriminate|].
  destruct (Ascii.eqb c sep); [discriminate|].
  destruct (Py.split sep s); discriminate.
Qed.

Lemma join_split (sep : ascii) (s : string) : join_with sep (Py.split sep s) = s.
Proof.
  induction s as [|c s IH]; [reflexivity|]. simpl.
  pose proof (split_nonempty sep s) as Hne.
  destruct (Ascii.eqb c sep) eqn:E.
  - apply Ascii.eqb_eq in E as ->.
    destruct (Py.split sep s) as [|w ws]; [congruence|].
    simpl in *. rewrite IH. reflexivity.
  - destruct (Py.split sep s) as [|w ws]; [congruence|].
    destruct ws; simpl in *; rewrite <- IH; reflexivity.
Qed.

Lemma split_pieces (q : ascii -> bool) (sep : ascii) (s : string) :
  Py.any_char q s = false ->
  Forall (fun w => Py.any_char q w = false) (Py.split sep s).
Proof.
  induction s as [|c s IH]; simpl; intros H.
  - constructor; [reflexivity | constructor].
  - apply orb_false_iff in H as [Hc Hs]. specialize (IH Hs).
    destruct (Ascii.eqb c sep).
    + constructor; [reflexivity | exact IH].
    + destruct (Py.split sep s) as [|w ws].
      * constructor; [simpl; rewrite Hc; reflexivity | constructor].
      * inversion IH; subst. constructor; [simpl; rewrite Hc; assumption | assumption].
Qed.

Lemma split_without (sep : ascii) (a : string) :
  Py.any_char (fun c => Ascii.eqb c sep) a = false -> Py.split sep a = [a].
Proof.
  induction a as [|c a IH]; simpl; intros H; [reflexivity|].
  apply orb_false_iff in H as [-> Ha]. rewrite (IH Ha). reflexivity.
Qed.

Lemma split_at_first (sep : ascii) (a b : string) :
  Py.any_char (fun c => Ascii.eqb c sep) a = false ->
  Py.split sep (a ++ String sep b) = a :: Py.split sep b.
Proof.
  induction a as [|c a IH]; simpl; intros H.
  - rewrite Ascii.eqb_refl. reflexivity.
  - apply orb_false_iff in H as [-> Ha]. rewrite (IH Ha). reflexivity.
Qed.

Variable p : ascii -> bool.

Lemma span_inv (s a b : string) :
  Py.span p s = (a, b) ->
  s = a ++ b /\ Py.all_chars p a = true /\
  (forall c, Py.first_char b = Some c -> p c = false).
Proof.
  revert a b. induction s as [|c s IH]; simpl; intros a b H.
  - injection H as <- <-. repeat split. discriminate.
  - destruct (p c) eqn:E.
    + destruct (Py.span p s) as [a' b']. injection H as <- <-.
      destruct (IH a' b' eq_refl) as (-> & A & B).
      split; [reflexivity|]. split; [simpl; rewrite E; exact A | exact B].
    + injection H as <- <-. split; [reflexivity|]. split; [reflexivity|].
      intros d [= <-]. exact E.
Qed.

Lemma span_prefix (d rest : string) :
  Py.all_chars p d = true ->
  (forall c, Py.first_char rest = Some c -> p c = false) ->
  Py.span p (d ++ rest) = (d, rest).
Proof.
  intros Hd Hr. induction d as [|c d IH]; simpl in *.
  - destruct rest as [|c r]; [reflexivity|]. simpl.
    rewrite (Hr c eq_refl). reflexivity.
  - apply andb_true_iff in Hd as [-> Hd]. rewrite (IH Hd). reflexivity.
Qed.

End SplitAndSpan.

(** ** src/utils.py: parse_duration *)

Section ParseDuration.

Import Utils DurationGrammar.

Lemma take_unit_inv (u : ascii) (s : string) (o : option string) (r : string) :
  take_unit u s = (o, r) ->
  match o with
  | Some d => digits d = true /\ s = d ++ String u r
  | None => r = s
  end.
Proof.
  unfold take_unit. destruct (Py.span Py.isdecimal s) as [ds rest] eqn:E.
  apply span_inv in E as (-> & A & _).
  destruct ds as [|c ds]; [intros [= <- <-]; reflexivity|].
  destruct rest as [|c' rest]; [intros [= <- <-]; reflexivity|].
  destruct (Ascii.eqb c' u) eqn:Eu; intros [= <- <-]; [|reflexivity].
  apply Ascii.eqb_eq in Eu as ->. split; [|reflexivity].
  unfold digits. rewrite A. reflexivity.
Qed.

Lemma take_unit_hit (u : ascii) (d rest : string) :
  digits d = true -> Py.isdecimal u = false ->
  take_unit u (d ++ String u rest) = (Some d, rest).
Proof.
  intros Hd Hu. destruct (digits_inv d Hd) as [Hne Ha]. unfold take_unit.
  rewrite (span_prefix Py.isdecimal d (String u rest) Ha)
    by (intros c [= <-]; exact Hu).
  destruct d; [congruence|]. rewrite Ascii.eqb_refl. reflexivity.
Qed.

Lemma take_unit_miss (u u' : ascii) (d rest : string) :
  Py.all_chars Py.isdecimal d = true -> Py.isdecimal u' = false ->
  Ascii.eqb u' u = false ->
  take_unit u (d ++ String u' rest) = (None, d ++ String u' rest).
Proof.
  intros Ha Hu Hne. unfold take_unit.
  rewrite (span_prefix Py.isdecimal d (String u' rest) Ha)
    by (intros c [= <-]; exact Hu).
  destruct d; [reflexivity|]. rewrite Hne. reflexivity.
Qed.

Lemma take_unit_empty (u : ascii) : take_unit u EmptyString = (None, EmptyString).
Proof. reflexivity. Qed.

(** A present unit is consumed, an absent one leaves the text as it is,
    as long as what follows does not start with that same unit. *)
Lemma take_unit_text (u : ascii) (o : option string) (rest : string) :
  unit_ok o = true -> Py.isdecimal u = false ->
  take_unit u rest = (None, rest) ->
  take_unit u (unit_text o u ++ rest) = (o, rest).
Proof.
  intros Ho Hu Hrest. destruct o as [d|]; simpl; [|exact Hrest].
  rewrite append_assoc. apply take_unit_hit; assumption.
Qed.

Lemma take_unit_skips (u u' : ascii) (o : option string) (rest : string) :
  unit_ok o = true -> Py.isdecimal u' = false -> Ascii.eqb u' u = false ->
  take_unit u rest = (None, rest) ->
  take_unit u (unit_text o u' ++ rest) = (None, unit_text o u' ++ rest).
Proof.
  intros Ho Hu Hne Hrest. destruct o as [d|]; simpl; [|exact Hrest].
  rewrite append_assoc.
  apply take_unit_miss; try assumption. apply digits_inv, Ho.
Qed.

Lemma shorthand_fullmatch_units (h m sec : option string) :
  unit_ok h = true -> unit_ok m = true -> unit_ok sec = true ->
  shorthand_fullmatch (unit_text h "h" ++ unit_text m "m" ++ unit_text sec "s")
  = Some (h, m, sec).
Proof.
  intros Hh Hm Hs. unfold shorthand_fullmatch.
  assert (E3 : forall u, take_unit u EmptyString = (None, EmptyString))
    by reflexivity.
  assert (S : unit_text sec "s" = unit_text sec "s" ++ EmptyString).
  { rewrite append_nil_r. reflexivity. }
  rewrite (take_unit_text "h" h _ Hh eq_refl).
  - rewrite (take_unit_text "m" m _ Hm eq_refl).
    + rewrite S, (take_unit_text "s" sec _ Hs eq_refl (E3 _)). reflexivity.
    + rewrite S. apply take_unit_skips; auto.
  - apply take_unit_skips; auto.
    rewrite S. apply take_unit_skips; auto.
Qed.

Lemma shorthand_fullmatch_inv (t : string) (h m sec : option string) :
  shorthand_fullmatch t = Some (h, m, sec) ->
  unit_ok h = true /\ unit_ok m = true /\ unit_ok sec = true /\
  t = unit_text h "h" ++ unit_text m "m" ++ unit_text sec "s".
Proof.
  unfold shorthand_fullmatch.
  destruct (take_unit "h" t) as [h' s1] eqn:E1.
  destruct (take_unit "m" s1) as [m' s2] eqn:E2.
  destruct (take_unit "s" s2) as [sec' s3] eqn:E3.
  destruct s3; simpl; [|discriminate]. intros [= <- <- <-].
  apply take_unit_inv in E1, E2, E3.
  assert (U : forall u o a b,
             match o with
             | Some d => digits d = true /\ a = d ++ String u b
             | None => b = a
             end -> unit_ok o = true /\ a = unit_text o u ++ b).
  { intros u [d|] a b; simpl.
    - intros [A ->]. split; [exact A|]. rewrite append_assoc. reflexivity.
    - intros ->. split; reflexivity. }
  apply U in E1 as [A1 ->], E2 as [A2 ->], E3 as [A3 ->].
  rewrite append_nil_r. repeat split; assumption.
Qed.

Lemma all_chars_app (q : ascii -> bool) (a b : string) :
  Py.all_chars q (a ++ b) = Py.all_chars q a && Py.all_chars q b.
Proof.
  induction a as [|c a IH]; [reflexivity|].
  rewrite append_cons. simpl. rewrite IH. apply andb_assoc.
Qed.

Lemma isdigit_with (a b : string) (c : ascii) :
  Py.isdigit_char c = false -> Py.isdigit (a ++ String c b) = false.
Proof.
  intros Hc. unfold Py.isdigit. rewrite all_chars_app. simpl. rewrite Hc.
  rewrite andb_false_r. apply andb_false_r.
Qed.

Lemma digits_isdigit (d : string) : digits d = true -> Py.isdigit d = true.
Proof.
  intros H. destruct (digits_inv d H) as [Hne Ha]. unfold Py.isdigit.
  apply andb_true_iff. split; [destruct d; [congruence | reflexivity]|].
  clear H Hne. induction d as [|c d IH]; [reflexivity|]. simpl in *.
  apply andb_true_iff in Ha as [Hc Hd].
  rewrite (isdecimal_isdigit_char c Hc), (IH Hd). reflexivity.
Qed.

Lemma digits_no_colon (d : string) :
  digits d = true -> Py.any_char (fun c => Ascii.eqb c ":") d = false.
Proof.
  intros H. destruct (digits_inv d H) as [_ Ha]. clear H.
  induction d as [|c d IH]; [reflexivity|]. simpl in *.
  apply andb_true_iff in Ha as [Hc Hd]. rewrite (IH Hd), orb_false_r.
  revert Hc. destruct c as [[] [] [] [] [] [] [] []]; vm_compute; congruence.
Qed.

Lemma is_empty_with (a b : string) (c : ascii) :
  Py.is_empty (a ++ String c b) = false.
Proof. destruct a; reflexivity. Qed.

Lemma shorthand_fullmatch_colon (d rest : string) :
  digits d = true -> shorthand_fullmatch (d ++ String ":" rest) = None.
Proof.
  intros H. destruct (digits_inv d H) as [_ Ha]. unfold shorthand_fullmatch.
  rewrite !(take_unit_miss _ ":" d rest Ha) by reflexivity.
  rewrite is_empty_with. reflexivity.
Qed.

Lemma int_or_0_unit (o : option string) :
  unit_ok o = true -> int_or_0 o = Ok (unit_value o).
Proof.
  destruct o as [d|]; simpl; intros H; [|reflexivity].
  rewrite (int_digits d H). destruct d; [discriminate | reflexivity].
Qed.

Lemma any_group_some_unit (h m sec : option string) :
  unit_ok h = true -> unit_ok m = true -> unit_ok sec = true ->
  any_group (h, m, sec) = some_unit h m sec.
Proof.
  assert (T : forall o, unit_ok o = true ->
              match o with Some d => Py.truthy d | None => false end
              = match o with Some _ => true | None => false end).
  { intros [d|] H; [|reflexivity]. destruct d; [discriminate | reflexivity]. }
  intros Hh Hm Hs. unfold any_group. rewrite (T h Hh), (T m Hm), (T sec Hs).
  destruct h, m, sec; reflexivity.
Qed.

Lemma isdigit_units (h m sec : option string) :
  some_unit h m sec = true ->
  Py.isdigit (unit_text h "h" ++ unit_text m "m" ++ unit_text sec "s") = false.
Proof.
  destruct h as [d|]; [intros _|destruct m as [d|]; [intros _|destruct sec as [d|]]];
    simpl; try discriminate; intros; rewrite ?append_assoc, ?append_nil_r;
    apply isdigit_with; reflexivity.
Qed.

(** Every text of the grammar is parsed to its value. *)
Lemma parse_duration_accepts (s : string) (n : Z) :
  s <> EmptyString -> accepts (Py.strip s) n -> parse_duration s = Ok n.
Proof.
  intros Hne H. unfold parse_duration.
  destruct s as [|c0 s0]; [congruence|]. cbn [Py.is_empty].
  remember (Py.strip (String c0 s0)) as t eqn:Et. clear Et Hne.
  destruct H as [d Hd | m sec Hm Hs | h m sec Hh Hm Hs | h m sec Hh Hm Hs Hu].
  - rewrite (digits_isdigit d Hd). apply int_digits, Hd.
  - rewrite !append_cons, !append_nil_l.
    rewrite isdigit_with by reflexivity.
    rewrite (shorthand_fullmatch_colon m sec Hm).
    rewrite (split_at_first ":" m sec (digits_no_colon m Hm)).
    rewrite (split_without ":" sec (digits_no_colon sec Hs)).
    simpl. rewrite (int_digits m Hm), (int_digits sec Hs). reflexivity.
  - rewrite !append_cons, !append_nil_l.
    rewrite isdigit_with by reflexivity.
    rewrite (shorthand_fullmatch_colon h _ Hh).
    rewrite (split_at_first ":" h _ (digits_no_colon h Hh)).
    rewrite (split_at_first ":" m sec (digits_no_colon m Hm)).
    rewrite (split_without ":" sec (digits_no_colon sec Hs)).
    simpl. rewrite (int_digits h Hh), (int_digits m Hm), (int_digits sec Hs).
    reflexivity.
  - rewrite (isdigit_units h m sec Hu).
    rewrite (shorthand_fullmatch_units h m sec Hh Hm Hs).
    rewrite (any_group_some_unit h m sec Hh Hm Hs), Hu.
    rewrite (int_or_0_unit h Hh), (int_or_0_unit m Hm), (int_or_0_unit sec Hs).
    reflexivity.
Qed.

Lemma colon_fields_inv (parts : list string) (n : Z) :
  colon_fields parts = Ok n ->
  Forall (fun w => Py.any_char literal_extra w = false) parts ->
  accepts (join_with ":" parts) n.
Proof.
  intros H Hp.
  destruct parts as [|a [|b [|c [|? ?]]]]; simpl in H; try discriminate.
  - inversion Hp as [|? ? Pa Hp1]; subst. inversion Hp1 as [|? ? Pb _]; subst.
    destruct (Py.int a) as [x|] eqn:Ea; [|discriminate].
    destruct (Py.int b) as [y|] eqn:Eb; [|discriminate].
    injection H as <-.
    destruct (int_plain_inv a x Ea Pa) as [Da ->].
    destruct (int_plain_inv b y Eb Pb) as [Db ->].
    apply (minutes_seconds a b Da Db).
  - inversion Hp as [|? ? Pa Hp1]; subst. inversion Hp1 as [|? ? Pb Hp2]; subst.
    inversion Hp2 as [|? ? Pc _]; subst.
    destruct (Py.int a) as [x|] eqn:Ea; [|discriminate].
    destruct (Py.int b) as [y|] eqn:Eb; [|discriminate].
    destruct (Py.int c) as [z|] eqn:Ec; [|discriminate].
    injection H as <-.
    destruct (int_plain_inv a x Ea Pa) as [Da ->].
    destruct (int_plain_inv b y Eb Pb) as [Db ->].
    destruct (int_plain_inv c z Ec Pc) as [Dc ->].
    apply (hours_minutes_seconds a b c Da Db Dc).
Qed.

(** Conversely, a plain text the parser accepts is a text of the grammar. *)
Lemma parse_duration_plain_inv (s : string) (n : Z) :
  s <> EmptyString -> DurationGrammar.plain (Py.strip s) = true ->
  parse_duration s = Ok n -> accepts (Py.strip s) n.
Proof.
  intros Hne Hp. unfold parse_duration.
  destruct s as [|c0 s0]; [congruence|]. cbn [Py.is_empty].
  remember (Py.strip (String c0 s0)) as t eqn:Et. clear Et Hne.
  unfold DurationGrammar.plain in Hp. apply negb_true_iff in Hp.
  assert (Colon : colon_fields (Py.split ":" t) = Ok n -> accepts t n).
  { intros H. rewrite <- (join_split ":" t) at 1.
    apply colon_fields_inv; [exact H | apply split_pieces, Hp]. }
  destruct (Py.isdigit t) eqn:Ed.
  - intros H. destruct (int_plain_inv t n H Hp) as [D ->].
    apply plain_seconds, D.
  - destruct (shorthand_fullmatch t) as [[[h m] sec]|] eqn:Es; [|exact Colon].
    destruct (any_group (h, m, sec)) eqn:Eg; [|exact Colon].
    apply shorthand_fullmatch_inv in Es as (Hh & Hm & Hs & ->).
    rewrite (any_group_some_unit h m sec Hh Hm Hs) in Eg.
    rewrite (int_or_0_unit h Hh), (int_or_0_unit m Hm), (int_or_0_unit sec Hs).
    simpl. intros [= <-]. apply shorthand; assumption.
Qed.

Lemma parse_duration_raises_only_value_error (s : string) (e : pyexc) :
  parse_duration s = Raise e -> e = ValueError.
Proof.
  assert (C : forall parts, colon_fields parts = Raise e -> e = ValueError).
  { intros parts. unfold colon_fields.
    destruct parts as [|a [|b [|c [|? ?]]]]; try congruence;
      repeat (destruct (Py.int _)); congruence. }
  assert (I : forall o, int_or_0 o = Raise e -> e = ValueError).
  { intros [d|]; simpl; [|discriminate].
    destruct (Py.truthy d); [apply int_raises_only_value_error | discriminate]. }
  unfold parse_duration. destruct (Py.is_empty s); [discriminate|].
  destruct (Py.isdigit _); [apply int_raises_only_value_error|].
  destruct (shorthand_fullmatch _) as [[[h m] sec]|]; [|apply C].
  destruct (any_group _); [|apply C].
  destruct (int_or_0 h) eqn:Eh; simpl; [|intros [= <-]; apply (I h Eh)].
  destruct (int_or_0 m) eqn:Em; simpl; [|intros [= <-]; apply (I m Em)].
  destruct (int_or_0 sec) eqn:Ese; simpl; [discriminate|intros [= <-]; apply (I sec Ese)].
Qed.

(** A plain text outside the grammar is refused. *)
Lemma parse_duration_rejects (s : string) :
  s <> EmptyString -> DurationGrammar.plain (Py.strip s) = true ->
  (forall n, ~ accepts (Py.strip s) n) ->
  parse_duration s = Raise ValueError.
Proof.
  intros Hne Hp Hno. destruct (parse_duration s) as [n|e] eqn:E.
  - destruct (Hno n). apply parse_duration_plain_inv; assumption.
  - f_equal. eapply parse_duration_raises_only_value_error, E.
Qed.

End ParseDuration.

(** C9. On the representative values the two conversions agree:
    [format_duration] maps 45, 330 and 5025 to 45s, 5:30 and 1:23:45, and
    [parse_duration] maps 5:30, 1:23:45, 5m30s, 1h30m and 90 to 330, 5025,
    330, 5400 and 90. *)
Theorem duration_representative_values :
  Utils.format_duration 45 = "45s" /\
  Utils.format_duration 330 = "5:30" /\
  Utils.format_duration 5025 = "1:23:45" /\
  Utils.parse_duration "5:30" = Ok 330 /\
  Utils.parse_duration "1:23:45" = Ok 5025 /\
  Utils.parse_duration "5m30s" = Ok 330 /\
  Utils.parse_duration "1h30m" = Ok 5400 /\
  Utils.parse_duration "90" = Ok 90.
Proof. repeat split; vm_compute; reflexivity. Qed.

(** C2, as stated, fails on the empty string: the guard at the top of
    [parse_duration] answers 0 instead of raising. *)
Lemma parse_duration_empty_not_refused :
  Utils.parse_duration EmptyString <> Raise ValueError.
Proof. vm_compute. discriminate. Qed.

(** C2, amended. [parse_duration] answers 0 on the empty string. On any
    other input, with the blanks around it stripped, it accepts plain
    integer seconds, MM:SS and H:MM:SS, and the NhNmNs shorthand (each unit
    optional, at least one present), with the expected value; it raises
    ValueError on every other text that carries no sign, underscore or
    blank, and in particular on abc, 12:ab and 1d2h. *)
Theorem parse_duration_formats :
  Utils.parse_duration EmptyString = Ok 0 /\
  (forall s n, s <> EmptyString -> DurationGrammar.accepts (Py.strip s) n ->
               Utils.parse_duration s = Ok n) /\
  (forall s, s <> EmptyString -> DurationGrammar.plain (Py.strip s) = true ->
             (forall n, ~ DurationGrammar.accepts (Py.strip s) n) ->
             Utils.parse_duration s = Raise ValueError) /\
  Utils.parse_duration "abc" = Raise ValueError /\
  Utils.parse_duration "12:ab" = Raise ValueError /\
  Utils.parse_duration "1d2h" = Raise ValueError.
Proof.
  split; [reflexivity|].
  split; [exact parse_duration_accepts|].
  split; [exact parse_duration_rejects|].
  repeat split; vm_compute; reflexivity.
Qed.

Lemma parse_duration_formats_witness :
  Utils.parse_duration " 1h30m" = Ok 5400 /\
  Utils.parse_duration "7x" = Raise ValueError.
Proof.
  destruct parse_duration_formats as (_ & Hacc & Hrej & _). split.
  - apply Hacc; [discriminate|].
    exact (DurationGrammar.shorthand (Some "1") (Some "30") None
             eq_refl eq_refl eq_refl eq_refl).
  - apply Hrej; [discriminate | reflexivity |].
    intros n H. apply (Hacc "7x" n) in H; [|discriminate].
    vm_compute in H. discriminate.
Defined.

(** ** src/utils.py: sanitize_filename *)

Section SanitizeFilename.

Import Utils.

Lemma replace_invalid_valid (c : ascii) : invalid_char (replace_invalid c) = false.
Proof.
  unfold replace_invalid. destruct (invalid_char c) eqn:E; [reflexivity | exact E].
Qed.

Lemma map_replace_valid (s : string) :
  Py.any_char invalid_char (map_chars replace_invalid s) = false.
Proof.
  induction s as [|c s IH]; simpl; [reflexivity|].
  rewrite replace_invalid_valid, IH. reflexivity.
Qed.

Lemma collapse_runs_valid (b : bool) (s : string) :
  Py.any_char invalid_char s = false ->
  Py.any_char invalid_char (collapse_runs b s) = false.
Proof.
  revert b. induction s as [|c s IH]; simpl; intros b H; [reflexivity|].
  apply orb_false_iff in H as [Hc Hs].
  destruct (space_or_underscore c); [destruct b|].
  - apply IH, Hs.
  - change (invalid_char "_" || Py.any_char invalid_char (collapse_runs true s) = false).
    rewrite (IH true Hs). reflexivity.
  - simpl. rewrite Hc. apply IH, Hs.
Qed.

Lemma placeholder_safe (m : Z) : 7 <= m -> safe_name m "unnamed".
Proof.
  intros Hm. unfold safe_name.
  split; [reflexivity|]. split; [intros c [= <-]; reflexivity|].
  split; [intros c [= <-]; reflexivity|]. split; [exact Hm | discriminate].
Qed.

Lemma truthy_safe (m : Z) (r : string) :
  7 <= m ->
  Py.any_char invalid_char r = false ->
  (forall c, Py.first_char r = Some c -> dot_or_space c = false) ->
  (forall c, Py.last_char r = Some c -> dot_or_space c = false) ->
  Py.len r <= m ->
  safe_name m (if Py.truthy r then r else "unnamed").
Proof.
  intros Hm Hv Hf Hl Hlen. destruct r as [|c r]; simpl.
  - apply placeholder_safe, Hm.
  - unfold safe_name. do 4 (split; [assumption|]). discriminate.
Qed.

(** The five properties hold for every input and every bound that leaves
    room for the placeholder. *)
Lemma sanitize_filename_bounded (filename : string) (max_length : Z) :
  7 <= max_length -> safe_name max_length (sanitize_filename filename max_length).
Proof.
  intros Hm. unfold sanitize_filename.
  set (s1 := map_chars replace_invalid filename).
  set (s2 := filter_chars _ s1).
  set (s3 := collapse_runs false s2).
  set (s4 := Py.strip_by dot_or_space s3).
  assert (V4 : Py.any_char invalid_char s4 = false).
  { unfold s4, Py.strip_by. apply any_char_rstrip, any_char_lstrip.
    unfold s3. apply collapse_runs_valid. unfold s2. apply any_char_filter.
    apply map_replace_valid. }
  assert (F4 : forall c, Py.first_char s4 = Some c -> dot_or_space c = false).
  { intros c H. unfold s4, Py.strip_by in H.
    apply first_char_rstrip in H. eapply first_char_lstrip, H. }
  assert (L4 : forall c, Py.last_char s4 = Some c -> dot_or_space c = false).
  { intros c H. unfold s4, Py.strip_by in H. eapply last_char_rstrip, H. }
  destruct (Py.len s4 >? max_length) eqn:E.
  - apply truthy_safe; try assumption.
    + apply any_char_rstrip. unfold Py.slice_to.
      destruct (max_length <? 0); apply any_char_take; exact V4.
    + intros c H. apply first_char_rstrip in H. unfold Py.slice_to in H.
      destruct (max_length <? 0); apply first_char_take in H; auto.
    + intros c H. eapply last_char_rstrip, H.
    + unfold Py.slice_to. destruct (max_length <? 0) eqn:N; [lia|].
      unfold Py.len.
      pose proof (length_rstrip dot_or_space (Py.take (Z.to_nat max_length) s4)).
      pose proof (length_take (Z.to_nat max_length) s4). lia.
  - apply truthy_safe; try assumption. lia.
Qed.

End SanitizeFilename.

(** C8. For every input string, [sanitize_filename] (with the default
    maximum length, as every caller uses it) returns a name with none of the
    nine forbidden characters, with no leading or trailing dot or space, of
    length at most the maximum length, and never empty; the degenerate input
    made of four dots yields the placeholder name. *)
Theorem sanitize_filename_safe (filename : string) :
  let r := Utils.sanitize_filename filename Utils.default_max_length in
  Py.any_char Utils.invalid_char r = false /\
  (forall c, Py.first_char r = Some c -> Utils.dot_or_space c = false) /\
  (forall c, Py.last_char r = Some c -> Utils.dot_or_space c = false) /\
  Py.len r <= Utils.default_max_length /\
  r <> EmptyString /\
  Utils.sanitize_filename "...." Utils.default_max_length = "unnamed".
Proof.
  pose proof (sanitize_filename_bounded filename Utils.default_max_length) as H.
  destruct H as (H1 & H2 & H3 & H4 & H5); [unfold Utils.default_max_length; lia|].
  cbv zeta. do 5 (split; [assumption|]). reflexivity.
Qed.

(** The placeholder has seven characters: a bound below seven cannot hold
    it, which is why [sanitize_filename_bounded] asks for seven at least. *)
Example placeholder_exceeds_small_bound :
  Utils.sanitize_filename "...." 3 = "unnamed".
Proof. reflexivity. Qed.

(** ** The guard of the two listings *)

(** C10. When the client is not marked authenticated, [search_videos]
    raises SearchError and [get_profile_videos] raises ProfileError at once:
    the client comes back as it was, so no request was sent. *)
Theorem unauthenticated_guard
    (fuel : nat) (site : Client.Site) (client : Client.t)
    (query profile_identifier : string) (min_duration : Z) (limit : option Z)
    (page : Z) :
  Client.authenticated client = false ->
  Search.search_videos fuel site client query min_duration limit page
    = Some (Raise SearchError, client) /\
  Profile.get_profile_videos fuel site client profile_identifier min_duration limit
    = Some (Raise ProfileError, client).
Proof.
  intros H. unfold Search.search_videos, Profile.get_profile_videos.
  rewrite H. split; reflexivity.
Qed.

Lemma unauthenticated_guard_witness :
  Search.search_videos 0 (fun _ _ => None) Client.new "rope" 60 (Some 5) 1
    = Some (Raise SearchError, Client.new) /\
  Profile.get_profile_videos 0 (fun _ _ => None) Client.new "12345" 60 (Some 5)
    = Some (Raise ProfileError, Client.new).
Proof.
  exact (unauthenticated_guard 0 (fun _ _ => None) Client.new "rope" "12345"
           60 (Some 5) 1 eq_refl).
Defined.

(** ** src/auth.py *)

Section Authenticate.

Import Auth.

(** The three places are tried in order, and the first that yields a token
    wins. *)
Lemma extract_csrf_token_first_match (page : Page) :
  extract_csrf_token page =
    match present (meta_csrf_content page),
          present (input_csrf_value page),
          csrf_search (text page) with
    | Some token, _, _ => Some token
    | None, Some token, _ => Some token
    | None, None, found => found
    end.
Proof.
  unfold extract_csrf_token.
  destruct (present (meta_csrf_content page)); [reflexivity|].
  destruct (present (input_csrf_value page)); reflexivity.
Qed.

Lemma extract_csrf_token_none (page : Page) :
  extract_csrf_token page = None <->
  present (meta_csrf_content page) = None /\
  present (input_csrf_value page) = None /\
  csrf_search (text page) = None.
Proof.
  rewrite extract_csrf_token_first_match.
  destruct (present (meta_csrf_content page)), (present (input_csrf_value page)),
    (csrf_search (text page)); intuition congruence.
Qed.

End Authenticate.

(** C7. When the login page holds no token (neither in the meta tag, nor in
    the hidden input, nor in a script), [authenticate] raises
    AuthenticationError and the only request the client may have sent is the
    GET of the login page: the form is never posted, and the client stays
    unauthenticated if it was. *)
Theorem no_token_no_post
    (site : Client.Site) (client : Client.t) (username password : option string)
    (page : Page) :
  site (List.length (Client.sent client)) (Client.GET Config.login_url) = Some page ->
  Auth.extract_csrf_token page = None ->
  let '(outcome, client') := Auth.authenticate site client username password in
  outcome = Raise AuthenticationError /\
  (Client.sent client' = Client.sent client \/
   Client.sent client' = (Client.sent client ++ [Client.GET Config.login_url])%list) /\
  Client.authenticated client' = Client.authenticated client.
Proof.
  intros Hpage Htoken. unfold Auth.authenticate.
  destruct (Auth.present username); [|auto].
  destruct (Auth.present password); [|auto].
  unfold Client.get, Client.send. rewrite Hpage, Htoken. simpl. auto.
Qed.

Lemma no_token_no_post_witness :
  let '(outcome, client') :=
    Auth.authenticate Sample.blank_site Client.new (Some "alice") (Some "secret") in
  outcome = Raise AuthenticationError /\
  (Client.sent client' = Client.sent Client.new \/
   Client.sent client' = (Client.sent Client.new ++ [Client.GET Config.login_url])%list) /\
  Client.authenticated client' = Client.authenticated Client.new.
Proof.
  exact (no_token_no_post Sample.blank_site Client.new (Some "alice") (Some "secret")
           Sample.blank_page eq_refl eq_refl).
Defined.

(** ** src/downloader.py *)

Section Download.

Import Search Downloader.

Variable net : Net.

Lemma get_video_download_url_keeps (d : t) (video_url : string) :
  let d' := snd (get_video_download_url net d video_url) in
  downloaded_ids d' = downloaded_ids d /\ files d' = files d /\
  fetched d' = fetched d /\ output_dir d' = output_dir d.
Proof.
  unfold get_video_download_url.
  destruct (Client.get (site net) video_url (client d)) as [[page|e] c];
    simpl; auto.
Qed.

Lemma resolve_download_url_keeps (d : t) (v : VideoInfo) :
  let d' := snd (resolve_download_url net d v) in
  downloaded_ids d' = downloaded_ids d /\ files d' = files d /\
  fetched d' = fetched d /\ output_dir d' = output_dir d.
Proof.
  unfold resolve_download_url.
  destruct (Auth.present (download_url v)); [simpl; auto|].
  apply get_video_download_url_keeps.
Qed.

(** A transfer makes exactly one fetch, and writes the ledger exactly when
    it answers [True]. *)
Lemma fetch_to_file_effect (d d' : t) (v : VideoInfo) (filepath u : string) (ok : bool) :
  fetch_to_file net d v filepath u = (ok, d') ->
  downloaded_ids d' =
    (if ok then {[ video_id v ]} ∪ downloaded_ids d else downloaded_ids d) /\
  exists f, fetched d' = (fetched d ++ [f])%list.
Proof.
  unfold fetch_to_file.
  set (abs := if Py.starts_with "http" u then u else Config.base_url ++ u).
  destruct (Py.contains ".m3u8" abs).
  - destruct (ffmpeg net _ abs) as [|[]|[]|]; intros [= <- <-]; simpl; eauto.
  - destruct (http_stream net _ abs); intros [= <- <-]; simpl; eauto.
Qed.

(** What one call may do to the ledger and to the list of fetches. *)
Lemma download_video_effect (d d' : t) (v : VideoInfo) (skip ok : bool) :
  download_video net d v skip = (ok, d') ->
  (downloaded_ids d' = downloaded_ids d \/
   ok = true /\ downloaded_ids d' = {[ video_id v ]} ∪ downloaded_ids d) /\
  (fetched d' = fetched d \/ exists f, fetched d' = (fetched d ++ [f])%list).
Proof.
  unfold download_video.
  destruct (skip && bool_decide (video_id v ∈ downloaded_ids d));
    [intros [= <- <-]; auto|].
  destruct (bool_decide (target_path d v ∈ files d) && skip);
    [intros [= <- <-]; simpl; auto|].
  pose proof (resolve_download_url_keeps d v) as K.
  destruct (resolve_download_url net d v) as [found d2].
  simpl in K. destruct K as (K1 & K2 & K3 & K4).
  destruct (Auth.present found) as [u|].
  - intros H. apply fetch_to_file_effect in H as [E [f F]].
    rewrite K1 in E. rewrite K3 in F. split; [|eauto].
    destruct ok; auto.
  - intros [= <- <-]. auto.
Qed.

(** A call that answers [True] with [skip_existing] leaves the id in the
    ledger. *)
Lemma download_video_true_in_ledger (d d' : t) (v : VideoInfo) :
  download_video net d v true = (true, d') -> video_id v ∈ downloaded_ids d'.
Proof.
  unfold download_video. simpl.
  destruct (bool_decide (video_id v ∈ downloaded_ids d)) eqn:B.
  { intros [= <-]. apply bool_decide_eq_true in B. exact B. }
  rewrite andb_true_r.
  destruct (bool_decide (target_path d v ∈ files d)).
  { intros [= <-]. simpl. apply elem_of_union_l, elem_of_singleton. reflexivity. }
  destruct (resolve_download_url net d v) as [found d2].
  destruct (Auth.present found) as [u|]; [|discriminate].
  intros H. destruct (fetch_to_file_effect _ _ _ _ _ _ H) as [E _].
  rewrite E. apply elem_of_union_l, elem_of_singleton. reflexivity.
Qed.

Lemma download_video_known (d : t) (v : VideoInfo) :
  video_id v ∈ downloaded_ids d -> download_video net d v true = (true, d).
Proof.
  intros H. unfold download_video. simpl.
  rewrite (bool_decide_eq_true_2 _ H). reflexivity.
Qed.

Lemma download_video_existing_file (d : t) (v : VideoInfo) :
  video_id v ∉ downloaded_ids d -> target_path d v ∈ files d ->
  download_video net d v true = (true, mark_downloaded (video_id v) d).
Proof.
  intros Hid Hf. unfold download_video. simpl.
  rewrite (bool_decide_eq_false_2 _ Hid), (bool_decide_eq_true_2 _ Hf).
  reflexivity.
Qed.

(** The loop visits every record: the three counters grow by the length of
    the batch, and [total] is left alone. *)
Lemma download_each_counts (videos : list VideoInfo) (d : t) (skip : bool) (stats : Stats) :
  let stats' := fst (download_each net d videos skip stats) in
  total stats' = total stats /\
  success stats' + failed stats' + skipped stats'
    = success stats + failed stats + skipped stats + Z.of_nat (List.length videos).
Proof.
  revert d stats. induction videos as [|v rest IH]; intros d stats.
  - simpl. lia.
  - cbn [download_each List.length].
    destruct (skip && bool_decide (video_id v ∈ downloaded_ids d)).
    + destruct (IH d (count_skipped stats)) as [T C]. simpl in *. lia.
    + destruct (download_video net d v skip) as [ok d'].
      destruct (IH d' (if ok then count_success stats else count_failed stats))
        as [T C].
      destruct ok; simpl in *; lia.
Qed.

End Download.

(** C5, as stated, fails when the first attempt fails: nothing is written
    to the ledger, and the second call fetches the stream again. *)
Lemma failed_download_is_fetched_again :
  let v := Sample.video "77" (Some "https://cdn.example/77.mp4") in
  let '(ok1, d1) := Downloader.download_video Sample.failing_net Sample.fresh_downloader v true in
  let '(ok2, d2) := Downloader.download_video Sample.failing_net d1 v true in
  ok2 = false /\
  Downloader.fetched d2 =
    [Downloader.HttpStream "https://cdn.example/77.mp4";
     Downloader.HttpStream "https://cdn.example/77.mp4"].
Proof. vm_compute. split; reflexivity. Qed.

(** C5, amended. When a call of [download_video] with [skip_existing]
    answers [True] (the stream was fetched, or the record was skipped), it
    has made at most one stream fetch and the id is in the ledger; when it
    skipped because the target file was there, it made no fetch and no page
    request and wrote the id to the ledger. Any later call for the same id
    is skipped: it answers [True] and changes nothing, and a batch made of
    that record counts it as skipped. *)
Theorem repeated_download_skips
    (net : Downloader.Net) (d d1 : Downloader.t) (v v' : Search.VideoInfo) :
  Downloader.download_video net d v true = (true, d1) ->
  Search.video_id v' = Search.video_id v ->
  (Downloader.fetched d1 = Downloader.fetched d \/
   exists f, Downloader.fetched d1 = (Downloader.fetched d ++ [f])%list) /\
  Search.video_id v ∈ Downloader.downloaded_ids d1 /\
  (Search.video_id v ∉ Downloader.downloaded_ids d ->
   Downloader.target_path d v ∈ Downloader.files d ->
   d1 = Downloader.mark_downloaded (Search.video_id v) d) /\
  Downloader.download_video net d1 v' true = (true, d1) /\
  Downloader.download_videos net d1 [v'] true =
    ({| Downloader.total := 1; Downloader.success := 0;
        Downloader.failed := 0; Downloader.skipped := 1 |}, d1).
Proof.
  intros H Hid.
  pose proof (download_video_true_in_ledger net d d1 v H) as Hin.
  destruct (download_video_effect net d d1 v true true H) as [_ Hf].
  split; [exact Hf|]. split; [exact Hin|]. split.
  - intros Hnew Hfile.
    rewrite (download_video_existing_file net d v Hnew Hfile) in H.
    congruence.
  - rewrite <- Hid in Hin. split.
    + apply download_video_known, Hin.
    + unfold Downloader.download_videos. simpl.
      rewrite (bool_decide_eq_true_2 _ Hin). reflexivity.
Qed.

Lemma repeated_download_skips_witness :
  let v := Sample.video "77" (Some "https://cdn.example/77.mp4") in
  let d1 := snd (Downloader.download_video Sample.working_net Sample.fresh_downloader v true) in
  Downloader.fetched d1 = [Downloader.HttpStream "https://cdn.example/77.mp4"] /\
  Downloader.download_video Sample.working_net d1 v true = (true, d1).
Proof.
  cbv zeta.
  pose proof (repeated_download_skips Sample.working_net Sample.fresh_downloader
                (snd (Downloader.download_video Sample.working_net Sample.fresh_downloader
                        (Sample.video "77" (Some "https://cdn.example/77.mp4")) true))
                (Sample.video "77" (Some "https://cdn.example/77.mp4"))
                (Sample.video "77" (Some "https://cdn.example/77.mp4"))) as W.
  destruct W as (_ & _ & _ & W & _); [vm_compute; reflexivity | reflexivity |].
  split; [vm_compute; reflexivity | exact W].
Defined.

(** C6. [download_videos] visits every record of the batch in order and a
    failure never stops it: whatever the batch, every record is counted
    once, as a success, a failure or a skip. For three new records of which
    the first and the third are downloaded while the second has no stream
    URL, neither in the record nor on its page, the third is still processed
    and the statistics are total 3, success 2, failed 1, skipped 0. *)
Theorem batch_survives_failed_resolution
    (net : Downloader.Net) (d0 d1 d3 : Downloader.t)
    (v1 v2 v3 : Search.VideoInfo) (skip_existing : bool) :
  (forall (videos : list Search.VideoInfo) (d : Downloader.t),
      let stats := fst (Downloader.download_videos net d videos skip_existing) in
      Downloader.total stats = Z.of_nat (List.length videos) /\
      Downloader.success stats + Downloader.failed stats + Downloader.skipped stats
        = Z.of_nat (List.length videos)) /\
  (Search.video_id v1 ∉ Downloader.downloaded_ids d0 ->
   Search.video_id v2 ∉ Downloader.downloaded_ids d0 ->
   Search.video_id v3 ∉ Downloader.downloaded_ids d0 ->
   Search.video_id v1 <> Search.video_id v2 ->
   Search.video_id v1 <> Search.video_id v3 ->
   Downloader.download_video net d0 v1 skip_existing = (true, d1) ->
   Downloader.target_path d1 v2 ∉ Downloader.files d1 ->
   Auth.present (fst (Downloader.resolve_download_url net d1 v2)) = None ->
   Downloader.download_video net
     (snd (Downloader.resolve_download_url net d1 v2)) v3 skip_existing = (true, d3) ->
   Downloader.download_videos net d0 [v1; v2; v3] skip_existing =
     ({| Downloader.total := 3; Downloader.success := 2;
         Downloader.failed := 1; Downloader.skipped := 0 |}, d3)).
Proof.
  split.
  { intros videos d. cbn zeta. unfold Downloader.download_videos.
    pose proof (download_each_counts net videos d skip_existing
                  {| Downloader.total := Z.of_nat (List.length videos);
                     Downloader.success := 0; Downloader.failed := 0;
                     Downloader.skipped := 0 |}) as [T C].
    simpl in T, C. split; [exact T | lia]. }
  intros N1 N2 N3 D12 D13 H1 F2 R2 H3.
  assert (L1 : forall x, x ∉ Downloader.downloaded_ids d0 ->
                         Search.video_id v1 <> x ->
                         x ∉ Downloader.downloaded_ids d1).
  { intros x Hx Hne.
    destruct (download_video_effect net d0 d1 v1 skip_existing true H1)
      as [[E | [_ E]] _]; rewrite E; [exact Hx|].
    intros [In | In]%elem_of_union; [|contradiction].
    apply elem_of_singleton in In. congruence. }
  pose proof (L1 _ N2 D12) as N2'. pose proof (L1 _ N3 D13) as N3'.
  pose proof (resolve_download_url_keeps net d1 v2) as K.
  assert (H2 : Downloader.download_video net d1 v2 skip_existing
               = (false, snd (Downloader.resolve_download_url net d1 v2))).
  { unfold Downloader.download_video.
    rewrite (bool_decide_eq_false_2 _ N2'), (bool_decide_eq_false_2 _ F2).
    rewrite andb_false_r. simpl.
    destruct (Downloader.resolve_download_url net d1 v2) as [found d2].
    simpl in R2. rewrite R2. reflexivity. }
  destruct K as (K1 & _).
  unfold Downloader.download_videos. cbn [Downloader.download_each].
  rewrite (bool_decide_eq_false_2 _ N1), andb_false_r, H1.
  rewrite (bool_decide_eq_false_2 _ N2'), andb_false_r, H2.
  rewrite K1, (bool_decide_eq_false_2 _ N3'), andb_false_r, H3.
  reflexivity.
Qed.

Lemma batch_survives_failed_resolution_witness :
  fst (Downloader.download_videos Sample.working_net Sample.fresh_downloader
         [Sample.video "1" (Some "https://cdn.example/1.mp4");
          Sample.video "2" None;
          Sample.video "3" (Some "/media/3.m3u8")] true)
  = {| Downloader.total := 3; Downloader.success := 2;
       Downloader.failed := 1; Downloader.skipped := 0 |}.
Proof.
  set (v1 := Sample.video "1" (Some "https://cdn.example/1.mp4")).
  set (v2 := Sample.video "2" None).
  set (v3 := Sample.video "3" (Some "/media/3.m3u8")).
  set (d1 := snd (Downloader.download_video Sample.working_net Sample.fresh_downloader v1 true)).
  set (d2 := snd (Downloader.resolve_download_url Sample.working_net d1 v2)).
  set (d3 := snd (Downloader.download_video Sample.working_net d2 v3 true)).
  rewrite (proj2 (batch_survives_failed_resolution Sample.working_net
                    Sample.fresh_downloader d1 d3 v1 v2 v3 true)).
  - reflexivity.
  - apply not_elem_of_empty.
  - apply not_elem_of_empty.
  - apply not_elem_of_empty.
  - discriminate.
  - discriminate.
  - vm_compute. reflexivity.
  - apply (bool_decide_eq_false_1 _). vm_compute. reflexivity.
  - vm_compute. reflexivity.
  - vm_compute. reflexivity.
Defined.


(** ** The records of the two listing strategies *)

Section ListingRecords.

Import Search.

Lemma search_path_id_digits (path s ds : string) :
  search_path_id path s = Some ds -> DurationGrammar.digits ds = true.
Proof.
  induction s as [|c s IH]; simpl.
  - destruct (Py.starts_with path EmptyString); [|discriminate].
    destruct (Py.span Py.isdecimal _) as [a b] eqn:E. simpl.
    apply span_inv in E as (_ & A & _).
    destruct (Py.truthy a) eqn:T; [|discriminate].
    intros [= <-]. unfold DurationGrammar.digits. rewrite T, A. reflexivity.
  - destruct (Py.starts_with path (String c s)); [|exact IH].
    destruct (Py.span Py.isdecimal _) as [a b] eqn:E. simpl.
    apply span_inv in E as (_ & A & _).
    destruct (Py.truthy a) eqn:T; [|exact IH].
    intros [= <-]. unfold DurationGrammar.digits. rewrite T, A. reflexivity.
Qed.

Lemma str_of_int_nonempty (n : Z) : Py.str_of_int n <> EmptyString.
Proof.
  assert (U : forall d, NilZero.string_of_uint d <> EmptyString)
    by (intros []; discriminate).
  unfold Py.str_of_int, NilZero.string_of_int.
  destruct (Z.to_int n); [apply U | discriminate].
Qed.

Lemma str_of_scalar_empty (x : JsonScalar) :
  str_of_scalar x = EmptyString <-> x = JStr EmptyString.
Proof.
  destruct x as [|[]|n|t]; simpl; split; try discriminate; try congruence.
  intros H. destruct (str_of_int_nonempty n H).
Qed.

Lemma digit_value_nonneg (c : ascii) : Py.isdecimal c = true -> 0 <= Py.digit_value c.
Proof.
  unfold Py.isdecimal, Py.in_range, Py.digit_value. intros H.
  apply andb_true_iff in H as [H _]. apply N.leb_le in H. lia.
Qed.

Lemma int_body_nonneg (st : Py.lit_state) (acc : Z) (s : string) (n : Z) :
  Py.int_body st acc s = Some n -> 0 <= acc -> 0 <= n.
Proof.
  revert st acc. induction s as [|c s IH]; simpl; intros st acc H Hacc.
  - destruct st; congruence.
  - destruct (Py.isdecimal c) eqn:E.
    + apply (IH _ _ H). pose proof (digit_value_nonneg c E). lia.
    + destruct (Ascii.eqb c "_"); [|discriminate].
      destruct st; try discriminate. apply (IH _ _ H Hacc).
Qed.

Lemma int_nonneg (s : string) (n : Z) :
  Py.int s = Ok n -> has_minus s = false -> 0 <= n.
Proof.
  unfold Py.int, has_minus. intros H Hm.
  assert (Ht : Py.any_char (fun c => Ascii.eqb c "-") (Py.strip_by Py.isspace_int s) = false)
    by (apply any_char_rstrip, any_char_lstrip, Hm).
  destruct (Py.split_sign _) as [neg body] eqn:E.
  destruct (Py.int_body Py.AtStart 0 body) as [k|] eqn:B; [|discriminate].
  injection H as <-. pose proof (int_body_nonneg _ _ _ _ B (Z.le_refl 0)) as Hk.
  destruct neg; [|exact Hk]. exfalso.
  unfold Py.split_sign in E.
  destruct (Py.strip_by Py.isspace_int s) as [|c r]; [discriminate|].
  simpl in Ht. apply orb_false_iff in Ht as [Hc _]. rewrite Hc in E.
  destruct (Ascii.eqb c "+"); discriminate.
Qed.

Lemma value_nonneg (d : string) :
  DurationGrammar.digits d = true -> 0 <= DurationGrammar.value d.
Proof.
  intros H. pose proof (int_digits d H) as I.
  apply (int_nonneg d _ I). unfold has_minus.
  apply (any_char_weaken DurationGrammar.literal_extra).
  - intros c Hc. apply extra_not_sign, Hc.
  - apply digits_plain, digits_inv, H.
Qed.

Lemma unit_value_nonneg (o : option string) :
  DurationGrammar.unit_ok o = true -> 0 <= DurationGrammar.unit_value o.
Proof. destruct o as [d|]; simpl; [apply value_nonneg | lia]. Qed.

Lemma colon_fields_nonneg (parts : list string) (n : Z) :
  Utils.colon_fields parts = Ok n ->
  Forall (fun w => has_minus w = false) parts -> 0 <= n.
Proof.
  intros H Hp.
  destruct parts as [|a [|b [|c [|? ?]]]]; simpl in H; try discriminate.
  - inversion Hp as [|? ? Pa Hp1]; subst. inversion Hp1 as [|? ? Pb _]; subst.
    destruct (Py.int a) as [x|] eqn:Ea; [|discriminate].
    destruct (Py.int b) as [y|] eqn:Eb; [|discriminate].
    injection H as <-.
    pose proof (int_nonneg a x Ea Pa). pose proof (int_nonneg b y Eb Pb). lia.
  - inversion Hp as [|? ? Pa Hp1]; subst. inversion Hp1 as [|? ? Pb Hp2]; subst.
    inversion Hp2 as [|? ? Pc _]; subst.
    destruct (Py.int a) as [x|] eqn:Ea; [|discriminate].
    destruct (Py.int b) as [y|] eqn:Eb; [|discriminate].
    destruct (Py.int c) as [z|] eqn:Ec; [|discriminate].
    injection H as <-.
    pose proof (int_nonneg a x Ea Pa). pose proof (int_nonneg b y Eb Pb).
    pose proof (int_nonneg c z Ec Pc). lia.
Qed.

(** Without a minus sign in the text, the parsed duration is not negative. *)
Lemma parse_duration_nonneg (s : string) (n : Z) :
  Utils.parse_duration s = Ok n -> has_minus s = false -> 0 <= n.
Proof.
  unfold Utils.parse_duration. intros H Hm.
  destruct (Py.is_empty s); [injection H as <-; lia|].
  assert (Ht : has_minus (Py.strip s) = false)
    by (apply any_char_rstrip, any_char_lstrip, Hm).
  set (t := Py.strip s) in *.
  assert (Colon : Utils.colon_fields (Py.split ":" t) = Ok n -> 0 <= n).
  { intros C. apply (colon_fields_nonneg _ _ C). apply split_pieces, Ht. }
  destruct (Py.isdigit t); [apply (int_nonneg t n H Ht)|].
  destruct (Utils.shorthand_fullmatch t) as [[[h m] sec]|] eqn:Es; [|auto].
  destruct (Utils.any_group (h, m, sec)); [|auto].
  apply shorthand_fullmatch_inv in Es as (Hh & Hmi & Hs & _).
  rewrite (int_or_0_unit h Hh), (int_or_0_unit m Hmi), (int_or_0_unit sec Hs) in H.
  simpl in H. injection H as <-.
  pose proof (unit_value_nonneg h Hh). pose proof (unit_value_nonneg m Hmi).
  pose proof (unit_value_nonneg sec Hs). lia.
Qed.

Lemma duration_or_0_nonneg (s : string) (n : Z) :
  duration_or_0 s = Ok n -> has_minus s = false -> 0 <= n.
Proof.
  unfold duration_or_0. destruct (Utils.parse_duration s) as [k|e] eqn:E.
  - intros [= <-] Hm. apply (parse_duration_nonneg s k E Hm).
  - destruct e; try discriminate. intros [= <-] _. lia.
Qed.

Lemma parse_video_element_record (element : Element) (base_url : string) (v : VideoInfo) :
  parse_video_element element base_url = Some v ->
  DurationGrammar.digits (video_id v) = true /\
  (has_minus (text_of (duration_by_class element)) = false ->
   has_minus (text_of (duration_by_string element)) = false ->
   0 <= duration v).
Proof.
  unfold parse_video_element.
  destruct (video_link element) as [link|]; [|discriminate].
  destruct (search_path_id "/videos/" _) as [id|] eqn:Eid; [|discriminate].
  apply search_path_id_digits in Eid.
  destruct (uploader_link element) as [ul|].
  - destruct (duration_by_class element) as [t|]; simpl.
    + destruct (duration_or_0 t) as [k|] eqn:E; [|discriminate].
      intros [= <-]. simpl. split; [exact Eid|].
      intros Hm _. apply (duration_or_0_nonneg t k E Hm).
    + destruct (duration_by_string element) as [t|]; simpl.
      * destruct (Py.truthy t).
        -- destruct (duration_or_0 (Py.strip t)) as [k|] eqn:E; [|discriminate].
           intros [= <-]. simpl. split; [exact Eid|].
           intros _ Hm. apply (duration_or_0_nonneg _ k E).
           apply any_char_rstrip, any_char_lstrip, Hm.
        -- intros [= <-]. simpl. split; [exact Eid | lia].
      * intros [= <-]. simpl. split; [exact Eid | lia].
  - destruct (duration_by_class element) as [t|]; simpl.
    + destruct (duration_or_0 t) as [k|] eqn:E; [|discriminate].
      intros [= <-]. simpl. split; [exact Eid|].
      intros Hm _. apply (duration_or_0_nonneg t k E Hm).
    + destruct (duration_by_string element) as [t|]; simpl.
      * destruct (Py.truthy t).
        -- destruct (duration_or_0 (Py.strip t)) as [k|] eqn:E; [|discriminate].
           intros [= <-]. simpl. split; [exact Eid|].
           intros _ Hm. apply (duration_or_0_nonneg _ k E).
           apply any_char_rstrip, any_char_lstrip, Hm.
        -- intros [= <-]. simpl. split; [exact Eid | lia].
      * intros [= <-]. simpl. split; [exact Eid | lia].
Qed.

Lemma video_info_of_data_record (video_data : VideoData) (v : VideoInfo) :
  video_info_of_data video_data = Ok v ->
  video_id v = match vd_id video_data with
               | Some x => str_of_scalar x
               | None => EmptyString
               end /\
  (has_minus (text_of (vd_durationString video_data)) = false -> 0 <= duration v).
Proof.
  unfold video_info_of_data.
  destruct (vd_durationString video_data) as [t|]; simpl.
  - destruct (Py.truthy t).
    + destruct (duration_or_0 t) as [k|] eqn:E; [|discriminate].
      simpl. intros [= <-]. simpl. split; [reflexivity|].
      intros Hm. apply (duration_or_0_nonneg t k E Hm).
    + simpl. intros [= <-]. simpl. split; [reflexivity | lia].
  - intros [= <-]. simpl. split; [reflexivity | lia].
Qed.

End ListingRecords.

(** C4, as stated, fails for the embedded-JSON strategy: an entry without
    an id field yields a record whose id is the empty string, and the search
    returns it. *)
Lemma json_record_with_empty_id :
  match Search.search_videos 2
          (Sample.site_of
             [Sample.search_page [{| story_videos := [Sample.entry_without_id] |}]])
          Sample.logged_in "rope" 0 None 1 with
  | Some (Ok [v], _) => Search.video_id v = EmptyString
  | _ => False
  end.
Proof. vm_compute. reflexivity. Qed.

(** A colon field is converted by [int], which takes a sign: the duration
    of such a text is negative. *)
Example signed_field_gives_negative_duration :
  Utils.parse_duration "-5:30" = Ok (-270).
Proof. reflexivity. Qed.

(** C4, amended. A record built by the DOM strategy has a non-empty id made
    of decimal digits. A record built by the embedded-JSON strategy has the
    printed id field as its id, which is empty exactly when the entry has no
    id field or an empty one. In both strategies the duration is not
    negative when the duration text it is read from holds no minus sign. *)
Theorem listing_records :
  (forall (element : Element) (base_url : string) (v : Search.VideoInfo),
      Search.parse_video_element element base_url = Some v ->
      Search.video_id v <> EmptyString /\
      Py.all_chars Py.isdecimal (Search.video_id v) = true /\
      (has_minus (text_of (duration_by_class element)) = false ->
       has_minus (text_of (duration_by_string element)) = false ->
       0 <= Search.duration v)) /\
  (forall (video_data : VideoData) (v : Search.VideoInfo),
      Search.video_info_of_data video_data = Ok v ->
      (Search.video_id v = EmptyString <->
       vd_id video_data = None \/ vd_id video_data = Some (JStr EmptyString)) /\
      (has_minus (text_of (vd_durationString video_data)) = false ->
       0 <= Search.duration v)).
Proof.
  split.
  - intros element base_url v H.
    destruct (parse_video_element_record element base_url v H) as [D N].
    destruct (digits_inv _ D) as [Hne Ha]. auto.
  - intros video_data v H.
    destruct (video_info_of_data_record video_data v H) as [-> N].
    split; [|exact N].
    destruct (vd_id video_data) as [x|].
    + rewrite str_of_scalar_empty. split.
      * intros ->. right. reflexivity.
      * intros [E | E]; congruence.
    + split; auto.
Qed.

Lemma listing_records_witness :
  match Search.parse_video_element (Sample.card "812" "4:10") Config.base_url,
        Search.video_info_of_data (Sample.entry 812 "4:10") with
  | Some v, Ok w =>
      Search.video_id v <> EmptyString /\ 0 <= Search.duration v /\
      Search.video_id w <> EmptyString /\ 0 <= Search.duration w
  | _, _ => False
  end.
Proof.
  destruct listing_records as [Dom Json].
  destruct (Search.parse_video_element (Sample.card "812" "4:10") Config.base_url)
    as [v|] eqn:Ev; [|vm_compute in Ev; discriminate].
  destruct (Search.video_info_of_data (Sample.entry 812 "4:10"))
    as [w|] eqn:Ew; [|vm_compute in Ew; discriminate].
  destruct (Dom _ _ v Ev) as (A & _ & B).
  destruct (Json _ w Ew) as (C & D).
  split; [exact A|]. split; [apply B; reflexivity|]. split; [|apply D; reflexivity].
  intros E. apply C in E as [E | E]; discriminate.
Defined.

(** ** The two listings, page by page *)

Section Pagination.

Import Search Listing.

Local Open Scope list_scope.

Lemma duration_or_0_total (s : string) : exists n, duration_or_0 s = Ok n.
Proof.
  unfold duration_or_0. destruct (Utils.parse_duration s) as [n|e] eqn:E; [eauto|].
  apply parse_duration_raises_only_value_error in E as ->. eauto.
Qed.

(** Building a record from an entry never raises. *)
Lemma video_info_of_data_total (video_data : VideoData) :
  exists v, video_info_of_data video_data = Ok v.
Proof.
  unfold video_info_of_data.
  destruct (Py.truthy (get_or EmptyString (vd_durationString video_data))).
  - destruct (duration_or_0_total (get_or EmptyString (vd_durationString video_data)))
      as [n ->]. simpl. eauto.
  - simpl. eauto.
Qed.

Lemma scan_records_app (min_duration : Z) (limit : option Z)
    (videos page_videos l1 l2 : list VideoInfo) :
  scan_records min_duration limit videos page_videos (l1 ++ l2) =
    match scan_records min_duration limit videos page_videos l1 with
    | Scanned page_videos => scan_records min_duration limit videos page_videos l2
    | stop => stop
    end.
Proof.
  revert page_videos. induction l1 as [|r l1 IH]; intros page_videos; [reflexivity|].
  simpl. destruct (keep min_duration limit videos page_videos r); auto.
Qed.

Lemma scan_videos_records (min_duration : Z) (limit : option Z)
    (videos page_videos : list VideoInfo) (items : list VideoData) :
  scan_videos min_duration limit videos page_videos items =
  scan_records min_duration limit videos page_videos (flat_map of_data items).
Proof.
  revert page_videos. induction items as [|video_data items IH]; intros page_videos;
    [reflexivity|].
  cbn [scan_videos flat_map]. unfold of_data at 1.
  destruct (video_info_of_data_total video_data) as [v ->].
  cbn [app scan_records].
  destruct (keep min_duration limit videos page_videos v); auto.
Qed.

Lemma scan_stories_records (min_duration : Z) (limit : option Z)
    (videos page_videos : list VideoInfo) (stories : list Story) :
  scan_stories min_duration limit videos page_videos stories =
  scan_records min_duration limit videos page_videos (of_stories stories).
Proof.
  revert page_videos. induction stories as [|story stories IH]; intros page_videos;
    [reflexivity|].
  cbn [scan_stories of_stories flat_map]. rewrite scan_records_app, scan_videos_records.
  destruct (scan_records _ _ _ _ (flat_map of_data (story_videos story))); auto.
Qed.

Lemma scan_elements_records (min_duration : Z) (limit : option Z)
    (videos page_videos : list VideoInfo) (elements : list Element) :
  Profile.scan_elements min_duration limit videos page_videos elements =
  scan_records min_duration limit videos page_videos (of_elements elements).
Proof.
  revert page_videos. induction elements as [|element elements IH];
    intros page_videos; [reflexivity|].
  cbn [Profile.scan_elements of_elements flat_map]. unfold of_element at 1.
  destruct (parse_video_element element Config.base_url) as [v|].
  - cbn [app scan_records].
    destruct (keep min_duration limit videos page_videos v); auto.
  - apply IH.
Qed.

(** A walk whose records are all held back by the filter collects nothing
    and never meets the limit test. *)
Lemma scan_records_all_filtered (min_duration : Z) (limit : option Z)
    (videos page_videos records : list VideoInfo) :
  passing min_duration records = [] ->
  scan_records min_duration limit videos page_videos records = Scanned page_videos.
Proof.
  induction records as [|r records IH]; [reflexivity|].
  unfold passing. cbn [List.filter scan_records]. unfold keep.
  destruct (filtered_out min_duration r); simpl; [exact IH | discriminate].
Qed.

Lemma firstn_exact {A : Type} (l l' : list A) (n : nat) :
  n = List.length l -> firstn n (l ++ l') = l.
Proof.
  intros ->. induction l as [|x l IH]; simpl; [destruct l'; reflexivity|].
  rewrite IH. reflexivity.
Qed.

Lemma firstn_short {A : Type} (l : list A) (n : nat) :
  (List.length l <= n)%nat -> firstn n l = l.
Proof.
  revert n. induction l as [|x l IH]; intros [|n]; simpl; intros H;
    try reflexivity; try lia.
  rewrite IH by lia. reflexivity.
Qed.

Lemma firstn_long {A : Type} (l l' : list A) (n : nat) :
  (n <= List.length l)%nat -> firstn n (l ++ l') = firstn n l.
Proof.
  revert n. induction l as [|x l IH]; intros [|n]; simpl; intros H;
    try reflexivity; try lia.
  rewrite IH by lia. reflexivity.
Qed.

Lemma sent_after (r : Client.Request) (c : Client.t) :
  List.length (Client.sent (Client.after r c)) = S (List.length (Client.sent c)).
Proof. unfold Client.after. simpl. rewrite List.length_app. simpl. lia. Qed.

(** One turn of the search loop, once the page is known. *)
Lemma search_pages_step (fuel : nat) (site : Client.Site) (query : string)
    (min_duration : Z) (limit : option Z) (current_page : Z)
    (videos : list VideoInfo) (client : Client.t) (page : Page) :
  site (List.length (Client.sent client)) (Client.GET (search_url query current_page))
    = Some page ->
  let client' := Client.after (Client.GET (search_url query current_page)) client in
  search_pages (S fuel) site query min_duration limit current_page videos client =
    match video_search_stories page with
    | Props (story :: stories) =>
        match scan_records min_duration limit videos [] (of_stories (story :: stories)) with
        | Reached videos => Some (Ok videos, client')
        | Failed _ => Some (Raise SearchError, client')
        | Scanned page_videos =>
            search_pages fuel site query min_duration limit (current_page + 1)
              (videos ++ page_videos) client'
        end
    | _ => Some (Ok videos, client')
    end.
Proof.
  intros H. cbn [search_pages]. unfold Client.get, Client.send. rewrite H.
  destruct (video_search_stories page) as [| | |[|story stories]]; try reflexivity.
  rewrite scan_stories_records. reflexivity.
Qed.

(** One turn of the profile loop, once the page is known. *)
Lemma profile_pages_step (fuel : nat) (site : Client.Site) (user_id : string)
    (min_duration : Z) (limit : option Z) (page_number : Z)
    (videos : list VideoInfo) (client : Client.t) (page : Page) :
  site (List.length (Client.sent client))
       (Client.GET (Profile.videos_url user_id page_number)) = Some page ->
  let client' := Client.after (Client.GET (Profile.videos_url user_id page_number)) client in
  Profile.profile_pages (S fuel) site user_id min_duration limit page_number videos client =
    match Profile.video_elements page with
    | [] => Some (Ok videos, client')
    | elements =>
        match scan_records min_duration limit videos [] (of_elements elements) with
        | Reached videos => Some (Ok videos, client')
        | Failed _ => Some (Raise ProfileError, client')
        | Scanned [] => Some (Ok videos, client')
        | Scanned page_videos =>
            if next_link page then
              Profile.profile_pages fuel site user_id min_duration limit
                (page_number + 1) (videos ++ page_videos) client'
            else Some (Ok (videos ++ page_videos), client')
        end
    end.
Proof.
  intros H. cbn [Profile.profile_pages]. unfold Client.get, Client.send. rewrite H.
  destruct (Profile.video_elements page) as [|element elements]; [reflexivity|].
  rewrite scan_elements_records. reflexivity.
Qed.

Section PositiveLimit.

Variables min_duration N : Z.
Hypothesis N_positive : 0 < N.

(** Under a positive limit the walk returns as soon as the count reaches
    the limit, with exactly that many records. *)
Lemma scan_records_limit (videos records page_videos : list VideoInfo) :
  Z.of_nat (List.length videos) + Z.of_nat (List.length page_videos) < N ->
  scan_records min_duration (Some N) videos page_videos records =
    if Z.of_nat (List.length videos) + Z.of_nat (List.length page_videos)
       + Z.of_nat (List.length (passing min_duration records)) >=? N
    then Reached (firstn (Z.to_nat N)
                    (videos ++ page_videos ++ passing min_duration records))
    else Scanned (page_videos ++ passing min_duration records).
Proof.
  revert page_videos. induction records as [|r records IH]; intros page_videos Hlt.
  - cbn [scan_records passing List.filter List.length]. rewrite app_nil_r.
    match goal with |- context [?x >=? N] => destruct (Z.geb_spec x N) end;
      [lia | reflexivity].
  - unfold passing. cbn [List.filter scan_records]. fold (passing min_duration records).
    unfold keep. destruct (filtered_out min_duration r); cbn [negb].
    + apply IH, Hlt.
    + unfold limit_reached. rewrite List.length_app. cbn [List.length].
      replace (N =? 0) with false by (symmetry; apply Z.eqb_neq; lia).
      cbn [negb andb].
      destruct (Z.geb_spec (Z.of_nat (List.length videos)
                            + Z.of_nat (List.length page_videos + 1)) N) as [G|G].
      * replace (Z.of_nat (List.length videos) + Z.of_nat (List.length page_videos)
                 + Z.of_nat (S (List.length (passing min_duration records))) >=? N)
          with true by (symmetry; apply Z.geb_le; lia).
        f_equal. unfold Py.list_slice_to.
        replace (N - Z.of_nat (List.length videos) <? 0) with false
          by (symmetry; apply Z.ltb_ge; lia).
        rewrite (firstn_short (page_videos ++ [r]))
          by (rewrite List.length_app; simpl; lia).
        replace (videos ++ page_videos ++ r :: passing min_duration records)
          with ((videos ++ page_videos ++ [r]) ++ passing min_duration records)
          by (rewrite <- !app_assoc; reflexivity).
        rewrite firstn_exact; [reflexivity|].
        rewrite !List.length_app. simpl. lia.
      * rewrite IH by (rewrite List.length_app; simpl; lia).
        rewrite List.length_app. cbn [List.length].
        rewrite <- !app_assoc. cbn [app].
        replace (Z.of_nat (List.length videos)
                 + Z.of_nat (List.length page_videos + 1)
                 + Z.of_nat (List.length (passing min_duration records)) >=? N)
          with (Z.of_nat (List.length videos) + Z.of_nat (List.length page_videos)
                + Z.of_nat (S (List.length (passing min_duration records))) >=? N)
          by (f_equal; lia).
        reflexivity.
Qed.

Variable site : Client.Site.

(** One turn of the search loop on a page with stories, under the limit. *)
Lemma search_page_outcome (fuel : nat) (query : string) (current_page : Z)
    (found : list VideoInfo) (client : Client.t) (page : Page) (stories : list Story) :
  site (List.length (Client.sent client)) (Client.GET (search_url query current_page))
    = Some page ->
  video_search_stories page = Props stories -> stories <> [] ->
  size_of found < N ->
  let client' := Client.after (Client.GET (search_url query current_page)) client in
  let pass := passing min_duration (of_stories stories) in
  search_pages (S fuel) site query min_duration (Some N) current_page found client =
    if size_of found + size_of pass >=? N
    then Some (Ok (firstn (Z.to_nat N) (found ++ pass)), client')
    else search_pages fuel site query min_duration (Some N) (current_page + 1)
           (found ++ pass) client'.
Proof.
  unfold size_of. intros Hpage Hstories Hne Hlt. cbn zeta.
  rewrite (search_pages_step _ _ _ _ _ _ _ _ _ Hpage). cbn zeta.
  rewrite Hstories. destruct stories as [|story stories]; [congruence|].
  rewrite (scan_records_limit found _ []) by (simpl; lia).
  cbn [List.length app]. rewrite Z.add_0_r.
  destruct (_ >=? N); reflexivity.
Qed.

(** One turn of the profile loop, under the limit. *)
Lemma profile_page_outcome (fuel : nat) (user_id : string) (page_number : Z)
    (found : list VideoInfo) (client : Client.t) (page : Page) :
  site (List.length (Client.sent client))
       (Client.GET (Profile.videos_url user_id page_number)) = Some page ->
  size_of found < N ->
  let client' := Client.after (Client.GET (Profile.videos_url user_id page_number)) client in
  let pass := page_passing min_duration page in
  Profile.profile_pages (S fuel) site user_id min_duration (Some N) page_number found client =
    if size_of found + size_of pass >=? N
    then Some (Ok (firstn (Z.to_nat N) (found ++ pass)), client')
    else
      match pass with
      | [] => Some (Ok found, client')
      | _ =>
          if next_link page then
            Profile.profile_pages fuel site user_id min_duration (Some N)
              (page_number + 1) (found ++ pass) client'
          else Some (Ok (found ++ pass), client')
      end.
Proof.
  unfold size_of, page_passing. intros Hpage Hlt. cbn zeta.
  rewrite (profile_pages_step _ _ _ _ _ _ _ _ _ Hpage). cbn zeta.
  destruct (Profile.video_elements page) as [|element elements].
  - cbn [of_elements flat_map passing List.filter List.length].
    rewrite Z.add_0_r.
    destruct (Z.geb_spec (Z.of_nat (List.length found)) N); [lia | reflexivity].
  - rewrite (scan_records_limit found _ []) by (simpl; lia).
    cbn [List.length app]. rewrite Z.add_0_r.
    destruct (_ >=? N); reflexivity.
Qed.

(** The search loop, over pages with stories followed by one without. *)
Lemma search_pages_run (query : string) (last : Page) (pages : list (list Story)) :
  no_stories last ->
  forall (current_page : Z) (found : list VideoInfo) (client : Client.t) (fuel : nat),
    size_of found < N ->
    serves_search site query (List.length (Client.sent client)) current_page pages last ->
    (List.length pages < fuel)%nat ->
    exists client',
      search_pages fuel site query min_duration (Some N) current_page found client =
      Some (Ok (firstn (Z.to_nat N)
                  (found ++ flat_map (fun stories => passing min_duration (of_stories stories))
                              pages)),
            client') /\
      List.length (Client.sent client') =
      (List.length (Client.sent client)
       + pages_read N (size_of found)
           (map (fun stories => size_of (passing min_duration (of_stories stories))) pages))%nat.
Proof.
  intros Hlast. induction pages as [|stories rest IH];
    intros current_page found client fuel Hlt Hserves Hfuel;
    (destruct fuel as [|fuel]; [simpl in Hfuel; lia|]).
  - simpl in Hserves. rewrite (search_pages_step _ _ _ _ _ _ _ _ _ Hserves).
    cbn zeta. unfold no_stories in Hlast. cbn [flat_map map pages_read].
    unfold size_of in Hlt. rewrite app_nil_r, firstn_short; [|lia].
    exists (Client.after (Client.GET (search_url query current_page)) client).
    split; [|rewrite sent_after; lia].
    destruct (video_search_stories last) as [| | |[|story stories]];
      try contradiction; reflexivity.
  - destruct Hserves as ((page & Hpage & Hstories) & Hne & Hrest).
    rewrite (search_page_outcome fuel query current_page found client page stories
               Hpage Hstories Hne Hlt).
    cbn zeta. cbn [flat_map map pages_read].
    set (pass := passing min_duration (of_stories stories)).
    destruct (Z.geb_spec (size_of found + size_of pass) N) as [G|G].
    + exists (Client.after (Client.GET (search_url query current_page)) client).
      split; [|rewrite sent_after; lia].
      rewrite (app_assoc found pass), (firstn_long (found ++ pass));
        [reflexivity|].
      unfold size_of in G. rewrite List.length_app. lia.
    + assert (Hsize : size_of (found ++ pass) = size_of found + size_of pass)
        by (unfold size_of; rewrite List.length_app; lia).
      destruct (IH (current_page + 1) (found ++ pass)
                  (Client.after (Client.GET (search_url query current_page)) client) fuel)
        as (client' & E & L).
      * lia.
      * rewrite sent_after. exact Hrest.
      * simpl in Hfuel. lia.
      * exists client'. rewrite (app_assoc found pass). split; [exact E|].
        rewrite L, sent_after, Hsize. lia.
Qed.

(** The profile loop, over pages after which the listing goes on followed
    by one at which it ends. *)
Lemma profile_pages_run (user_id : string) (last : Page) (pages : list Page) :
  ends min_duration last ->
  forall (page_number : Z) (found : list VideoInfo) (client : Client.t) (fuel : nat),
    size_of found < N ->
    serves_profile site user_id (List.length (Client.sent client)) page_number
      min_duration pages last ->
    (List.length pages < fuel)%nat ->
    exists client',
      Profile.profile_pages fuel site user_id min_duration (Some N) page_number found client =
      Some (Ok (firstn (Z.to_nat N)
                  (found ++ flat_map (page_passing min_duration) (pages ++ [last]))),
            client') /\
      List.length (Client.sent client') =
      (List.length (Client.sent client)
       + pages_read N (size_of found)
           (map (fun page => size_of (page_passing min_duration page)) pages))%nat.
Proof.
  intros Hlast. induction pages as [|page rest IH];
    intros page_number found client fuel Hlt Hserves Hfuel;
    (destruct fuel as [|fuel]; [simpl in Hfuel; lia|]).
  - simpl in Hserves.
    rewrite (profile_page_outcome fuel user_id page_number found client last Hserves Hlt).
    cbn zeta. cbn [app flat_map map pages_read]. rewrite app_nil_r.
    exists (Client.after (Client.GET (Profile.videos_url user_id page_number)) client).
    split; [|rewrite sent_after; lia].
    unfold ends in Hlast. set (pass := page_passing min_duration last) in *.
    destruct (Z.geb_spec (size_of found + size_of pass) N) as [G|G]; [reflexivity|].
    assert (Hall : firstn (Z.to_nat N) (found ++ pass) = found ++ pass).
    { apply firstn_short. unfold size_of in *. rewrite List.length_app. lia. }
    rewrite Hall. destruct Hlast as [E | E].
    + rewrite E, app_nil_r. reflexivity.
    + rewrite E. destruct pass; [rewrite app_nil_r|]; reflexivity.
  - destruct Hserves as (Hpage & (Hpass & Hnext) & Hrest).
    rewrite (profile_page_outcome fuel user_id page_number found client page Hpage Hlt).
    cbn zeta. cbn [app flat_map map pages_read].
    unfold goes_on in *. set (pass := page_passing min_duration page) in *.
    destruct (Z.geb_spec (size_of found + size_of pass) N) as [G|G].
    + exists (Client.after (Client.GET (Profile.videos_url user_id page_number)) client).
      split; [|rewrite sent_after; lia].
      rewrite (app_assoc found pass), (firstn_long (found ++ pass));
        [reflexivity|].
      unfold size_of in G. rewrite List.length_app. lia.
    + assert (Hsize : size_of (found ++ pass) = size_of found + size_of pass)
        by (unfold size_of; rewrite List.length_app; lia).
      destruct (IH (page_number + 1) (found ++ pass)
                  (Client.after (Client.GET (Profile.videos_url user_id page_number)) client)
                  fuel) as (client' & E & L).
      * lia.
      * rewrite sent_after. exact Hrest.
      * simpl in Hfuel. lia.
      * exists client'. rewrite (app_assoc found pass), Hnext. split.
        -- destruct pass; [congruence | exact E].
        -- rewrite L, sent_after, Hsize. lia.
Qed.

End PositiveLimit.

End Pagination.

(** C1, as stated, fails for the profile listing: the only card of the first
    page is held back by the filter, and the loop ends there, after one
    request, although the page links to a next page that shows a record
    long enough. *)
Lemma filtered_profile_page_stops :
  match Profile.get_profile_videos 5 (Sample.site_of Sample.short_then_long)
          Sample.logged_in "9" 60 None with
  | Some (Ok videos, client) =>
      videos = [] /\ List.length (Client.sent client) = 1%nat /\
      Listing.page_passing 60 (nth 1 Sample.short_then_long Sample.blank_page) <> []
  | _ => False
  end.
Proof. vm_compute. repeat split. discriminate. Qed.

(** C1, amended. In the search listing a page that has stories never ends
    the pagination by itself: when all its records are held back by the
    filter the loop goes on to the next page with nothing added, and more
    generally it goes on whenever the walk over the page ends without
    meeting the limit. In the profile listing a page whose cards are all
    held back by the filter ends the pagination, with what was found so far. *)
Theorem filtered_page_in_each_listing
    (fuel : nat) (site : Client.Site) (min_duration : Z) (limit : option Z)
    (number : Z) (found : list Search.VideoInfo) (client : Client.t) (page : Page) :
  (forall (query : string) (stories : list Story),
      site (List.length (Client.sent client))
           (Client.GET (Search.search_url query number)) = Some page ->
      video_search_stories page = Props stories -> stories <> [] ->
      (Listing.passing min_duration (Listing.of_stories stories) = [] ->
       Search.search_pages (S fuel) site query min_duration limit number found client =
       Search.search_pages fuel site query min_duration limit (number + 1) found
         (Client.after (Client.GET (Search.search_url query number)) client)) /\
      (forall page_videos,
          Search.scan_stories min_duration limit found [] stories = Search.Scanned page_videos ->
          Search.search_pages (S fuel) site query min_duration limit number found client =
          Search.search_pages fuel site query min_duration limit (number + 1)
            (found ++ page_videos)%list
            (Client.after (Client.GET (Search.search_url query number)) client))) /\
  (forall (user_id : string),
      site (List.length (Client.sent client))
           (Client.GET (Profile.videos_url user_id number)) = Some page ->
      Profile.video_elements page <> [] ->
      Listing.page_passing min_duration page = [] ->
      Profile.profile_pages (S fuel) site user_id min_duration limit number found client =
      Some (Ok found, Client.after (Client.GET (Profile.videos_url user_id number)) client)).
Proof.
  split.
  - intros query stories Hpage Hstories Hne.
    pose proof (search_pages_step fuel site query min_duration limit number found
                  client page Hpage) as Step.
    cbn zeta in Step. rewrite Hstories in Step.
    destruct stories as [|story stories]; [congruence|].
    rewrite <- scan_stories_records in Step. split.
    + intros Hall. rewrite Step, scan_stories_records.
      rewrite (scan_records_all_filtered _ _ _ _ _ Hall), app_nil_r. reflexivity.
    + intros page_videos Hscan. rewrite Step, Hscan. reflexivity.
  - intros user_id Hpage Hne Hall.
    rewrite (profile_pages_step fuel site user_id min_duration limit number found
               client page Hpage). cbn zeta.
    destruct (Profile.video_elements page) as [|element elements] eqn:E; [congruence|].
    unfold Listing.page_passing in Hall. rewrite E in Hall.
    rewrite (scan_records_all_filtered _ _ _ _ _ Hall). reflexivity.
Qed.

Lemma filtered_page_in_each_listing_witness :
  Search.search_pages 2
    (Sample.site_of [Sample.search_page [{| story_videos := [Sample.entry 5 "0:30"] |}]])
    "rope" 60 None 1 [] Sample.logged_in =
  Search.search_pages 1
    (Sample.site_of [Sample.search_page [{| story_videos := [Sample.entry 5 "0:30"] |}]])
    "rope" 60 None 2 []
    (Client.after (Client.GET (Search.search_url "rope" 1)) Sample.logged_in) /\
  Profile.profile_pages 5 (Sample.site_of Sample.short_then_long) "9" 60 None 1 []
    Sample.logged_in =
  Some (Ok [], Client.after (Client.GET (Profile.videos_url "9" 1)) Sample.logged_in).
Proof.
  split.
  - refine (proj1 (proj1 (filtered_page_in_each_listing 1 _ 60 None 1 [] Sample.logged_in
                             (Sample.search_page [{| story_videos := [Sample.entry 5 "0:30"] |}]))
                     "rope" _ eq_refl eq_refl _) _).
    + discriminate.
    + reflexivity.
  - refine (proj2 (filtered_page_in_each_listing 4 _ 60 None 1 [] Sample.logged_in
                     (nth 0 Sample.short_then_long Sample.blank_page))
              "9" eq_refl _ _).
    + discriminate.
    + reflexivity.
Defined.

(** C3, as stated, fails for the profile listing: with a limit of 5 and a
    minimum of 60 seconds the loop ends at the first page, whose only card is
    held back by the filter, and returns nothing, while one record of the
    two pages passes the filter. *)
Lemma profile_limit_falls_short :
  match Profile.get_profile_videos 5 (Sample.site_of Sample.short_then_long)
          Sample.logged_in "9" 60 (Some 5) with
  | Some (Ok videos, _) =>
      Z.of_nat (List.length videos) <>
      Z.min 5 (Z.of_nat (List.length
                 (flat_map (Listing.page_passing 60) Sample.short_then_long)))
  | _ => False
  end.
Proof. vm_compute. discriminate. Qed.

(** A limit of 0 is read as no limit at all. *)
Example limit_zero_is_no_limit :
  match Search.search_videos 3
          (Sample.site_of (map Sample.search_page Sample.two_by_two))
          Sample.logged_in "rope" 0 (Some 0) 1 with
  | Some (Ok videos, _) => List.length videos = 4%nat
  | _ => False
  end.
Proof. vm_compute. reflexivity. Qed.

(** C3, amended. For every positive limit N, when the listing ends after
    finitely many pages (search: at the first page without stories; profile:
    at the first page with no card, with no card passing the filter, or
    without a link to a next page), the paginator returns the first N of the
    records that pass the filter on the pages up to there, in order: a list
    of length exactly min(N, total), cut in the middle of a page when the
    count reaches N there. It returns at once: no page is fetched after the
    one where the count reaches N. *)
Theorem paginator_limit (min_duration N : Z) :
  0 < N ->
  (forall (site : Client.Site) (client : Client.t) (query : string) (page : Z)
          (pages : list (list Story)) (last : Page) (fuel : nat),
      Client.authenticated client = true ->
      Listing.serves_search site query (List.length (Client.sent client)) page pages last ->
      Listing.no_stories last ->
      (List.length pages < fuel)%nat ->
      let passing_of :=
        fun stories => Listing.passing min_duration (Listing.of_stories stories) in
      let available := flat_map passing_of pages in
      exists videos client',
        Search.search_videos fuel site client query min_duration (Some N) page
          = Some (Ok videos, client') /\
        videos = firstn (Z.to_nat N) available /\
        Z.of_nat (List.length videos) = Z.min N (Z.of_nat (List.length available)) /\
        List.length (Client.sent client') =
        (List.length (Client.sent client)
         + Listing.pages_read N 0
             (map (fun stories => Listing.size_of (passing_of stories)) pages))%nat) /\
  (forall (site : Client.Site) (client : Client.t) (profile_identifier user_id : string)
          (pages : list Page) (last : Page) (fuel : nat),
      Client.authenticated client = true ->
      Profile.extract_user_id profile_identifier = Some user_id ->
      Py.truthy user_id = true ->
      Listing.serves_profile site user_id (List.length (Client.sent client)) 1
        min_duration pages last ->
      Listing.ends min_duration last ->
      (List.length pages < fuel)%nat ->
      let available :=
        flat_map (Listing.page_passing min_duration) (pages ++ [last])%list in
      exists videos client',
        Profile.get_profile_videos fuel site client profile_identifier min_duration (Some N)
          = Some (Ok videos, client') /\
        videos = firstn (Z.to_nat N) available /\
        Z.of_nat (List.length videos) = Z.min N (Z.of_nat (List.length available)) /\
        List.length (Client.sent client') =
        (List.length (Client.sent client)
         + Listing.pages_read N 0
             (map (fun page => Listing.size_of (Listing.page_passing min_duration page))
                pages))%nat).
Proof.
  intros HN.
  assert (L : forall (l : list Search.VideoInfo),
             Z.of_nat (List.length (firstn (Z.to_nat N) l))
             = Z.min N (Z.of_nat (List.length l))).
  { intros l. rewrite List.length_firstn. lia. }
  split.
  - intros site client query page pages last fuel Hauth Hserves Hlast Hfuel
      passing_of available.
    unfold Search.search_videos. rewrite Hauth. cbn [negb].
    destruct (search_pages_run min_duration N HN site query last pages Hlast
                page [] client fuel) as (client' & E & R);
      [exact HN | exact Hserves | exact Hfuel |].
    exists (firstn (Z.to_nat N) available), client'.
    split; [exact E|]. split; [reflexivity|]. split; [apply L | exact R].
  - intros site client pid uid pages last fuel Hauth Hid Huid Hserves Hlast Hfuel available.
    unfold Profile.get_profile_videos. rewrite Hauth, Hid, Huid. cbn [negb].
    rewrite Huid.
    destruct (profile_pages_run min_duration N HN site uid last pages Hlast
                1 [] client fuel) as (client' & E & R);
      [exact HN | exact Hserves | exact Hfuel |].
    exists (firstn (Z.to_nat N) available), client'.
    split; [exact E|]. split; [reflexivity|]. split; [apply L | exact R].
Qed.

Lemma paginator_limit_witness :
  exists videos client',
    Search.search_videos 3 (Sample.site_of (map Sample.search_page Sample.two_by_two))
      Sample.logged_in "rope" 0 (Some 3) 1 = Some (Ok videos, client') /\
    Z.of_nat (List.length videos) = 3 /\
    List.length (Client.sent client') = 2%nat.
Proof.
  destruct (proj1 (paginator_limit 0 3 eq_refl)
              (Sample.site_of (map Sample.search_page Sample.two_by_two))
              Sample.logged_in "rope" 1 Sample.two_by_two Sample.blank_page 3%nat)
    as (videos & client' & E & _ & Hlen & Hsent).
  - reflexivity.
  - simpl. repeat split; try discriminate; eexists; split; reflexivity.
  - exact I.
  - simpl. lia.
  - exists videos, client'. split; [exact E|]. split.
    + rewrite Hlen. vm_compute. reflexivity.
    + rewrite Hsent. vm_compute. reflexivity.
Defined.

(** * Further properties *)

(** ** src/utils.py: format_duration and parse_duration together *)

Section DurationRoundTrip.

Import Utils DurationGrammar.

Lemma value_from_app (acc : Z) (a b : string) :
  value_from acc (a ++ b) = value_from (value_from acc a) b.
Proof.
  revert acc. induction a as [|c a IH]; intros acc; [reflexivity|].
  rewrite append_cons. simpl. apply IH.
Qed.

Lemma uint_string_decimal (d : Decimal.uint) :
  Py.all_chars Py.isdecimal (NilEmpty.string_of_uint d) = true.
Proof. induction d; simpl; auto. Qed.

Lemma uint_string_value_acc (d : Decimal.uint) (acc : positive) :
  value_from (Z.pos acc) (NilEmpty.string_of_uint d) = Z.pos (Pos.of_uint_acc d acc).
Proof.
  revert acc. induction d; intros acc; simpl; [reflexivity| ..];
    rewrite <- IHd; f_equal; unfold Py.digit_value; simpl; lia.
Qed.

Lemma uint_string_value (d : Decimal.uint) :
  value_from 0 (NilEmpty.string_of_uint d) = Z.of_N (Pos.of_uint d).
Proof.
  induction d; simpl; [reflexivity | exact IHd | ..];
    apply (uint_string_value_acc d).
Qed.

(** [str] of a natural number is the number written in decimal digits. *)
Lemma str_of_int_digits (n : Z) :
  0 <= n -> digits (Py.str_of_int n) = true /\ value (Py.str_of_int n) = n.
Proof.
  intros Hn. destruct n as [|p|p]; [split; reflexivity | | lia].
  unfold Py.str_of_int, value. simpl.
  pose proof (DecimalPos.Unsigned.to_uint_nonnil p) as Hnil.
  pose proof (DecimalPos.Unsigned.of_to p) as Hof.
  pose proof (uint_string_decimal (Pos.to_uint p)) as Hdec.
  pose proof (uint_string_value (Pos.to_uint p)) as Hval.
  unfold NilZero.string_of_uint.
  destruct (Pos.to_uint p) eqn:E; try congruence;
    (split; [unfold digits; rewrite Hdec; reflexivity | rewrite Hval, Hof; reflexivity]).
Qed.

Lemma zeros_value (k : nat) (s : string) :
  value_from 0 (Py.zeros k ++ s) = value_from 0 s.
Proof. induction k as [|k IH]; [reflexivity|]. simpl. exact IH. Qed.

(** The two-digit format of a natural number is that number in decimal
    digits too. *)
Lemma format_02d_digits (n : Z) :
  0 <= n -> digits (Py.format_02d n) = true /\ value (Py.format_02d n) = n.
Proof.
  intros Hn. destruct (str_of_int_digits n Hn) as [D V].
  unfold Py.format_02d.
  replace (n <? 0) with false by (symmetry; apply Z.ltb_ge; lia).
  rewrite (Z.abs_eq n Hn), append_nil_l.
  set (k := (2 - _)%nat). split.
  - destruct (digits_inv _ D) as [Hne Ha]. unfold digits.
    rewrite all_chars_app, Ha, andb_true_r.
    assert (Z : Py.all_chars Py.isdecimal (Py.zeros k) = true)
      by (clear; induction k; simpl; auto).
    rewrite Z, andb_true_r.
    destruct k; [|reflexivity]. simpl.
    destruct (Py.str_of_int n); [congruence | reflexivity].
  - unfold value. rewrite (zeros_value k). exact V.
Qed.

Lemma digits_no_space (d : string) :
  digits d = true -> Py.any_char Py.isspace d = false.
Proof.
  intros D. apply (any_char_weaken literal_extra _ d isspace_extra).
  apply digits_plain, digits_inv, D.
Qed.

(** A text accepted by the grammar and free of blanks is parsed to its
    value. *)
Lemma parse_duration_of_text (t : string) (n : Z) :
  Py.any_char Py.isspace t = false -> t <> EmptyString -> accepts t n ->
  parse_duration t = Ok n.
Proof.
  intros Hs Hne Ha. apply parse_duration_accepts; [exact Hne|].
  unfold Py.strip. rewrite (strip_by_id Py.isspace t Hs). exact Ha.
Qed.

End DurationRoundTrip.

(** X1. For every duration of zero seconds or more, parsing what
    [format_duration] prints gives the duration back. *)
Theorem parse_format_duration (seconds : Z) :
  0 <= seconds ->
  Utils.parse_duration (Utils.format_duration seconds) = Ok seconds.
Proof.
  intros Hn. unfold Utils.format_duration.
  destruct (Z.ltb_spec seconds 60) as [H60|H60].
  - destruct (str_of_int_digits seconds Hn) as [D V].
    apply parse_duration_of_text.
    + rewrite any_char_app, (digits_no_space _ D). reflexivity.
    + destruct (Py.str_of_int seconds); discriminate.
    + pose proof (DurationGrammar.shorthand None None (Some (Py.str_of_int seconds))
                    eq_refl eq_refl D eq_refl) as A.
      simpl in A. rewrite V in A. exact A.
  - assert (Hm : 0 <= seconds / 60) by (apply Z.div_pos; lia).
    pose proof (Z.mod_pos_bound seconds 60 ltac:(lia)) as Hs.
    pose proof (Z.div_mod seconds 60 ltac:(lia)) as Hdm.
    destruct (format_02d_digits (seconds mod 60) ltac:(lia)) as [Ds Vs].
    destruct (Z.ltb_spec (seconds / 60) 60) as [H3600|H3600].
    + destruct (str_of_int_digits (seconds / 60) Hm) as [Dm Vm].
      apply parse_duration_of_text.
      * rewrite !any_char_app, (digits_no_space _ Dm), (digits_no_space _ Ds).
        reflexivity.
      * destruct (Py.str_of_int (seconds / 60)); discriminate.
      * pose proof (DurationGrammar.minutes_seconds _ _ Dm Ds) as A.
        rewrite Vm, Vs in A.
        replace (seconds / 60 * 60 + seconds mod 60) with seconds in A by lia.
        exact A.
    + assert (Hh : 0 <= seconds / 60 / 60) by (apply Z.div_pos; lia).
      pose proof (Z.mod_pos_bound (seconds / 60) 60 ltac:(lia)) as Hmi.
      pose proof (Z.div_mod (seconds / 60) 60 ltac:(lia)) as Hdm2.
      destruct (str_of_int_digits (seconds / 60 / 60) Hh) as [Dh Vh].
      destruct (format_02d_digits ((seconds / 60) mod 60) ltac:(lia)) as [Dm Vm].
      apply parse_duration_of_text.
      * rewrite !any_char_app, (digits_no_space _ Dh), (digits_no_space _ Dm),
          (digits_no_space _ Ds). reflexivity.
      * destruct (Py.str_of_int (seconds / 60 / 60)); discriminate.
      * pose proof (DurationGrammar.hours_minutes_seconds _ _ _ Dh Dm Ds) as A.
        rewrite Vh, Vm, Vs in A.
        replace (seconds / 60 / 60 * 3600 + (seconds / 60) mod 60 * 60 + seconds mod 60)
          with seconds in A by lia.
        exact A.
Qed.

Lemma parse_format_duration_witness :
  Utils.parse_duration (Utils.format_duration 86399) = Ok 86399.
Proof. exact (parse_format_duration 86399 ltac:(lia)). Defined.

(** ** src/utils.py: blanks around a duration *)

Section StripFacts.

Variable p : ascii -> bool.

Lemma lstrip_by_fixed (s : string) :
  (forall c, Py.first_char s = Some c -> p c = false) -> Py.lstrip_by p s = s.
Proof.
  destruct s as [|c s]; simpl; intros H; [reflexivity|].
  rewrite (H c eq_refl). reflexivity.
Qed.

Lemma rstrip_by_fixed (s : string) :
  (forall c, Py.last_char s = Some c -> p c = false) -> Py.rstrip_by p s = s.
Proof.
  induction s as [|c s IH]; intros H; [reflexivity|].
  destruct s as [|d t].
  - simpl. rewrite (H c eq_refl). reflexivity.
  - change (Py.rstrip_by p (String c (String d t))) with
      (match Py.rstrip_by p (String d t) with
       | EmptyString => if p c then EmptyString else String c EmptyString
       | String e u => String c (String e u)
       end).
    rewrite IH; [reflexivity|]. intros e He. apply H. exact He.
Qed.

Lemma strip_by_fixed (s : string) :
  (forall c, Py.first_char s = Some c -> p c = false) ->
  (forall c, Py.last_char s = Some c -> p c = false) ->
  Py.strip_by p s = s.
Proof.
  intros Hf Hl. unfold Py.strip_by.
  rewrite (lstrip_by_fixed s Hf). apply rstrip_by_fixed, Hl.
Qed.

(** Stripping twice is stripping once. *)
Lemma strip_by_idem (s : string) :
  Py.strip_by p (Py.strip_by p s) = Py.strip_by p s.
Proof.
  apply strip_by_fixed; unfold Py.strip_by; intros c H.
  - apply first_char_rstrip in H. apply (first_char_lstrip p _ _ H).
  - apply (last_char_rstrip p _ _ H).
Qed.

Lemma lstrip_by_all (s : string) :
  Py.all_chars p s = true -> Py.lstrip_by p s = EmptyString.
Proof.
  induction s as [|c s IH]; simpl; intros H; [reflexivity|].
  apply andb_true_iff in H as [Hc Hs]. rewrite Hc. apply IH, Hs.
Qed.

End StripFacts.

(** X2. Blanks around a duration are ignored, but a text of blanks only is
    refused: for a non-empty text, [parse_duration] raises ValueError when
    every character is a blank, and otherwise gives what it gives for the
    stripped text. *)
Theorem parse_duration_surrounding_blanks (s : string) :
  s <> EmptyString ->
  (Py.all_chars Py.isspace s = true -> Utils.parse_duration s = Raise ValueError) /\
  (Py.strip s <> EmptyString ->
   Utils.parse_duration s = Utils.parse_duration (Py.strip s)).
Proof.
  intros Hne. split.
  - intros Hall. unfold Utils.parse_duration.
    destruct s as [|c s]; [congruence|].
    change (Py.is_empty (String c s)) with false. cbv iota.
    unfold Py.strip, Py.strip_by.
    rewrite (lstrip_by_all Py.isspace _ Hall). reflexivity.
  - intros Hst. unfold Utils.parse_duration at 1 2.
    destruct s as [|c s]; [congruence|].
    change (Py.is_empty (String c s)) with false. cbv iota.
    destruct (Py.strip (String c s)) as [|d t] eqn:E; [congruence|].
    change (Py.is_empty (String d t)) with false. cbv iota.
    assert (I : Py.strip (String d t) = String d t).
    { rewrite <- E. apply strip_by_idem. }
    rewrite I. reflexivity.
Qed.

Lemma parse_duration_surrounding_blanks_witness :
  Utils.parse_duration "   " = Raise ValueError /\
  Utils.parse_duration "  1h30m " = Utils.parse_duration "1h30m".
Proof.
  split.
  - apply (parse_duration_surrounding_blanks "   "); [discriminate | reflexivity].
  - apply (parse_duration_surrounding_blanks "  1h30m "); discriminate.
Defined.

(** ** src/utils.py: what [sanitize_filename] leaves in a name *)

Section SanitizeTidy.

Import Utils.

Lemma collapsed_inv (b : bool) (c : ascii) (r : string) :
  collapsed b (String c r) = true ->
  printable c = true /\ Py.isspace c = false /\
  (if Ascii.eqb c "_" then b = false /\ collapsed true r = true
   else collapsed false r = true).
Proof.
  simpl. intros H.
  apply andb_true_iff in H as [H1 H3]. apply andb_true_iff in H1 as [H1 H2].
  apply negb_true_iff in H2. split; [exact H1|]. split; [exact H2|].
  destruct (Ascii.eqb c "_"); [|exact H3].
  apply andb_true_iff in H3 as [H3 H4]. apply negb_true_iff in H3. auto.
Qed.

Lemma collapsed_not_run (b : bool) (c : ascii) (r : string) :
  collapsed b (String c r) = true -> space_or_underscore c = Ascii.eqb c "_".
Proof.
  intros H. apply collapsed_inv in H as (_ & H & _).
  unfold space_or_underscore. rewrite H. reflexivity.
Qed.

Lemma collapsed_weaken (b : bool) (s : string) :
  collapsed b s = true -> collapsed false s = true.
Proof.
  destruct s as [|c r]; [reflexivity|]. intros H.
  apply collapsed_inv in H as (H1 & H2 & H3). simpl. rewrite H1, H2. simpl.
  destruct (Ascii.eqb c "_"); [apply H3 | exact H3].
Qed.

Lemma collapse_runs_collapsed (b : bool) (s : string) :
  Py.all_chars printable s = true -> collapsed b (collapse_runs b s) = true.
Proof.
  revert b. induction s as [|c s IH]; intros b H; [reflexivity|].
  simpl in H. apply andb_true_iff in H as [Hc Hs]. simpl.
  destruct (space_or_underscore c) eqn:E; [destruct b|].
  - apply IH, Hs.
  - simpl. apply IH, Hs.
  - unfold space_or_underscore in E. apply orb_false_iff in E as [E1 E2].
    simpl. rewrite Hc, E1, E2. simpl. apply IH, Hs.
Qed.

Lemma filter_printable (s : string) :
  Py.all_chars printable (filter_chars (fun c => (32 <=? Py.ord c)%N) s) = true.
Proof.
  induction s as [|c s IH]; simpl; [reflexivity|].
  destruct (32 <=? Py.ord c)%N eqn:E; [|exact IH].
  simpl. unfold printable at 1. rewrite E. exact IH.
Qed.

Lemma collapsed_lstrip (b : bool) (s : string) :
  collapsed b s = true -> collapsed false (Py.lstrip_by dot_or_space s) = true.
Proof.
  revert b. induction s as [|c s IH]; intros b H; [reflexivity|].
  simpl. destruct (dot_or_space c) eqn:E; [|apply (collapsed_weaken b), H].
  apply collapsed_inv in H as (_ & H2 & H3).
  destruct (Ascii.eqb c "_"); [apply (IH true), H3 | apply (IH false), H3].
Qed.

Lemma collapsed_rstrip (q : ascii -> bool) (b : bool) (s : string) :
  collapsed b s = true -> collapsed b (Py.rstrip_by q s) = true.
Proof.
  revert b. induction s as [|c s IH]; intros b H; [reflexivity|].
  pose proof (collapsed_inv _ _ _ H) as (H1 & H2 & H3).
  simpl. destruct (Py.rstrip_by q s) as [|d t] eqn:E.
  - destruct (q c); [reflexivity|]. simpl. rewrite H1, H2. simpl.
    destruct (Ascii.eqb c "_"); [|reflexivity].
    destruct H3 as [-> _]. reflexivity.
  - change (collapsed b (String c (String d t)) = true).
    cbn [collapsed]. rewrite H1, H2. cbn [negb andb].
    destruct (Ascii.eqb c "_").
    + destruct H3 as [-> H3]. apply (IH true), H3.
    + apply (IH false), H3.
Qed.

Lemma collapsed_take (n : nat) (b : bool) (s : string) :
  collapsed b s = true -> collapsed b (Py.take n s) = true.
Proof.
  revert b s. induction n as [|n IH]; intros b [|c s] H; try reflexivity.
  pose proof (collapsed_inv _ _ _ H) as (H1 & H2 & H3).
  simpl. rewrite H1, H2. simpl.
  destruct (Ascii.eqb c "_").
  - destruct H3 as [-> H3]. apply IH, H3.
  - apply IH, H3.
Qed.

(** The name is in collapsed form whatever the input and the bound. *)
Lemma sanitize_filename_collapsed (filename : string) (max_length : Z) :
  collapsed false (sanitize_filename filename max_length) = true.
Proof.
  unfold sanitize_filename.
  set (s2 := filter_chars _ _).
  assert (C4 : collapsed false (Py.strip_by dot_or_space (collapse_runs false s2)) = true).
  { unfold Py.strip_by. apply collapsed_rstrip, (collapsed_lstrip false).
    apply collapse_runs_collapsed. apply filter_printable. }
  set (s4 := Py.strip_by _ _) in *.
  assert (C5 : collapsed false
                 (if Py.len s4 >? max_length
                  then Py.rstrip_by dot_or_space (Py.slice_to s4 max_length)
                  else s4) = true).
  { destruct (Py.len s4 >? max_length); [|exact C4].
    apply collapsed_rstrip. unfold Py.slice_to.
    destruct (max_length <? 0); apply collapsed_take, C4. }
  destruct (if Py.len s4 >? max_length then _ else s4); [reflexivity | exact C5].
Qed.

Lemma collapsed_no_blank (b : bool) (s : string) :
  collapsed b s = true -> Py.any_char Py.isspace s = false.
Proof.
  revert b. induction s as [|c s IH]; intros b H; [reflexivity|].
  apply collapsed_inv in H as (_ & H2 & H3). simpl. rewrite H2. simpl.
  destruct (Ascii.eqb c "_"); [apply (IH true), H3 | apply (IH false), H3].
Qed.

Lemma collapsed_printable (b : bool) (s : string) :
  collapsed b s = true -> Py.all_chars printable s = true.
Proof.
  revert b. induction s as [|c s IH]; intros b H; [reflexivity|].
  apply collapsed_inv in H as (H1 & _ & H3). simpl. rewrite H1. simpl.
  destruct (Ascii.eqb c "_"); [apply (IH true), H3 | apply (IH false), H3].
Qed.

Lemma collapsed_no_double (b : bool) (s : string) :
  collapsed b s = true -> Py.contains "__" s = false.
Proof.
  revert b. induction s as [|c s IH]; intros b H; [reflexivity|].
  apply collapsed_inv in H as (_ & _ & H3).
  cbn [Py.contains]. apply orb_false_iff.
  destruct (Ascii.eqb_spec c "_") as [->|Hc].
  - destruct H3 as [_ H3]. split; [|apply (IH true), H3].
    destruct s as [|d s]; [reflexivity|].
    apply collapsed_inv in H3 as (_ & _ & H3).
    destruct (Ascii.eqb_spec d "_") as [->|Hd]; [destruct H3; discriminate|].
    cbn [Py.starts_with].
    rewrite (proj2 (Ascii.eqb_neq "_" d)) by congruence. reflexivity.
  - split; [|apply (IH false), H3]. cbn [Py.starts_with].
    rewrite (proj2 (Ascii.eqb_neq "_" c)) by congruence. reflexivity.
Qed.

Lemma map_replace_fixed (s : string) :
  Py.any_char invalid_char s = false -> map_chars replace_invalid s = s.
Proof.
  induction s as [|c s IH]; simpl; intros H; [reflexivity|].
  apply orb_false_iff in H as [Hc Hs].
  rewrite (IH Hs). unfold replace_invalid. rewrite Hc. reflexivity.
Qed.

Lemma filter_printable_fixed (s : string) :
  Py.all_chars printable s = true ->
  filter_chars (fun c => (32 <=? Py.ord c)%N) s = s.
Proof.
  induction s as [|c s IH]; simpl; intros H; [reflexivity|].
  apply andb_true_iff in H as [Hc Hs]. unfold printable in Hc.
  rewrite Hc, (IH Hs). reflexivity.
Qed.

Lemma collapse_runs_fixed (b : bool) (s : string) :
  collapsed b s = true -> collapse_runs b s = s.
Proof.
  revert b. induction s as [|c s IH]; intros b H; [reflexivity|].
  pose proof (collapsed_not_run _ _ _ H) as R.
  apply collapsed_inv in H as (_ & _ & H3). simpl. rewrite R.
  destruct (Ascii.eqb_spec c "_") as [->|Hc].
  - destruct H3 as [-> H3]. rewrite (IH true H3). reflexivity.
  - rewrite (IH false H3). reflexivity.
Qed.

(** A name that is safe within the bound and in collapsed form is left as
    it is. *)
Lemma sanitize_filename_fixed (r : string) (max_length : Z) :
  safe_name max_length r -> collapsed false r = true ->
  sanitize_filename r max_length = r.
Proof.
  intros (V & F & L & B & N) C. unfold sanitize_filename.
  rewrite (map_replace_fixed r V).
  rewrite (filter_printable_fixed r (collapsed_printable _ _ C)).
  rewrite (collapse_runs_fixed false r C).
  rewrite (strip_by_fixed dot_or_space r F L).
  replace (Py.len r >? max_length) with false
    by (symmetry; rewrite Z.gtb_ltb; apply Z.ltb_ge; exact B).
  destruct r; [congruence | reflexivity].
Qed.

End SanitizeTidy.

(** X3. Whatever the input and the bound, the name [sanitize_filename]
    returns has no blank character, no character below U+0020 and no two
    underscores in a row. *)
Theorem sanitize_filename_tidy (filename : string) (max_length : Z) :
  let r := Utils.sanitize_filename filename max_length in
  Py.any_char Py.isspace r = false /\
  Py.all_chars (fun c => (32 <=? Py.ord c)%N) r = true /\
  Py.contains "__" r = false.
Proof.
  intros r. pose proof (sanitize_filename_collapsed filename max_length) as C.
  fold r in C. split; [|split].
  - apply (collapsed_no_blank false), C.
  - apply (collapsed_printable false), C.
  - apply (collapsed_no_double false), C.
Qed.

(** X4. [sanitize_filename] is idempotent for every bound that leaves room
    for the placeholder name: sanitising a sanitised name changes nothing. *)
Theorem sanitize_filename_idempotent (filename : string) (max_length : Z) :
  7 <= max_length ->
  Utils.sanitize_filename (Utils.sanitize_filename filename max_length) max_length
  = Utils.sanitize_filename filename max_length.
Proof.
  intros Hm. apply sanitize_filename_fixed.
  - apply sanitize_filename_bounded, Hm.
  - apply sanitize_filename_collapsed.
Qed.

Lemma sanitize_filename_idempotent_witness :
  Utils.sanitize_filename
    (Utils.sanitize_filename " my  clip: part 1?.mp4 " Utils.default_max_length)
    Utils.default_max_length
  = Utils.sanitize_filename " my  clip: part 1?.mp4 " Utils.default_max_length.
Proof.
  apply (sanitize_filename_idempotent " my  clip: part 1?.mp4 " Utils.default_max_length).
  unfold Utils.default_max_length. lia.
Defined.

(** ** src/search.py: the links of a record read from a card *)

Section CardLinks.

Import Search.

Lemma starts_with_refl_app (pre x : string) : Py.starts_with pre (pre ++ x) = true.
Proof.
  induction pre as [|c pre IH]; [reflexivity|].
  rewrite append_cons. cbn [Py.starts_with]. rewrite Ascii.eqb_refl. exact IH.
Qed.

Lemma starts_with_app (pre a b : string) :
  Py.starts_with pre a = true -> Py.starts_with pre (a ++ b) = true.
Proof.
  revert a. induction pre as [|c pre IH]; intros a H; [reflexivity|].
  destruct a as [|d a]; [discriminate|].
  rewrite append_cons. cbn [Py.starts_with] in *.
  apply andb_true_iff in H as [H1 H2]. rewrite H1. exact (IH a H2).
Qed.

Lemma starts_with_split (pre s : string) :
  Py.starts_with pre s = true -> s = pre ++ Py.drop (String.length pre) s.
Proof.
  revert s. induction pre as [|c pre IH]; intros s H; [reflexivity|].
  destruct s as [|d s]; [discriminate|].
  cbn [Py.starts_with] in H. apply andb_true_iff in H as [H1 H2].
  apply Ascii.eqb_eq in H1 as ->.
  rewrite append_cons. cbn [String.length Py.drop]. f_equal. exact (IH s H2).
Qed.

Lemma contains_head (sub s : string) :
  Py.starts_with sub s = true -> Py.contains sub s = true.
Proof. intros H. destruct s; simpl; rewrite H; reflexivity. Qed.

Lemma contains_tail (sub : string) (c : ascii) (s : string) :
  Py.contains sub s = true -> Py.contains sub (String c s) = true.
Proof. intros H. cbn [Py.contains]. rewrite H. apply orb_true_r. Qed.

Lemma search_path_id_here (path s ds : string) :
  Py.starts_with path s = true ->
  ds = fst (Py.span Py.isdecimal (Py.drop (String.length path) s)) ->
  Py.contains (path ++ ds) s = true.
Proof.
  intros Hp ->. apply contains_head.
  rewrite (starts_with_split path s Hp) at 2.
  destruct (Py.span Py.isdecimal _) as [a b] eqn:E.
  apply span_inv in E as (-> & _ & _). simpl.
  rewrite <- append_assoc. apply starts_with_refl_app.
Qed.

(** The match of the pattern is in the text: the path followed by the
    captured digits. *)
Lemma search_path_id_contains (path s ds : string) :
  search_path_id path s = Some ds -> Py.contains (path ++ ds) s = true.
Proof.
  induction s as [|c s IH]; cbn [search_path_id].
  - destruct (Py.starts_with path EmptyString) eqn:P; [|discriminate].
    destruct (Py.truthy _); [|discriminate].
    intros [= <-]. apply search_path_id_here; [exact P | reflexivity].
  - destruct (Py.starts_with path (String c s)) eqn:P.
    + destruct (Py.truthy _).
      * intros [= <-]. apply search_path_id_here; [exact P | reflexivity].
      * intros H. apply contains_tail, IH, H.
    + intros H. apply contains_tail, IH, H.
Qed.

End CardLinks.

(** X5. In every record [parse_video_element] reads from a card, the page
    address contains /videos/ followed by the record's id, and is absolute
    when the base address is; the uploader id is a run of decimal digits
    (0 when the card names no uploader); and the record carries no stream
    address, so that it has to be looked up on the video's page. *)
Theorem card_record_links (element : Element) (base_url : string) (v : Search.VideoInfo) :
  Search.parse_video_element element base_url = Some v ->
  Py.contains ("/videos/" ++ Search.video_id v) (Search.url v) = true /\
  (Py.starts_with "http" base_url = true ->
   Py.starts_with "http" (Search.url v) = true) /\
  DurationGrammar.digits (Search.uploader_id v) = true /\
  Search.download_url v = None.
Proof.
  unfold Search.parse_video_element.
  destruct (video_link element) as [link|]; [|discriminate].
  set (u := if Py.starts_with "http" (href link) then href link
            else base_url ++ href link).
  assert (A : Py.starts_with "http" base_url = true -> Py.starts_with "http" u = true).
  { intros Hb. unfold u. destruct (Py.starts_with "http" (href link)) eqn:E;
      [exact E | apply starts_with_app, Hb]. }
  destruct (Search.search_path_id "/videos/" u) as [id|] eqn:Eid; [|discriminate].
  apply search_path_id_contains in Eid.
  assert (U : DurationGrammar.digits
                (match uploader_link element with
                 | Some ul =>
                     match Search.search_path_id "/users/" (href ul) with
                     | Some uid => uid
                     | None => "0"
                     end
                 | None => "0"
                 end) = true).
  { destruct (uploader_link element) as [ul|]; [|reflexivity].
    destruct (Search.search_path_id "/users/" (href ul)) eqn:E; [|reflexivity].
    apply (search_path_id_digits _ _ _ E). }
  destruct (uploader_link element) as [ul|];
    (match goal with
     | |- match ?d with Ok _ => _ | Raise _ => _ end = _ -> _ =>
         destruct d; [|discriminate]
     end;
     intros [= <-]; cbn [Search.video_id Search.url Search.uploader_id Search.download_url];
     auto).
Qed.

Lemma card_record_links_witness :
  exists v,
    Search.parse_video_element (Sample.card "77" "1:05") Config.base_url = Some v /\
    Py.contains ("/videos/" ++ Search.video_id v) (Search.url v) = true /\
    Search.url v = "https://fetlife.com/videos/77".
Proof.
  eexists. split; [reflexivity|]. split; [|reflexivity].
  apply (card_record_links (Sample.card "77" "1:05") Config.base_url _ eq_refl).
Defined.

(** ** src/auth.py: the token and the login exchange *)

Section TokenInPage.

Import Auth.

Lemma contains_app_r (sub a b : string) :
  Py.contains sub b = true -> Py.contains sub (a ++ b) = true.
Proof.
  intros H. induction a as [|c a IH]; [exact H|].
  rewrite append_cons. apply contains_tail, IH.
Qed.

Lemma last_char_split (s : string) (q : ascii) :
  Py.last_char s = Some q -> exists pre, s = pre ++ String q EmptyString.
Proof.
  induction s as [|c s IH]; [discriminate|].
  destruct s as [|d t].
  - intros [= ->]. exists EmptyString. reflexivity.
  - intros H. destruct (IH H) as [pre E]. exists (String c pre).
    rewrite append_cons, <- E. reflexivity.
Qed.

Lemma skip_nocase_suffix (lit s r : string) :
  skip_nocase lit s = Some r -> exists pre, s = pre ++ r.
Proof.
  revert s. induction lit as [|a lit IH]; intros s H.
  - injection H as ->. exists EmptyString. reflexivity.
  - destruct s as [|b s]; [discriminate|]. simpl in H.
    destruct (Ascii.eqb a (lower b)); [|discriminate].
    destruct (IH s H) as [pre E]. exists (String b pre).
    rewrite append_cons, <- E. reflexivity.
Qed.

Lemma quoted_suffix (w pre r : string) : quoted w r -> quoted w (pre ++ r).
Proof.
  intros (q & q' & Hq & Hq' & H). exists q, q'.
  split; [exact Hq|]. split; [exact Hq'|]. apply contains_app_r, H.
Qed.

Lemma quoted_word_inv (s w : string) :
  quoted_word s = Some w -> token_shape w /\ quoted w s.
Proof.
  destruct s as [|q r]; [discriminate|]. unfold quoted_word.
  destruct (is_quote q) eqn:Hq; [|discriminate].
  destruct (Py.span word_or_hyphen r) as [a after] eqn:E.
  apply span_inv in E as (-> & A & _).
  destruct a as [|c a]; [discriminate|].
  destruct after as [|q' rest]; [discriminate|].
  destruct (is_quote q') eqn:Hq'; [|discriminate].
  intros [= <-]. split; [split; [discriminate | exact A]|].
  exists q, q'. split; [exact Hq|]. split; [exact Hq'|].
  apply contains_head.
  replace (String q (String c a ++ String q' rest))
    with (String q (String c a ++ String q' EmptyString) ++ rest).
  - apply starts_with_refl_app.
  - rewrite append_cons, append_assoc. reflexivity.
Qed.

Lemma after_name_inv (s w : string) :
  after_name s = Some w -> token_shape w /\ quoted w s.
Proof.
  unfold after_name.
  destruct (Py.span separator s) as [run rest] eqn:E.
  apply span_inv in E as (-> & _ & _).
  destruct run as [|c run]; [discriminate|].
  destruct (quoted_word rest) as [w'|] eqn:Q.
  - intros [= <-]. apply quoted_word_inv in Q as [T Q].
    split; [exact T | apply quoted_suffix, Q].
  - destruct (Py.last_char (String c run)) as [q|] eqn:L; [|discriminate].
    destruct run as [|d run]; [discriminate|].
    destruct (Ascii.eqb q Utils.double_quote); [|discriminate].
    intros H. apply quoted_word_inv in H as [T H]. split; [exact T|].
    destruct (last_char_split _ _ L) as [pre ->].
    rewrite append_assoc. apply quoted_suffix. exact H.
Qed.

Lemma csrf_match_here_inv (s w : string) :
  csrf_match_here s = Some w -> token_shape w /\ quoted w s.
Proof.
  unfold csrf_match_here.
  destruct (skip_nocase "csrf" s) as [s1|] eqn:E1; [|discriminate].
  apply skip_nocase_suffix in E1 as [p1 ->].
  set (s2 := match s1 with
             | String c r => if Ascii.eqb c "_" || Ascii.eqb c "-" then r else s1
             | EmptyString => s1
             end).
  assert (S2 : exists p2, s1 = p2 ++ s2).
  { unfold s2. destruct s1 as [|c r]; [exists EmptyString; reflexivity|].
    destruct (Ascii.eqb c "_" || Ascii.eqb c "-");
      [exists (String c EmptyString) | exists EmptyString]; reflexivity. }
  destruct S2 as [p2 S2].
  destruct (skip_nocase "token" s2) as [s3|] eqn:E3; [|discriminate].
  apply skip_nocase_suffix in E3 as [p3 E3].
  intros H. apply after_name_inv in H as [T H]. split; [exact T|].
  rewrite S2, E3. do 3 apply quoted_suffix. exact H.
Qed.

Lemma csrf_search_inv (html w : string) :
  csrf_search html = Some w -> token_shape w /\ quoted w html.
Proof.
  induction html as [|c html IH]; cbn [csrf_search].
  - destruct (csrf_match_here EmptyString) eqn:E; [|discriminate].
    intros [= <-]. apply csrf_match_here_inv, E.
  - destruct (csrf_match_here (String c html)) eqn:E.
    + intros [= <-]. apply csrf_match_here_inv, E.
    + intros H. destruct (IH H) as [T Q]. split; [exact T|].
      apply (quoted_suffix w (String c EmptyString) html Q).
Qed.

Lemma present_inv (v : option string) (x : string) :
  present v = Some x -> v = Some x /\ x <> EmptyString.
Proof.
  destruct v as [y|]; [|discriminate]. simpl.
  destruct y; [discriminate|]. intros [= <-]. split; [reflexivity | discriminate].
Qed.

Lemma extract_csrf_token_nonempty (page : Page) (token : string) :
  extract_csrf_token page = Some token -> token <> EmptyString.
Proof.
  unfold extract_csrf_token.
  destruct (present (meta_csrf_content page)) eqn:M.
  { intros [= <-]. apply (present_inv _ _ M). }
  destruct (present (input_csrf_value page)) eqn:I.
  { intros [= <-]. apply (present_inv _ _ I). }
  intros H. apply csrf_search_inv in H as [[T _] _]. exact T.
Qed.

End TokenInPage.

(** X6. A token [extract_csrf_token] returns is never empty; and one found
    by the script pattern (when the meta tag and the hidden input give
    nothing) is a run of word characters and hyphens that stands in the
    page text between two quote characters. *)
Theorem extract_csrf_token_sound (page : Page) (token : string) :
  Auth.extract_csrf_token page = Some token ->
  token <> EmptyString /\
  (Auth.present (meta_csrf_content page) = None ->
   Auth.present (input_csrf_value page) = None ->
   Py.all_chars Auth.word_or_hyphen token = true /\
   exists q q', Auth.is_quote q = true /\ Auth.is_quote q' = true /\
     Py.contains (String q (token ++ String q' EmptyString)) (text page) = true).
Proof.
  intros H. split; [apply (extract_csrf_token_nonempty page token H)|].
  intros M I. unfold Auth.extract_csrf_token in H. rewrite M, I in H.
  apply csrf_search_inv in H as [[_ A] Q]. split; [exact A | exact Q].
Qed.

Lemma extract_csrf_token_sound_witness :
  Auth.extract_csrf_token Scenario.script_login_page = Some "abc-123" /\
  "abc-123" <> EmptyString.
Proof.
  split; [reflexivity|].
  apply (extract_csrf_token_sound Scenario.script_login_page "abc-123" eq_refl).
Defined.

Section LoginExchange.

Import Auth.

Variable client : Client.t.

Lemma second_request_index (r : Client.Request) :
  List.length (Client.sent client ++ [r]) = S (List.length (Client.sent client)).
Proof. rewrite length_app. simpl. lia. Qed.

Lemma present_token (page : Page) :
  present (extract_csrf_token page) = extract_csrf_token page.
Proof.
  destruct (extract_csrf_token page) as [token|] eqn:E; [|reflexivity].
  pose proof (extract_csrf_token_nonempty page token E) as N.
  destruct token; [congruence | reflexivity].
Qed.

End LoginExchange.

(** X7. [authenticate] either returns True or raises AuthenticationError,
    nothing else. It returns True only after a GET of the login page that
    yields a token and a POST of the login form with that token and the
    credentials which is answered with status 200 at an address containing
    /home; the client is then marked authenticated, holds the token and has
    sent exactly these two requests. When it raises, the authenticated
    mark of the client is as it was before. *)
Theorem authenticate_exchange (site : Client.Site) (client : Client.t)
    (username password : option string) :
  let '(outcome, client') := Auth.authenticate site client username password in
  (outcome = Ok true /\
   exists user pass login_page token answer,
     Auth.present username = Some user /\ Auth.present password = Some pass /\
     site (List.length (Client.sent client)) (Client.GET Config.login_url)
       = Some login_page /\
     Auth.extract_csrf_token login_page = Some token /\
     site (S (List.length (Client.sent client)))
       (Client.POST Config.login_url (Auth.login_data token user pass))
       = Some answer /\
     status_code answer = 200 /\
     Py.contains "/home" (final_url answer) = true /\
     client' = {| Client.sent :=
                    (Client.sent client ++ [Client.GET Config.login_url])
                    ++ [Client.POST Config.login_url (Auth.login_data token user pass)];
                  Client.csrf_token := Some token;
                  Client.authenticated := true |})
  \/
  (outcome = Raise AuthenticationError /\
   Client.authenticated client' = Client.authenticated client).
Proof.
  unfold Auth.authenticate.
  destruct (Auth.present username) as [user|] eqn:U; [|right; split; reflexivity].
  destruct (Auth.present password) as [pass|] eqn:P; [|right; split; reflexivity].
  unfold Client.get, Client.send.
  destruct (site (List.length (Client.sent client)) (Client.GET Config.login_url))
    as [login_page|] eqn:G; [|right; split; reflexivity].
  rewrite present_token.
  destruct (Auth.extract_csrf_token login_page) as [token|] eqn:T;
    [|right; split; reflexivity].
  unfold Client.post, Client.send. cbn [Client.sent Auth.set_csrf_token Client.after].
  rewrite second_request_index.
  destruct (site (S (List.length (Client.sent client))) _) as [answer|] eqn:A;
    [|right; split; reflexivity].
  destruct (status_code answer =? 200) eqn:S200; [|right; split; reflexivity].
  destruct (Py.contains "/home" (final_url answer)) eqn:H; [|right; split; reflexivity].
  left. split; [reflexivity|].
  exists user, pass, login_page, token, answer.
  apply Z.eqb_eq in S200.
  repeat (split; [first [assumption | reflexivity]|]). reflexivity.
Qed.

(** X8. With a user name and a password that are not empty, a login page
    that yields a token, and an answer to the form with status 200 at an
    address containing /home, [authenticate] returns True and leaves the
    client authenticated, with the token, after exactly the two requests. *)
Theorem authenticate_accepts (site : Client.Site) (client : Client.t)
    (user pass token : string) (login_page answer : Page) :
  user <> EmptyString -> pass <> EmptyString ->
  site (List.length (Client.sent client)) (Client.GET Config.login_url)
    = Some login_page ->
  Auth.extract_csrf_token login_page = Some token ->
  site (S (List.length (Client.sent client)))
    (Client.POST Config.login_url (Auth.login_data token user pass)) = Some answer ->
  status_code answer = 200 ->
  Py.contains "/home" (final_url answer) = true ->
  Auth.authenticate site client (Some user) (Some pass) =
    (Ok true,
     {| Client.sent :=
          (Client.sent client ++ [Client.GET Config.login_url])
          ++ [Client.POST Config.login_url (Auth.login_data token user pass)];
        Client.csrf_token := Some token;
        Client.authenticated := true |}).
Proof.
  intros U P G T A S200 H. unfold Auth.authenticate.
  destruct user as [|u0 user]; [congruence|].
  destruct pass as [|p0 pass]; [congruence|].
  cbn [Auth.present Py.truthy Py.is_empty negb].
  unfold Client.get, Client.send. rewrite G, present_token, T.
  unfold Client.post, Client.send. cbn [Client.sent Auth.set_csrf_token Client.after].
  rewrite second_request_index, A, S200, H. reflexivity.
Qed.

Lemma authenticate_accepts_witness :
  fst (Auth.authenticate Scenario.login_site Client.new (Some "alice") (Some "secret"))
  = Ok true.
Proof.
  rewrite (authenticate_accepts Scenario.login_site Client.new "alice" "secret" "abc-123"
             Scenario.script_login_page Scenario.home_page);
    [reflexivity | discriminate | discriminate | reflexivity | reflexivity
     | reflexivity | reflexivity | reflexivity].
Defined.

(** ** src/search.py and src/profile.py: what the listings return *)

Section ListingSafety.

Import Search Listing.

Variable min_duration : Z.
Variable limit : option Z.

Lemma Forall_firstn_keeps {A : Type} (P : A -> Prop) (n : nat) (l : list A) :
  Forall P l -> Forall P (firstn n l).
Proof.
  intros H. revert n. induction H as [|x l Hx Hl IH]; intros [|n]; simpl;
    constructor; auto.
Qed.

Lemma list_slice_to_keeps {A : Type} (P : A -> Prop) (l : list A) (k : Z) :
  Forall P l -> Forall P (Py.list_slice_to l k).
Proof.
  intros H. unfold Py.list_slice_to.
  destruct (k <? 0); apply Forall_firstn_keeps, H.
Qed.

Lemma keep_passes (videos page_videos : list VideoInfo) (v : VideoInfo) :
  Forall (passes min_duration) videos -> Forall (passes min_duration) page_videos ->
  match keep min_duration limit videos page_videos v with
  | Reached vs => Forall (passes min_duration) vs
  | Scanned page_videos' => Forall (passes min_duration) page_videos'
  | Failed _ => True
  end.
Proof.
  intros Hv Hp. unfold keep.
  destruct (filtered_out min_duration v) eqn:F; [exact Hp|].
  assert (Hp' : Forall (passes min_duration) (page_videos ++ [v])).
  { apply Forall_app. split; [exact Hp|]. constructor; [exact F | constructor]. }
  destruct (limit_reached limit videos (page_videos ++ [v])); [|exact Hp'].
  apply Forall_app. split; [exact Hv | apply list_slice_to_keeps, Hp'].
Qed.

Lemma scan_records_passes (videos records page_videos : list VideoInfo) :
  Forall (passes min_duration) videos -> Forall (passes min_duration) page_videos ->
  match scan_records min_duration limit videos page_videos records with
  | Reached vs => Forall (passes min_duration) vs
  | Scanned page_videos' => Forall (passes min_duration) page_videos'
  | Failed _ => True
  end.
Proof.
  intros Hv. revert page_videos.
  induction records as [|r records IH]; intros page_videos Hp; [exact Hp|].
  cbn [scan_records]. pose proof (keep_passes videos page_videos r Hv Hp) as K.
  destruct (keep min_duration limit videos page_videos r) as [vs|pv|e];
    [exact K | apply IH, K | exact I].
Qed.

(** One page, read into an empty page list: what is returned is within the
    limit, and what is carried on leaves room under it. *)
Lemma scan_records_outcome (videos records : list VideoInfo) :
  Forall (passes min_duration) videos -> room limit videos ->
  match scan_records min_duration limit videos [] records with
  | Reached vs => Forall (passes min_duration) vs /\ within limit vs
  | Scanned page_videos =>
      Forall (passes min_duration) (videos ++ page_videos) /\
      room limit (videos ++ page_videos)
  | Failed _ => True
  end.
Proof.
  intros Hv Hr.
  pose proof (scan_records_passes videos records [] Hv (List.Forall_nil _)) as P.
  destruct (scan_records min_duration limit videos [] records) as [vs|pv|e] eqn:E;
    [| |exact I].
  - split; [exact P|]. intros N -> HN.
    rewrite (scan_records_limit min_duration N HN videos records [])
      in E by (specialize (Hr N eq_refl HN); simpl; lia).
    destruct (_ >=? N); [|discriminate].
    injection E as <-. rewrite List.length_firstn. lia.
  - split; [apply Forall_app; split; assumption|]. intros N -> HN.
    rewrite (scan_records_limit min_duration N HN videos records [])
      in E by (specialize (Hr N eq_refl HN); simpl; lia).
    match type of E with
    | context [?x >=? N] => destruct (Z.geb_spec x N) as [G|G]
    end; [discriminate|].
    injection E as <-. rewrite List.length_app. simpl in *. lia.
Qed.

Lemma room_within (videos : list VideoInfo) : room limit videos -> within limit videos.
Proof. intros H N E HN. specialize (H N E HN). lia. Qed.

Lemma room_nil : room limit [].
Proof. intros N _ HN. simpl. lia. Qed.

Variable site : Client.Site.

Lemma search_pages_safe (query : string) (fuel : nat) :
  forall (current_page : Z) (videos : list VideoInfo) (client : Client.t)
         (vs : list VideoInfo) (client' : Client.t),
    Forall (passes min_duration) videos -> room limit videos ->
    search_pages fuel site query min_duration limit current_page videos client
      = Some (Ok vs, client') ->
    Forall (passes min_duration) vs /\ within limit vs.
Proof.
  induction fuel as [|fuel IH]; intros current_page videos client vs client' Hv Hr;
    [discriminate|].
  cbn [search_pages]. unfold Client.get, Client.send.
  destruct (site _ _) as [page|]; [|discriminate].
  assert (Stop : Some (Ok videos, Client.after (Client.GET (search_url query current_page))
                                    client) = Some (Ok vs, client') ->
                 Forall (passes min_duration) vs /\ within limit vs).
  { intros [= <- <-]. split; [exact Hv | apply room_within, Hr]. }
  destruct (video_search_stories page) as [| | |[|story stories]]; try exact Stop.
  rewrite scan_stories_records.
  pose proof (scan_records_outcome videos (of_stories (story :: stories)) Hv Hr) as O.
  destruct (scan_records _ _ _ _ _) as [found|pv|e].
  - intros [= <- <-]. exact O.
  - destruct O as [O1 O2]. apply IH; assumption.
  - discriminate.
Qed.

Lemma profile_pages_safe (user_id : string) (fuel : nat) :
  forall (page_number : Z) (videos : list VideoInfo) (client : Client.t)
         (vs : list VideoInfo) (client' : Client.t),
    Forall (passes min_duration) videos -> room limit videos ->
    Profile.profile_pages fuel site user_id min_duration limit page_number videos client
      = Some (Ok vs, client') ->
    Forall (passes min_duration) vs /\ within limit vs.
Proof.
  induction fuel as [|fuel IH]; intros page_number videos client vs client' Hv Hr;
    [discriminate|].
  cbn [Profile.profile_pages]. unfold Client.get, Client.send.
  destruct (site _ _) as [page|]; [|discriminate].
  destruct (Profile.video_elements page) as [|element elements].
  { intros [= <- <-]. split; [exact Hv | apply room_within, Hr]. }
  rewrite scan_elements_records.
  pose proof (scan_records_outcome videos (of_elements (element :: elements)) Hv Hr) as O.
  destruct (scan_records _ _ _ _ _) as [found|[|v pv]|e].
  - intros [= <- <-]. exact O.
  - intros [= <- <-]. split; [exact Hv | apply room_within, Hr].
  - destruct O as [O1 O2]. destruct (next_link page).
    + apply IH; assumption.
    + intros [= <- <-]. split; [exact O1 | apply room_within, O2].
  - discriminate.
Qed.

End ListingSafety.

Section EntryPoints.

Variable min_duration : Z.
Variable limit : option Z.
Variable site : Client.Site.

Lemma search_videos_safe (fuel : nat) (client client' : Client.t) (query : string)
    (page : Z) (videos : list Search.VideoInfo) :
  Search.search_videos fuel site client query min_duration limit page
    = Some (Ok videos, client') ->
  Forall (passes min_duration) videos /\ within limit videos.
Proof.
  unfold Search.search_videos.
  destruct (negb (Client.authenticated client)); [discriminate|].
  apply search_pages_safe; [constructor | apply room_nil].
Qed.

Lemma get_profile_videos_safe (fuel : nat) (client client' : Client.t)
    (profile_identifier : string) (videos : list Search.VideoInfo) :
  Profile.get_profile_videos fuel site client profile_identifier min_duration limit
    = Some (Ok videos, client') ->
  Forall (passes min_duration) videos /\ within limit videos.
Proof.
  unfold Profile.get_profile_videos.
  destruct (negb (Client.authenticated client)); [discriminate|].
  destruct (match Profile.extract_user_id profile_identifier with
            | Some uid =>
                if Py.truthy uid then (Some uid, client)
                else Profile.get_user_id_from_nickname site client profile_identifier
            | None => Profile.get_user_id_from_nickname site client profile_identifier
            end) as [[uid|] c]; [|discriminate].
  destruct (Py.truthy uid); [|discriminate].
  apply profile_pages_safe; [constructor | apply room_nil].
Qed.

End EntryPoints.

(** X9. Whatever the site answers and however many pages are read, a list
    of records returned by [search_videos] or by [get_profile_videos] holds
    only records that pass the minimum-duration filter, and under a
    positive limit N it holds at most N of them. *)
Theorem listing_results_filtered_and_bounded (min_duration : Z) (limit : option Z)
    (site : Client.Site) (client client' : Client.t) (fuel : nat)
    (videos : list Search.VideoInfo) :
  (forall (query : string) (page : Z),
      Search.search_videos fuel site client query min_duration limit page
        = Some (Ok videos, client') ->
      Forall (passes min_duration) videos /\ within limit videos) /\
  (forall (profile_identifier : string),
      Profile.get_profile_videos fuel site client profile_identifier min_duration limit
        = Some (Ok videos, client') ->
      Forall (passes min_duration) videos /\ within limit videos).
Proof.
  split.
  - intros query page. apply search_videos_safe.
  - intros profile_identifier. apply get_profile_videos_safe.
Qed.

Lemma listing_results_filtered_and_bounded_witness :
  exists videos client',
    Search.search_videos 3 (Sample.site_of (map Sample.search_page Sample.two_by_two))
      Sample.logged_in "rope" 150 (Some 2) 1 = Some (Ok videos, client') /\
    Forall (passes 150) videos /\ Z.of_nat (List.length videos) <= 2.
Proof.
  destruct (Search.search_videos 3 (Sample.site_of (map Sample.search_page Sample.two_by_two))
              Sample.logged_in "rope" 150 (Some 2) 1) as [[[videos|e] client']|] eqn:E;
    [|vm_compute in E; discriminate..].
  exists videos, client'. split; [reflexivity|].
  destruct (proj1 (listing_results_filtered_and_bounded 150 (Some 2)
                     (Sample.site_of (map Sample.search_page Sample.two_by_two))
                     Sample.logged_in client' 3 videos) "rope" 1 E) as [F W].
  split; [exact F | apply (W 2 eq_refl); lia].
Defined.

(** ** src/profile.py: from the identifier to the user id *)

Section UserId.

Import Search.

(** An id read off the identifier is never empty. *)
Lemma extract_user_id_truthy (profile_identifier user_id : string) :
  Profile.extract_user_id profile_identifier = Some user_id ->
  Py.truthy user_id = true.
Proof.
  unfold Profile.extract_user_id.
  destruct (Py.isdigit profile_identifier) eqn:D.
  - intros [= <-]. unfold Py.isdigit in D. apply andb_true_iff in D as [D _]. exact D.
  - intros H. apply search_path_id_digits in H.
    unfold DurationGrammar.digits in H. apply andb_true_iff in H as [H _]. exact H.
Qed.

End UserId.

Section WithoutLimit.

Import Search Listing.
Local Open Scope list_scope.

Variable min_duration : Z.
Variable limit : option Z.
Hypothesis no_limit : unlimited limit.

Lemma limit_reached_unlimited (videos page_videos : list VideoInfo) :
  limit_reached limit videos page_videos = None.
Proof. destruct no_limit as [-> | ->]; reflexivity. Qed.

(** Without a limit the walk over a page collects every record that
    passes the filter. *)
Lemma scan_records_unlimited (videos records page_videos : list VideoInfo) :
  scan_records min_duration limit videos page_videos records =
  Scanned (page_videos ++ passing min_duration records).
Proof.
  revert page_videos. induction records as [|r records IH]; intros page_videos.
  - cbn [scan_records passing List.filter]. rewrite app_nil_r. reflexivity.
  - unfold passing. cbn [List.filter scan_records]. fold (passing min_duration records).
    unfold keep. destruct (filtered_out min_duration r); cbn [negb]; [apply IH|].
    rewrite limit_reached_unlimited, IH, <- app_assoc. reflexivity.
Qed.

Variable site : Client.Site.

Lemma search_pages_all (query : string) (last : Page) (pages : list (list Story)) :
  no_stories last ->
  forall (current_page : Z) (found : list VideoInfo) (client : Client.t) (fuel : nat),
    serves_search site query (List.length (Client.sent client)) current_page pages last ->
    (List.length pages < fuel)%nat ->
    exists client',
      search_pages fuel site query min_duration limit current_page found client =
      Some (Ok (found ++ flat_map (fun stories => passing min_duration (of_stories stories))
                           pages),
            client') /\
      List.length (Client.sent client') =
      (List.length (Client.sent client) + S (List.length pages))%nat.
Proof.
  intros Hlast. induction pages as [|stories rest IH];
    intros current_page found client fuel Hserves Hfuel;
    (destruct fuel as [|fuel]; [simpl in Hfuel; lia|]).
  - simpl in Hserves. rewrite (search_pages_step _ _ _ _ _ _ _ _ _ Hserves).
    cbn zeta. unfold no_stories in Hlast. cbn [flat_map List.length].
    rewrite app_nil_r.
    exists (Client.after (Client.GET (search_url query current_page)) client).
    split; [|rewrite sent_after; lia].
    destruct (video_search_stories last) as [| | |[|story stories]];
      try contradiction; reflexivity.
  - destruct Hserves as ((page & Hpage & Hstories) & Hne & Hrest).
    rewrite (search_pages_step _ _ _ _ _ _ _ _ _ Hpage). cbn zeta.
    rewrite Hstories. destruct stories as [|story stories]; [congruence|].
    rewrite scan_records_unlimited. cbn [app].
    destruct (IH (current_page + 1)
                (found ++ passing min_duration (of_stories (story :: stories)))
                (Client.after (Client.GET (search_url query current_page)) client) fuel)
      as (client' & E & L).
    + rewrite sent_after. exact Hrest.
    + simpl in Hfuel. lia.
    + exists client'. cbn [flat_map List.length]. rewrite app_assoc.
      split; [exact E|]. rewrite L, sent_after. lia.
Qed.

Lemma profile_pages_all (user_id : string) (last : Page) (pages : list Page) :
  ends min_duration last ->
  forall (page_number : Z) (found : list VideoInfo) (client : Client.t) (fuel : nat),
    serves_profile site user_id (List.length (Client.sent client)) page_number
      min_duration pages last ->
    (List.length pages < fuel)%nat ->
    exists client',
      Profile.profile_pages fuel site user_id min_duration limit page_number found client =
      Some (Ok (found ++ flat_map (page_passing min_duration) (pages ++ [last])),
            client') /\
      List.length (Client.sent client') =
      (List.length (Client.sent client) + S (List.length pages))%nat.
Proof.
  intros Hlast. induction pages as [|page rest IH];
    intros page_number found client fuel Hserves Hfuel;
    (destruct fuel as [|fuel]; [simpl in Hfuel; lia|]).
  - simpl in Hserves. rewrite (profile_pages_step _ _ _ _ _ _ _ _ _ Hserves).
    cbn zeta. cbn [app flat_map List.length]. rewrite app_nil_r.
    exists (Client.after (Client.GET (Profile.videos_url user_id page_number)) client).
    split; [|rewrite sent_after; lia].
    unfold ends, page_passing in *.
    destruct (Profile.video_elements last) as [|element elements].
    + cbn [of_elements flat_map passing List.filter]. rewrite app_nil_r. reflexivity.
    + rewrite scan_records_unlimited. cbn [app].
      destruct Hlast as [E | E].
      * rewrite E, app_nil_r. reflexivity.
      * rewrite E. destruct (passing _ _); [rewrite app_nil_r|]; reflexivity.
  - destruct Hserves as (Hpage & (Hpass & Hnext) & Hrest).
    rewrite (profile_pages_step _ _ _ _ _ _ _ _ _ Hpage). cbn zeta.
    unfold page_passing in Hpass.
    destruct (Profile.video_elements page) as [|element elements] eqn:Hel;
      [exfalso; apply Hpass; reflexivity|].
    rewrite scan_records_unlimited. cbn [app]. rewrite Hnext.
    destruct (IH (page_number + 1)
                (found ++ passing min_duration (of_elements (element :: elements)))
                (Client.after (Client.GET (Profile.videos_url user_id page_number)) client)
                fuel) as (client' & E & L).
    + rewrite sent_after. exact Hrest.
    + simpl in Hfuel. lia.
    + exists client'. cbn [app flat_map List.length].
      unfold page_passing at 1. rewrite Hel, app_assoc. split.
      * destruct (passing min_duration (of_elements (element :: elements)));
          [congruence | exact E].
      * rewrite L, sent_after. lia.
Qed.

End WithoutLimit.

(** X10. Without a limit (None, or 0, which the limit test reads as no
    limit), when the listing ends after finitely many pages, it returns
    every record that passes the filter on the pages up to the one where it
    ends, in page order, and it has fetched each of these pages once. *)
Theorem listing_without_limit (min_duration : Z) (limit : option Z) :
  unlimited limit ->
  (forall (site : Client.Site) (client : Client.t) (query : string) (page : Z)
          (pages : list (list Story)) (last : Page) (fuel : nat),
      Client.authenticated client = true ->
      Listing.serves_search site query (List.length (Client.sent client)) page pages last ->
      Listing.no_stories last ->
      (List.length pages < fuel)%nat ->
      exists client',
        Search.search_videos fuel site client query min_duration limit page
          = Some (Ok (flat_map (fun stories =>
                                  Listing.passing min_duration (Listing.of_stories stories))
                        pages), client') /\
        List.length (Client.sent client') =
        (List.length (Client.sent client) + S (List.length pages))%nat) /\
  (forall (site : Client.Site) (client : Client.t) (profile_identifier user_id : string)
          (pages : list Page) (last : Page) (fuel : nat),
      Client.authenticated client = true ->
      Profile.extract_user_id profile_identifier = Some user_id ->
      Listing.serves_profile site user_id (List.length (Client.sent client)) 1
        min_duration pages last ->
      Listing.ends min_duration last ->
      (List.length pages < fuel)%nat ->
      exists client',
        Profile.get_profile_videos fuel site client profile_identifier min_duration limit
          = Some (Ok (flat_map (Listing.page_passing min_duration) (pages ++ [last])%list),
                  client') /\
        List.length (Client.sent client') =
        (List.length (Client.sent client) + S (List.length pages))%nat).
Proof.
  intros Hl. split.
  - intros site client query page pages last fuel Hauth Hserves Hlast Hfuel.
    unfold Search.search_videos. rewrite Hauth. cbn [negb].
    apply (search_pages_all min_duration limit Hl site query last pages Hlast
             page [] client fuel Hserves Hfuel).
  - intros site client pid uid pages last fuel Hauth Hid Hserves Hlast Hfuel.
    unfold Profile.get_profile_videos. rewrite Hauth, Hid.
    rewrite (extract_user_id_truthy pid uid Hid). cbn [negb].
    rewrite (extract_user_id_truthy pid uid Hid).
    apply (profile_pages_all min_duration limit Hl site uid last pages Hlast
             1 [] client fuel Hserves Hfuel).
Qed.

Lemma listing_without_limit_witness :
  exists client',
    Search.search_videos 3 (Sample.site_of (map Sample.search_page Sample.two_by_two))
      Sample.logged_in "rope" 150 (Some 0) 1
    = Some (Ok (flat_map (fun stories =>
                            Listing.passing 150 (Listing.of_stories stories))
                  Sample.two_by_two), client') /\
    List.length (Client.sent client') = 3%nat.
Proof.
  apply (proj1 (listing_without_limit 150 (Some 0) (or_intror eq_refl))
           (Sample.site_of (map Sample.search_page Sample.two_by_two))
           Sample.logged_in "rope" 1 Sample.two_by_two Sample.blank_page 3%nat).
  - reflexivity.
  - simpl. repeat split; try discriminate; eexists; split; reflexivity.
  - exact I.
  - simpl. lia.
Defined.

Section Lookup.

Import Search.

Lemma lookup_client (site : Client.Site) (client : Client.t) (nickname : string) :
  snd (Profile.get_user_id_from_nickname site client nickname) =
  Client.after
    (Client.GET (Config.search_url ++ "?q=" ++ nickname ++ "&type=users")) client.
Proof.
  unfold Profile.get_user_id_from_nickname, Client.get, Client.send.
  destruct (site _ _) as [page|]; [|reflexivity].
  destruct (user_link_href page nickname); reflexivity.
Qed.

Lemma lookup_truthy (site : Client.Site) (client : Client.t) (nickname uid : string) :
  fst (Profile.get_user_id_from_nickname site client nickname) = Some uid ->
  Py.truthy uid = true.
Proof.
  unfold Profile.get_user_id_from_nickname, Client.get, Client.send.
  destruct (site _ _) as [page|]; [|discriminate].
  destruct (user_link_href page nickname) as [h|]; [|discriminate].
  cbn [fst]. intros H. apply search_path_id_digits in H.
  unfold DurationGrammar.digits in H. apply andb_true_iff in H as [H _]. exact H.
Qed.

End Lookup.

(** X11. What resolving the profile identifier costs, for an authenticated
    client. An identifier that is a number or holds /users/ followed by
    digits is listed at once, without a lookup request. Any other
    identifier costs exactly one request, the user search: when that gives
    no user id, [get_profile_videos] raises ProfileError and requests no
    listing page; when it gives one, the listing of that user follows. *)
Theorem profile_lookup_cost (fuel : nat) (site : Client.Site) (client : Client.t)
    (profile_identifier : string) (min_duration : Z) (limit : option Z) :
  Client.authenticated client = true ->
  let lookup :=
    Client.GET (Config.search_url ++ "?q=" ++ profile_identifier ++ "&type=users") in
  (forall user_id,
      Profile.extract_user_id profile_identifier = Some user_id ->
      Profile.get_profile_videos fuel site client profile_identifier min_duration limit
      = Profile.profile_pages fuel site user_id min_duration limit 1 [] client) /\
  (Profile.extract_user_id profile_identifier = None ->
   fst (Profile.get_user_id_from_nickname site client profile_identifier) = None ->
   Profile.get_profile_videos fuel site client profile_identifier min_duration limit
   = Some (Raise ProfileError, Client.after lookup client)) /\
  (forall user_id,
      Profile.extract_user_id profile_identifier = None ->
      fst (Profile.get_user_id_from_nickname site client profile_identifier)
        = Some user_id ->
      Profile.get_profile_videos fuel site client profile_identifier min_duration limit
      = Profile.profile_pages fuel site user_id min_duration limit 1 []
          (Client.after lookup client)).
Proof.
  intros Hauth lookup. unfold Profile.get_profile_videos. rewrite Hauth. cbn [negb].
  split; [|split].
  - intros uid Hid. rewrite Hid, (extract_user_id_truthy _ _ Hid).
    rewrite (extract_user_id_truthy _ _ Hid). reflexivity.
  - intros Hid Hno. rewrite Hid.
    pose proof (lookup_client site client profile_identifier) as C.
    destruct (Profile.get_user_id_from_nickname site client profile_identifier)
      as [found c]. cbn [fst snd] in *. subst. reflexivity.
  - intros uid Hid Hyes. rewrite Hid.
    pose proof (lookup_client site client profile_identifier) as C.
    pose proof (lookup_truthy site client profile_identifier uid Hyes) as T.
    destruct (Profile.get_user_id_from_nickname site client profile_identifier)
      as [found c]. cbn [fst snd] in *. subst. rewrite T. reflexivity.
Qed.

Lemma profile_lookup_cost_witness :
  Profile.get_profile_videos 2 Sample.blank_site Sample.logged_in
    "https://fetlife.com/users/42" 0 None
  = Profile.profile_pages 2 Sample.blank_site "42" 0 None 1 [] Sample.logged_in /\
  Profile.get_profile_videos 2 Sample.blank_site Sample.logged_in "nobody" 0 None
  = Some (Raise ProfileError,
          Client.after (Client.GET (Config.search_url ++ "?q=nobody&type=users"))
            Sample.logged_in).
Proof.
  split.
  - apply (proj1 (profile_lookup_cost 2 Sample.blank_site Sample.logged_in
                    "https://fetlife.com/users/42" 0 None eq_refl) "42" eq_refl).
  - apply (proj1 (proj2 (profile_lookup_cost 2 Sample.blank_site Sample.logged_in
                           "nobody" 0 None eq_refl)) eq_refl eq_refl).
Defined.

(** ** src/downloader.py: what a download leaves behind *)

Section DownloadState.

Import Search Downloader.

Variable net : Net.

Lemma resolve_download_url_history (d : t) (v : VideoInfo) :
  history_file (snd (resolve_download_url net d v)) = history_file d.
Proof.
  unfold resolve_download_url, get_video_download_url.
  destruct (Auth.present (download_url v)); [reflexivity|].
  destruct (Client.get (site net) (url v) (client d)) as [[page|e] c]; reflexivity.
Qed.

Lemma other_file_added (F : gset string) (filepath f : string) :
  f <> filepath -> f ∈ {[ filepath ]} ∪ F <-> f ∈ F.
Proof. intros H. rewrite elem_of_union, elem_of_singleton. tauto. Qed.

Lemma other_file_removed (F : gset string) (filepath f : string) :
  f <> filepath -> f ∈ F ∖ {[ filepath ]} <-> f ∈ F.
Proof. intros H. rewrite elem_of_difference, elem_of_singleton. tauto. Qed.

Lemma file_written (F : gset string) (filepath : string) :
  filepath ∈ {[ filepath ]} ∪ F.
Proof. apply elem_of_union_l, elem_of_singleton. reflexivity. Qed.

(** A transfer: the ledger and its file are written exactly when it
    answers [True], and then the target exists; no other file is touched. *)
Lemma fetch_to_file_state (d d' : t) (v : VideoInfo) (filepath u : string) (ok : bool) :
  fetch_to_file net d v filepath u = (ok, d') ->
  output_dir d' = output_dir d /\
  (if ok
   then downloaded_ids d' = {[ video_id v ]} ∪ downloaded_ids d /\
        history_file d' = Some (downloaded_ids d') /\ filepath ∈ files d'
   else downloaded_ids d' = downloaded_ids d /\ history_file d' = history_file d) /\
  (forall f, f <> filepath -> f ∈ files d' <-> f ∈ files d).
Proof.
  unfold fetch_to_file.
  set (abs := if Py.starts_with "http" u then u else Config.base_url ++ u).
  destruct (Py.contains ".m3u8" abs).
  - destruct (ffmpeg net _ abs) as [|[]|[]|]; intros [= <- <-]; simpl;
      (split; [reflexivity|]);
      (split; [first [split; reflexivity
                     | split; [reflexivity|]; split; [reflexivity | apply file_written]]
              | intros f Hf;
                first [apply other_file_added, Hf | apply other_file_removed, Hf]]).
  - destruct (http_stream net _ abs); intros [= <- <-]; simpl;
      (split; [reflexivity|]);
      (split; [first [split; reflexivity
                     | split; [reflexivity|]; split; [reflexivity | apply file_written]]
              | intros f Hf;
                first [apply other_file_added, Hf | apply other_file_removed, Hf]]).
Qed.

(** One call, whichever way it goes. *)
Lemma download_video_state (d d' : t) (v : VideoInfo) (skip_existing ok : bool) :
  download_video net d v skip_existing = (ok, d') ->
  (if ok
   then (d' = d /\ skip_existing = true /\ video_id v ∈ downloaded_ids d)
        \/
        (downloaded_ids d' = {[ video_id v ]} ∪ downloaded_ids d /\
         history_file d' = Some (downloaded_ids d') /\
         target_path d v ∈ files d')
   else downloaded_ids d' = downloaded_ids d /\ history_file d' = history_file d) /\
  output_dir d' = output_dir d /\
  (forall f, f <> target_path d v -> f ∈ files d' <-> f ∈ files d).
Proof.
  unfold download_video.
  destruct (skip_existing && bool_decide (video_id v ∈ downloaded_ids d)) eqn:K.
  { intros [= <- <-]. apply andb_true_iff in K as [-> K]. apply bool_decide_eq_true in K.
    split; [left; auto|]. split; [reflexivity | tauto]. }
  destruct (bool_decide (target_path d v ∈ files d) && skip_existing) eqn:F.
  { intros [= <- <-]. apply andb_true_iff in F as [F _]. apply bool_decide_eq_true in F.
    split; [right; simpl; auto|]. split; [reflexivity | simpl; tauto]. }
  pose proof (resolve_download_url_keeps net d v) as R.
  pose proof (resolve_download_url_history d v) as H.
  destruct (resolve_download_url net d v) as [found d2].
  simpl in R, H. destruct R as (R1 & R2 & _ & R4).
  destruct (Auth.present found) as [u|].
  - intros E. apply fetch_to_file_state in E as (E1 & E2 & E3).
    split; [|split].
    + destruct ok.
      * right. rewrite <- R1. exact E2.
      * rewrite <- R1, <- H. exact E2.
    + congruence.
    + intros f Hf. rewrite (E3 f Hf), R2. reflexivity.
  - intros [= <- <-]. split; [auto|].
    split; [exact R4 | intros f _; rewrite R2; reflexivity].
Qed.

End DownloadState.


Section Batch.

Import Search Downloader.

Variable net : Net.

Lemma download_video_requests (d d' : t) (v : VideoInfo) (skip_existing ok : bool) :
  download_video net d v skip_existing = (ok, d') ->
  (client d' = client d \/
   Auth.present (download_url v) = None /\
   client d' = Client.after (Client.GET (url v)) (client d)) /\
  (List.length (fetched d') <= S (List.length (fetched d)))%nat /\
  (fetched d' <> fetched d -> skip_existing && bool_decide (video_id v ∈ downloaded_ids d) = false).
Proof.
  unfold download_video.
  destruct (skip_existing && bool_decide (video_id v ∈ downloaded_ids d)).
  { intros [= <- <-]. split; [auto|]. split; [lia | congruence]. }
  destruct (bool_decide (target_path d v ∈ files d) && skip_existing).
  { intros [= <- <-]. simpl. split; [auto|]. split; [lia | reflexivity]. }
  assert (C : let d2 := snd (resolve_download_url net d v) in
              (client d2 = client d \/
               Auth.present (download_url v) = None /\
               client d2 = Client.after (Client.GET (url v)) (client d)) /\
              fetched d2 = fetched d).
  { unfold resolve_download_url, get_video_download_url, Client.get, Client.send.
    destruct (Auth.present (download_url v)); [simpl; auto|].
    destruct (site net _ _); simpl; auto. }
  destruct (resolve_download_url net d v) as [found d2]. simpl in C.
  destruct C as [C1 C2].
  destruct (Auth.present found) as [u|].
  - intros E.
    assert (K : client d' = client d2 /\
                (List.length (fetched d') <= S (List.length (fetched d2)))%nat).
    { revert E. unfold fetch_to_file.
      destruct (Py.contains ".m3u8" _).
      - destruct (ffmpeg net _ _) as [|[]|[]|]; intros [= <- <-]; simpl;
          rewrite List.length_app; simpl; split; (reflexivity || lia).
      - destruct (http_stream net _ _); intros [= <- <-]; simpl;
          rewrite List.length_app; simpl; split; (reflexivity || lia). }
    destruct K as [K1 K2]. rewrite K1, <- C2. split; [exact C1|].
    split; [exact K2 | reflexivity].
  - intros [= <- <-]. split; [exact C1|]. rewrite C2. split; [lia | reflexivity].
Qed.

(** The loop never takes an id out of the ledger, adds only ids of the
    batch, and keeps the ledger file in step with the ledger. *)
Lemma download_each_ledger (skip_existing : bool) (videos : list VideoInfo) :
  forall (d d' : t) (stats stats' : Stats),
    download_each net d videos skip_existing stats = (stats', d') ->
    downloaded_ids d ⊆ downloaded_ids d' /\
    (forall id, id ∈ downloaded_ids d' ->
                id ∈ downloaded_ids d \/ exists v, In v videos /\ video_id v = id) /\
    (History.load_download_history (history_file d) = downloaded_ids d ->
     History.load_download_history (history_file d') = downloaded_ids d') /\
    output_dir d' = output_dir d.
Proof.
  induction videos as [|v rest IH]; intros d d' stats stats'.
  - intros [= <- <-]. split; [reflexivity|]. split; [auto|]. split; auto.
  - cbn [download_each].
    destruct (skip_existing && bool_decide (video_id v ∈ downloaded_ids d)).
    + intros E. destruct (IH _ _ _ _ E) as (I1 & I2 & I3 & I4).
      split; [exact I1|]. split; [|split; assumption].
      intros id Hid. destruct (I2 id Hid) as [?|(w & Hw & Ew)]; [auto|].
      right. exists w. split; [right; exact Hw | exact Ew].
    + destruct (download_video net d v skip_existing) as [ok d1] eqn:V.
      intros E. destruct (IH _ _ _ _ E) as (I1 & I2 & I3 & I4).
      apply download_video_state in V as (V1 & V2 & _).
      assert (S1 : downloaded_ids d ⊆ downloaded_ids d1).
      { destruct ok; [destruct V1 as [(-> & _) | (-> & _)]|destruct V1 as [-> _]];
          try reflexivity.
        intros x Hx. apply elem_of_union_r, Hx. }
      assert (S2 : forall id, id ∈ downloaded_ids d1 ->
                              id ∈ downloaded_ids d \/ video_id v = id).
      { destruct ok; [destruct V1 as [(-> & _) | (-> & _)]|destruct V1 as [-> _]];
          auto.
        intros id Hid. apply elem_of_union in Hid as [Hid|Hid]; [|auto].
        apply elem_of_singleton in Hid. auto. }
      assert (S3 : History.load_download_history (history_file d) = downloaded_ids d ->
                   History.load_download_history (history_file d1) = downloaded_ids d1).
      { destruct ok; [destruct V1 as [(-> & _) | (_ & -> & _)]|destruct V1 as [-> ->]];
          auto. }
      split; [etransitivity; eassumption|]. split; [|split].
      * intros id Hid. destruct (I2 id Hid) as [H1|(w & Hw & Ew)].
        -- destruct (S2 id H1) as [?|?]; [auto|].
           right. exists v. split; [left; reflexivity | assumption].
        -- right. exists w. split; [right; exact Hw | exact Ew].
      * auto.
      * congruence.
Qed.



End Batch.

Section Rerun.

Import Search Downloader.


End Rerun.




(** X15. A manifest download that fails while ffmpeg leaves its output
    file behind (a non-zero exit or a timeout: neither removes the file) is
    answered with False and not recorded; but the next call for the same
    record, with [skip_existing], finds the file, records the id in the
    ledger and answers True without requesting or fetching anything. *)
Theorem leftover_file_counts_as_download (net net' : Downloader.Net) (d : Downloader.t)
    (v : Search.VideoInfo) (u : string) :
  Search.video_id v ∉ Downloader.downloaded_ids d ->
  Downloader.target_path d v ∉ Downloader.files d ->
  Auth.present (Search.download_url v) = Some u ->
  let manifest := if Py.starts_with "http" u then u else Config.base_url ++ u in
  Py.contains ".m3u8" manifest = true ->
  Downloader.ffmpeg net (List.length (Downloader.fetched d)) manifest
    = Downloader.ExitNonZero true \/
  Downloader.ffmpeg net (List.length (Downloader.fetched d)) manifest
    = Downloader.TimeoutExpired true ->
  exists d1,
    Downloader.download_video net d v true = (false, d1) /\
    (Search.video_id v ∉ Downloader.downloaded_ids d1) /\
    Downloader.download_video net' d1 v true
      = (true, Downloader.mark_downloaded (Search.video_id v) d1).
Proof.
  intros Hid Hfile Hu manifest Hm Hff.
  destruct (present_inv _ _ Hu) as [_ Hne].
  assert (Hp : Auth.present (Some u) = Some u)
    by (destruct u; [congruence | reflexivity]).
  set (d0 := Downloader.record_fetch (Downloader.Remux manifest) d).
  exists (Downloader.set_file (Downloader.target_path d v) true d0).
  split; [|split].
  - unfold Downloader.download_video. cbn [andb].
    rewrite (bool_decide_eq_false_2 _ Hid), (bool_decide_eq_false_2 _ Hfile).
    cbn [andb]. unfold Downloader.resolve_download_url. rewrite Hu, Hp.
    unfold Downloader.fetch_to_file. fold manifest. rewrite Hm.
    destruct Hff as [-> | ->]; reflexivity.
  - exact Hid.
  - apply download_video_existing_file; [exact Hid|].
    apply file_written.
Qed.

Lemma leftover_file_counts_as_download_witness :
  exists d1,
    Downloader.download_video Scenario.leaky_net Sample.fresh_downloader
      (Sample.video "77" (Some "/media/77.m3u8")) true = (false, d1) /\
    (Search.video_id (Sample.video "77" (Some "/media/77.m3u8"))
       ∉ Downloader.downloaded_ids d1) /\
    Downloader.download_video Sample.failing_net d1
      (Sample.video "77" (Some "/media/77.m3u8")) true
    = (true, Downloader.mark_downloaded "77" d1).
Proof.
  apply (leftover_file_counts_as_download Scenario.leaky_net Sample.failing_net
           Sample.fresh_downloader (Sample.video "77" (Some "/media/77.m3u8"))
           "/media/77.m3u8").
  - apply not_elem_of_empty.
  - apply not_elem_of_empty.
  - reflexivity.
  - reflexivity.
  - left. reflexivity.
Defined.

Section Cost.

Import Search Downloader.

Variable net : Net.

(** Every record that is not skipped costs at most one page request and
    one stream fetch. *)
Lemma download_each_cost (skip_existing : bool) (videos : list VideoInfo) :
  forall (d d' : t) (stats stats' : Stats),
    download_each net d videos skip_existing stats = (stats', d') ->
    Z.of_nat (List.length (fetched d')) - Z.of_nat (List.length (fetched d))
      <= (success stats' + failed stats') - (success stats + failed stats) /\
    Z.of_nat (List.length (Client.sent (client d')))
      - Z.of_nat (List.length (Client.sent (client d)))
      <= (success stats' + failed stats') - (success stats + failed stats) /\
    ((forall v, In v videos -> Auth.present (download_url v) <> None) ->
     client d' = client d).
Proof.
  induction videos as [|v rest IH]; intros d d' stats stats'.
  - intros [= <- <-]. split; [lia|]. split; [lia | reflexivity].
  - cbn [download_each].
    destruct (skip_existing && bool_decide (video_id v ∈ downloaded_ids d)).
    + intros E. destruct (IH _ _ _ _ E) as (I1 & I2 & I3). simpl in I1, I2.
      split; [lia|]. split; [lia|].
      intros H. apply I3. intros w Hw. apply H. right. exact Hw.
    + destruct (download_video net d v skip_existing) as [ok d1] eqn:V.
      intros E. destruct (IH _ _ _ _ E) as (I1 & I2 & I3).
      apply download_video_requests in V as (V1 & V2 & _).
      assert (V3 : (List.length (Client.sent (client d1))
                    <= S (List.length (Client.sent (client d))))%nat).
      { destruct V1 as [-> | [_ ->]]; [lia | rewrite sent_after; lia]. }
      split; [destruct ok; simpl in I1; lia|].
      split; [destruct ok; simpl in I2; lia|].
      intros H. rewrite I3 by (intros w Hw; apply H; right; exact Hw).
      destruct V1 as [V1 | [V1 _]]; [exact V1|].
      destruct (H v (or_introl eq_refl) V1).
Qed.

End Cost.

(** X16. What a batch costs. The number of stream fetches and the number
    of page requests that [download_videos] makes are each at most the
    number of records it counts as success or failure: a skipped record
    costs nothing. When every record of the batch carries a stream address,
    no page is requested at all. *)
Theorem download_videos_cost (net : Downloader.Net) (d : Downloader.t)
    (videos : list Search.VideoInfo) (skip_existing : bool) :
  let '(stats, d') := Downloader.download_videos net d videos skip_existing in
  Z.of_nat (List.length (Downloader.fetched d'))
    <= Z.of_nat (List.length (Downloader.fetched d))
       + Downloader.success stats + Downloader.failed stats /\
  Z.of_nat (List.length (Client.sent (Downloader.client d')))
    <= Z.of_nat (List.length (Client.sent (Downloader.client d)))
       + Downloader.success stats + Downloader.failed stats /\
  ((forall v, In v videos -> Auth.present (Search.download_url v) <> None) ->
   Downloader.client d' = Downloader.client d).
Proof.
  unfold Downloader.download_videos.
  destruct (Downloader.download_each net d videos skip_existing _) as [stats d'] eqn:E.
  destruct (download_each_cost net skip_existing videos _ _ _ _ E) as (C1 & C2 & C3).
  simpl in C1, C2. split; [lia|]. split; [lia | exact C3].
Qed.

(** ** src/downloader.py: where a download is written *)

Section TargetPath.

Import Search Downloader.

Lemma valid_not_slash (c : ascii) : Utils.invalid_char c = false -> is_slash c = false.
Proof.
  destruct c as [[] [] [] [] [] [] [] []]; intros H; try reflexivity; discriminate H.
Qed.

Lemma safe_name_no_slash (m : Z) (r : string) :
  safe_name m r -> Py.any_char is_slash r = false.
Proof.
  intros (V & _). apply (any_char_weaken Utils.invalid_char is_slash r valid_not_slash V).
Qed.

Lemma first_char_app (a b : string) :
  a <> EmptyString -> Py.first_char (a ++ b) = Py.first_char a.
Proof. destruct a; [congruence | reflexivity]. Qed.

End TargetPath.

(** X17. For a record whose id holds no slash, the target of a download is
    the output directory, then a directory, then a file name ending in .mp4:
    neither name holds a slash, and neither starts with a dot, so the file
    is written two levels below the output directory and nowhere else. *)
Theorem target_path_below_output_dir (d : Downloader.t) (v : Search.VideoInfo) :
  Py.any_char is_slash (Search.video_id v) = false ->
  exists dir name,
    Downloader.target_path d v
      = Downloader.output_dir d ++ "/" ++ dir ++ "/" ++ name ++ ".mp4" /\
    Py.any_char is_slash dir = false /\
    Py.any_char is_slash (name ++ ".mp4") = false /\
    (exists c, Py.first_char dir = Some c /\ c <> "."%char) /\
    (exists c, Py.first_char name = Some c /\ c <> "."%char).
Proof.
  intros Hid.
  pose proof (sanitize_filename_bounded (Search.uploader v) Utils.default_max_length
                ltac:(unfold Utils.default_max_length; lia)) as Sd.
  pose proof (sanitize_filename_bounded (Search.title v) Utils.default_max_length
                ltac:(unfold Utils.default_max_length; lia)) as St.
  set (dir := Utils.sanitize_filename (Search.uploader v) Utils.default_max_length) in *.
  set (safe_title := Utils.sanitize_filename (Search.title v) Utils.default_max_length) in *.
  assert (F : forall r, safe_name Utils.default_max_length r ->
                        exists c, Py.first_char r = Some c /\ c <> "."%char).
  { intros r (_ & Fr & _ & _ & Nr). destruct r as [|c r]; [congruence|].
    exists c. split; [reflexivity|]. intros ->.
    specialize (Fr "."%char eq_refl). discriminate Fr. }
  exists dir, (safe_title ++ "_" ++ Search.video_id v).
  split; [|split; [|split; [|split]]].
  - unfold Downloader.target_path, Downloader.path_join. fold dir safe_title.
    rewrite !append_assoc. reflexivity.
  - apply (safe_name_no_slash _ _ Sd).
  - rewrite !any_char_app, (safe_name_no_slash _ _ St), Hid. reflexivity.
  - apply F, Sd.
  - rewrite first_char_app by (destruct St as (_ & _ & _ & _ & N); exact N).
    apply F, St.
Qed.

Lemma target_path_below_output_dir_witness :
  exists dir name,
    Downloader.target_path Sample.fresh_downloader (Sample.video "77" None)
      = "./downloads" ++ "/" ++ dir ++ "/" ++ name ++ ".mp4" /\
    Py.any_char is_slash dir = false /\
    Py.any_char is_slash (name ++ ".mp4") = false.
Proof.
  destruct (target_path_below_output_dir Sample.fresh_downloader (Sample.video "77" None)
              eq_refl) as (dir & name & E & D & N & _).
  exists dir, name. split; [exact E|]. split; [exact D | exact N].
Defined.

(** ** src/search.py: the record of an entry of the payload *)

(** X18. For an entry of the search payload whose path is a slash, a name
    without a slash, a slash and a rest, the record has that name as its
    uploader and the base address followed by the path as its page address;
    the uploader id is always 0. *)
Theorem payload_record_uploader (video_data : VideoData) (nick rest : string) :
  Py.any_char is_slash nick = false ->
  vd_path video_data = Some ("/" ++ nick ++ "/" ++ rest) ->
  exists v,
    Search.video_info_of_data video_data = Ok v /\
    Search.uploader v = nick /\
    Search.url v = Config.base_url ++ "/" ++ nick ++ "/" ++ rest /\
    Search.uploader_id v = "0".
Proof.
  intros Hn Hp. unfold Search.video_info_of_data. rewrite Hp.
  cbn [Search.get_or].
  change (Py.truthy ("/" ++ nick ++ "/" ++ rest)) with true. cbv iota.
  assert (S : Py.split "/" ("/" ++ nick ++ "/" ++ rest)
              = EmptyString :: nick :: Py.split "/" rest).
  { change ("/" ++ nick ++ "/" ++ rest) with (String "/" (nick ++ String "/" rest)).
    cbn [Py.split]. rewrite Ascii.eqb_refl.
    rewrite (split_at_first "/" nick rest Hn). reflexivity. }
  rewrite S.
  match goal with
  | |- context [bind ?x _] =>
      assert (D : exists n, x = Ok n)
  end.
  { destruct (Py.truthy _); [apply duration_or_0_total | eauto]. }
  destruct D as [n ->]. cbn [bind].
  eexists. split; [reflexivity|]. cbn. auto.
Qed.

Lemma payload_record_uploader_witness :
  exists v,
    Search.video_info_of_data (Sample.entry 11 "2:00") = Ok v /\
    Search.uploader v = "bob".
Proof.
  destruct (payload_record_uploader (Sample.entry 11 "2:00") "bob" "videos/11"
              eq_refl eq_refl) as (v & E & U & _).
  exists v. split; [exact E | exact U].
Defined.

(** ** src/cli.py: the two commands *)

Section Commands.

Import Search Downloader.

Lemma authenticate_log (site : Client.Site) (client : Client.t)
    (username password : option string) :
  exists more,
    Client.sent (snd (Auth.authenticate site client username password))
      = (Client.sent client ++ more)%list /\
    Forall (fun r => request_url r = Config.login_url) more.
Proof.
  unfold Auth.authenticate.
  assert (Z : exists more, Client.sent client = (Client.sent client ++ more)%list /\
                Forall (fun r => request_url r = Config.login_url) more).
  { exists []. split; [rewrite app_nil_r; reflexivity | constructor]. }
  destruct (Auth.present username) as [user|]; [|exact Z].
  destruct (Auth.present password) as [pass|]; [|exact Z].
  unfold Client.get, Client.send.
  assert (One : exists more,
             (Client.sent client ++ [Client.GET Config.login_url])%list
               = (Client.sent client ++ more)%list /\
             Forall (fun r => request_url r = Config.login_url) more).
  { exists [Client.GET Config.login_url]. split; [reflexivity|].
    constructor; [reflexivity | constructor]. }
  destruct (site _ _) as [login_page|]; [|exact One].
  destruct (Auth.present (Auth.extract_csrf_token login_page)) as [token|];
    [|exact One].
  unfold Client.post, Client.send.
  assert (Two : exists more,
             ((Client.sent client ++ [Client.GET Config.login_url])
              ++ [Client.POST Config.login_url (Auth.login_data token user pass)])%list
               = (Client.sent client ++ more)%list /\
             Forall (fun r => request_url r = Config.login_url) more).
  { exists [Client.GET Config.login_url;
            Client.POST Config.login_url (Auth.login_data token user pass)].
    split; [rewrite <- app_assoc; reflexivity|].
    repeat constructor. }
  destruct (site _ _) as [answer|]; [|exact Two].
  destruct ((status_code answer =? 200) && Py.contains "/home" (final_url answer));
    exact Two.
Qed.

Lemma authenticate_outcomes (site : Client.Site) (client : Client.t)
    (username password : option string) :
  fst (Auth.authenticate site client username password) = Ok true \/
  fst (Auth.authenticate site client username password) = Raise AuthenticationError.
Proof.
  unfold Auth.authenticate.
  destruct (Auth.present username); [|auto].
  destruct (Auth.present password); [|auto].
  destruct (Client.get site Config.login_url client) as [[page|e] c]; [|auto].
  destruct (Auth.present (Auth.extract_csrf_token page)); [|auto].
  destruct (Client.post site Config.login_url _ _) as [[answer|e] c']; [|auto].
  destruct ((status_code answer =? 200) && Py.contains "/home" (final_url answer));
    auto.
Qed.

Lemma download_each_skipped (net : Net) (skip_existing : bool) (videos : list VideoInfo) :
  forall (d d' : t) (stats stats' : Stats),
    download_each net d videos skip_existing stats = (stats', d') ->
    skipped stats <= skipped stats'.
Proof.
  induction videos as [|v rest IH]; intros d d' stats stats'.
  - intros [= <- <-]. lia.
  - cbn [download_each].
    destruct (skip_existing && bool_decide (video_id v ∈ downloaded_ids d)).
    + intros E. apply IH in E. simpl in E. lia.
    + destruct (download_video net d v skip_existing) as [[] d1]; intros E;
        apply IH in E; simpl in E; lia.
Qed.

(** What the end of a command downloads, for a list that respects the
    filter and the limit. *)
Lemma list_and_download_bounded (net : Net) (client : Client.t)
    (listed videos : list VideoInfo) (no_download force : bool) (output_dir : string)
    (history_file : option (gset string)) (files : gset string)
    (stats : Stats) (d : t) :
  Cli.list_and_download net client listed no_download force output_dir
    history_file files = Cli.Downloaded videos stats d ->
  videos = listed /\
  Z.of_nat (List.length (fetched d)) <= Z.of_nat (List.length videos) /\
  (forall id, id ∈ downloaded_ids d ->
              id ∈ History.load_download_history history_file \/
              exists v, In v videos /\ video_id v = id) /\
  Downloader.output_dir d = output_dir.
Proof.
  unfold Cli.list_and_download.
  destruct listed as [|v rest]; [discriminate|].
  destruct no_download; [discriminate|].
  unfold download_videos.
  destruct (download_each net _ (v :: rest) (negb force) _) as [stats' d'] eqn:E.
  intros [= <- <- <-]. split; [reflexivity|].
  destruct (download_each_cost net _ _ _ _ _ _ E) as (C & _ & _).
  pose proof (download_each_counts net (v :: rest)
                (History.new client output_dir history_file files) (negb force)
                {| total := Z.of_nat (List.length (v :: rest));
                   success := 0; failed := 0; skipped := 0 |}) as K.
  rewrite E in K. cbn [fst] in K. destruct K as [_ K].
  pose proof (download_each_skipped net _ _ _ _ _ _ E) as S.
  destruct (download_each_ledger net _ _ _ _ _ _ E) as (_ & L & _ & O).
  cbn [History.new Downloader.fetched Downloader.downloaded_ids
       Downloader.output_dir List.length success failed skipped] in *.
  split; [lia|]. split; [exact L | exact O].
Qed.

End Commands.

(** X19. Both commands stop at a failed login: when [authenticate] does
    not succeed, [search] and [profile] end with exit status 1 however many
    pages they may read, no listing page is requested and nothing is
    downloaded; every request that was sent went to the login address. *)
Theorem commands_stop_at_failed_login (fuel : nat) (net : Downloader.Net)
    (query profile_identifier : string) (min_duration : Z) (limit : option Z)
    (output_dir : string) (username password : option string)
    (no_download force : bool) (history_file : option (gset string))
    (files : gset string) :
  fst (Auth.authenticate (Downloader.site net) Client.new username password)
    <> Ok true ->
  exists client,
    Cli.search fuel net query min_duration limit output_dir username password
      no_download force history_file files = Some (Cli.Failed client) /\
    Cli.profile fuel net profile_identifier min_duration limit output_dir
      username password no_download force history_file files
      = Some (Cli.Failed client) /\
    Forall (fun r => request_url r = Config.login_url) (Client.sent client).
Proof.
  intros Hfail. unfold Cli.search, Cli.profile.
  pose proof (authenticate_outcomes (Downloader.site net) Client.new username password)
    as X.
  destruct (authenticate_log (Downloader.site net) Client.new username password)
    as (more & L & F).
  destruct (Auth.authenticate (Downloader.site net) Client.new username password)
    as [outcome client]. cbn [fst snd] in *.
  destruct X as [-> | ->]; [congruence|].
  exists client. split; [reflexivity|]. split; [reflexivity|].
  rewrite L. exact F.
Qed.


Lemma commands_stop_at_failed_login_witness :
  exists client,
    Cli.search 5 Sample.failing_net "rope" 0 None "./downloads"
      (Some "alice") (Some "secret") false false None ∅ = Some (Cli.Failed client) /\
    Cli.profile 5 Sample.failing_net "bob" 0 None "./downloads"
      (Some "alice") (Some "secret") false false None ∅ = Some (Cli.Failed client) /\
    Forall (fun r => request_url r = Config.login_url) (Client.sent client).
Proof.
  apply (commands_stop_at_failed_login 5 Sample.failing_net "rope" "bob" 0 None
           "./downloads" (Some "alice") (Some "secret") false false None ∅).
  vm_compute. discriminate.
Defined.

(** X20. What a command downloads. When [search] or [profile] gets as far
    as the download, every listed record passes the minimum-duration
    filter and, under a positive limit N, there are at most N of them; no
    more stream fetches are made than there are listed records; the ledger
    holds only ids that were in the ledger file before or belong to listed
    records; and the downloader works in the given output directory. *)
Theorem commands_respect_filter_and_limit (fuel : nat) (net : Downloader.Net)
    (query profile_identifier : string) (min_duration : Z) (limit : option Z)
    (output_dir : string) (username password : option string)
    (no_download force : bool) (history_file : option (gset string))
    (files : gset string) (videos : list Search.VideoInfo)
    (stats : Downloader.Stats) (d : Downloader.t) :
  Cli.search fuel net query min_duration limit output_dir username password
    no_download force history_file files = Some (Cli.Downloaded videos stats d) \/
  Cli.profile fuel net profile_identifier min_duration limit output_dir
    username password no_download force history_file files
    = Some (Cli.Downloaded videos stats d) ->
  Forall (passes min_duration) videos /\
  within limit videos /\
  Z.of_nat (List.length (Downloader.fetched d)) <= Z.of_nat (List.length videos) /\
  (forall id, id ∈ Downloader.downloaded_ids d ->
              id ∈ History.load_download_history history_file \/
              exists v, In v videos /\ Search.video_id v = id) /\
  Downloader.output_dir d = output_dir.
Proof.
  intros [H | H].
  - unfold Cli.search in H.
    destruct (Auth.authenticate _ _ _ _) as [[b|e] client]; [|discriminate].
    destruct (Search.search_videos _ _ _ _ _ _ _) as [[[listed|e] client']|] eqn:E;
      try discriminate.
    injection H as H. apply list_and_download_bounded in H as (-> & B).
    destruct (search_videos_safe _ _ _ _ _ _ _ _ _ E) as [P W].
    split; [exact P|]. split; [exact W | exact B].
  - unfold Cli.profile in H.
    destruct (Auth.authenticate _ _ _ _) as [[b|e] client]; [|discriminate].
    destruct (Profile.get_profile_videos _ _ _ _ _ _) as [[[listed|e] client']|] eqn:E;
      try discriminate.
    injection H as H. apply list_and_download_bounded in H as (-> & B).
    destruct (get_profile_videos_safe _ _ _ _ _ _ _ _ E) as [P W].
    split; [exact P|]. split; [exact W | exact B].
Qed.

Lemma commands_respect_filter_and_limit_witness :
  exists videos stats d,
    Cli.search 3 Scenario.session_net "rope" 60 (Some 2) "./downloads"
      (Some "alice") (Some "secret") false false None ∅
      = Some (Cli.Downloaded videos stats d) /\
    Forall (passes 60) videos /\
    Z.of_nat (List.length (Downloader.fetched d)) <= Z.of_nat (List.length videos) /\
    Z.of_nat (List.length videos) <= 2.
Proof.
  destruct (Cli.search 3 Scenario.session_net "rope" 60 (Some 2) "./downloads"
              (Some "alice") (Some "secret") false false None ∅)
    as [[c|c l|videos stats d]|] eqn:E; [vm_compute in E; discriminate..| |
                                          vm_compute in E; discriminate].
  exists videos, stats, d. split; [reflexivity|].
  destruct (commands_respect_filter_and_limit 3 Scenario.session_net "rope" "bob" 60
              (Some 2) "./downloads" (Some "alice") (Some "secret") false false None ∅
              videos stats d (or_introl E)) as (P & W & F & _).
  split; [exact P|]. split; [exact F | apply (W 2 eq_refl); lia].
Defined.

(** ** src/search.py and src/profile.py: the requests of a listing *)

Section ListingRequests.

Import Search.

Variable site : Client.Site.
Variable min_duration : Z.
Variable limit : option Z.

Lemma one_page (url_of : Z -> string) (first : Z) (client : Client.t) :
  exists k, (1 <= k <= 1)%nat /\
    Client.sent (Client.after (Client.GET (url_of first)) client)
      = (Client.sent client ++ page_requests url_of first k)%list.
Proof. exists 1%nat. split; [lia | reflexivity]. Qed.

Lemma more_pages (url_of : Z -> string) (first : Z) (client client' : Client.t)
    (fuel : nat) :
  (exists k, (1 <= k <= fuel)%nat /\
     Client.sent client'
       = (Client.sent (Client.after (Client.GET (url_of first)) client)
          ++ page_requests url_of (first + 1) k)%list) ->
  exists k, (1 <= k <= S fuel)%nat /\
    Client.sent client' = (Client.sent client ++ page_requests url_of first k)%list.
Proof.
  intros (k & Hk & E). exists (S k). split; [lia|].
  rewrite E. cbn [Client.after Client.sent page_requests].
  rewrite <- app_assoc. reflexivity.
Qed.

Lemma widen (url_of : Z -> string) (first : Z) (client client' : Client.t)
    (fuel : nat) :
  (exists k, (1 <= k <= 1)%nat /\
     Client.sent client' = (Client.sent client ++ page_requests url_of first k)%list) ->
  exists k, (1 <= k <= S fuel)%nat /\
    Client.sent client' = (Client.sent client ++ page_requests url_of first k)%list.
Proof. intros (k & Hk & E). exists k. split; [lia | exact E]. Qed.

Lemma search_pages_requests (query : string) (fuel : nat) :
  forall (current_page : Z) (videos : list VideoInfo) (client client' : Client.t)
         (outcome : result (list VideoInfo)),
    search_pages fuel site query min_duration limit current_page videos client
      = Some (outcome, client') ->
    exists k, (1 <= k <= fuel)%nat /\
      Client.sent client'
        = (Client.sent client ++ page_requests (search_url query) current_page k)%list.
Proof.
  induction fuel as [|fuel IH]; intros current_page videos client client' outcome;
    [discriminate|].
  cbn [search_pages]. unfold Client.get, Client.send.
  pose proof (one_page (search_url query) current_page client) as One.
  destruct (site _ _) as [page|];
    [|intros [= <- <-]; apply widen, One].
  destruct (video_search_stories page) as [| | |[|story stories]];
    try (intros [= <- <-]; apply widen, One).
  destruct (scan_stories _ _ _ _ _) as [found|pv|e];
    try (intros [= <- <-]; apply widen, One).
  intros H. apply more_pages. apply (IH _ _ _ _ _ H).
Qed.

Lemma profile_pages_requests (user_id : string) (fuel : nat) :
  forall (page_number : Z) (videos : list VideoInfo) (client client' : Client.t)
         (outcome : result (list VideoInfo)),
    Profile.profile_pages fuel site user_id min_duration limit page_number videos client
      = Some (outcome, client') ->
    exists k, (1 <= k <= fuel)%nat /\
      Client.sent client'
        = (Client.sent client
           ++ page_requests (Profile.videos_url user_id) page_number k)%list.
Proof.
  induction fuel as [|fuel IH]; intros page_number videos client client' outcome;
    [discriminate|].
  cbn [Profile.profile_pages]. unfold Client.get, Client.send.
  pose proof (one_page (Profile.videos_url user_id) page_number client) as One.
  destruct (site _ _) as [page|];
    [|intros [= <- <-]; apply widen, One].
  destruct (Profile.video_elements page) as [|element elements];
    [intros [= <- <-]; apply widen, One|].
  destruct (Profile.scan_elements _ _ _ _ _) as [found|[|v pv]|e];
    try (intros [= <- <-]; apply widen, One).
  destruct (next_link page); [|intros [= <- <-]; apply widen, One].
  intros H. apply more_pages. apply (IH _ _ _ _ _ H).
Qed.

End ListingRequests.

(** X21. A listing requests result pages in a row and nothing else. When
    [search_videos] ends, with a list or with SearchError, an authenticated
    client has sent the requests for the pages page, page + 1, ... of the
    query, each once, at least one and at most as many as it was allowed to
    read. The same holds for [get_profile_videos] from page 1 on, for an
    identifier that needs no lookup. *)
Theorem listings_request_consecutive_pages (site : Client.Site)
    (min_duration : Z) (limit : option Z) (fuel : nat)
    (client client' : Client.t) (outcome : result (list Search.VideoInfo)) :
  Client.authenticated client = true ->
  (forall (query : string) (page : Z),
      Search.search_videos fuel site client query min_duration limit page
        = Some (outcome, client') ->
      exists k, (1 <= k <= fuel)%nat /\
        Client.sent client'
          = (Client.sent client ++ page_requests (Search.search_url query) page k)%list) /\
  (forall (profile_identifier user_id : string),
      Profile.extract_user_id profile_identifier = Some user_id ->
      Profile.get_profile_videos fuel site client profile_identifier min_duration limit
        = Some (outcome, client') ->
      exists k, (1 <= k <= fuel)%nat /\
        Client.sent client'
          = (Client.sent client
             ++ page_requests (Profile.videos_url user_id) 1 k)%list).
Proof.
  intros Hauth. split.
  - intros query page. unfold Search.search_videos. rewrite Hauth. cbn [negb].
    apply search_pages_requests.
  - intros pid uid Hid. unfold Profile.get_profile_videos.
    rewrite Hauth, Hid, (extract_user_id_truthy pid uid Hid). cbn [negb].
    rewrite (extract_user_id_truthy pid uid Hid).
    apply profile_pages_requests.
Qed.

Lemma listings_request_consecutive_pages_witness :
  exists outcome client' k,
    Search.search_videos 3 (Sample.site_of (map Sample.search_page Sample.two_by_two))
      Sample.logged_in "rope" 0 None 1 = Some (outcome, client') /\
    (1 <= k <= 3)%nat /\
    Client.sent client'
      = (Client.sent Sample.logged_in
         ++ page_requests (Search.search_url "rope") 1 k)%list.
Proof.
  destruct (Search.search_videos 3 (Sample.site_of (map Sample.search_page Sample.two_by_two))
              Sample.logged_in "rope" 0 None 1) as [[outcome client']|] eqn:E;
    [|vm_compute in E; discriminate].
  destruct (proj1 (listings_request_consecutive_pages
                     (Sample.site_of (map Sample.search_page Sample.two_by_two))
                     0 None 3 Sample.logged_in client' outcome eq_refl) "rope" 1 E)
    as (k & Hk & S).
  exists outcome, client', k. split; [reflexivity|]. split; [exact Hk | exact S].
Defined.
